(** * trx-control: the NMEA sentence decoder, the websocket listener and the
      transceiver controller thread of trxd

    A shallow embedding of three C sources of trxd and of one of its
    drivers:

    - the NMEA decoder ([nmea_input], [nmea_scan], [nmea_gprmc],
      [nmea_decode_gga], [nmea_locator], [nmea_degrees], [nmea_atoi],
      [nmea_date], [nmea_time]);
    - the websocket listener ([websocket_handshake], [websocket_listener]);
    - the controller thread ([trx_control]);
    - the RTXLink driver ([slipWrite], [setFrequency], [getFrequency]).

    Conventions.  A C [char] and a C [int] are integers of [Z]; arithmetic
    that overflows a signed integer has no defined result.  A [double] is a
    binary64 value of Rocq's primitive [float], so arithmetic on it rounds as
    the machine does.  A [char *] into the receive buffer is an offset into
    the list that models the buffer.  A read outside an array or through an
    uninitialised pointer has no defined result: the functions that can do
    one return [option], and [None] stands for that.  System and library
    calls are either recorded as events of a trace or answered by a script
    that stands for the environment. *)

From Stdlib Require Import ZArith QArith Qabs List Ascii String Floats Lia Bool.
From stdpp Require Import base option list.
Import ListNotations.
Local Open Scope Z_scope.

Set Warnings "-inexact-float".

(** ** Characters and C strings *)

Definition chr (a : ascii) : Z := Z.of_N (N_of_ascii a).

Definition str (s : string) : list Z := map chr (list_ascii_of_string s).

Definition NUL : Z := 0.
Definition c_dollar : Z := Eval cbv in chr "$".
Definition c_cr : Z := 13.
Definition c_lf : Z := 10.
Definition c_star : Z := Eval cbv in chr "*".
Definition c_comma : Z := Eval cbv in chr ",".
Definition c_dot : Z := Eval cbv in chr ".".
Definition c_0 : Z := Eval cbv in chr "0".
Definition c_9 : Z := Eval cbv in chr "9".
Definition c_A : Z := Eval cbv in chr "A".
Definition c_D : Z := Eval cbv in chr "D".
Definition c_F : Z := Eval cbv in chr "F".
Definition c_S : Z := Eval cbv in chr "S".
Definition c_V : Z := Eval cbv in chr "V".
Definition c_W : Z := Eval cbv in chr "W".

(** A 64-bit two's complement integer, as Lua's integers wrap around. *)
Definition wrap64 (z : Z) : Z := (z + 2 ^ 63) mod 2 ^ 64 - 2 ^ 63.

(** The string a [char *] at offset [off] of [buf] points to: the characters
    up to the first NUL, [None] when the buffer ends before one. *)
Fixpoint cstring_of (l : list Z) : option (list Z) :=
  match l with
  | [] => None
  | c :: l' => if c =? NUL then Some [] else s ← cstring_of l'; Some (c :: s)
  end.

Definition cstring (buf : list Z) (off : nat) : option (list Z) :=
  cstring_of (drop off buf).

(** [strncmp(buf + off, lit, n)]: zero when the first [n] characters agree
    (or both strings end before), the difference of the first pair that
    differs otherwise.  [lit] is a literal, its terminator implicit. *)
Fixpoint strncmp (buf : list Z) (off : nat) (lit : list Z) (n : nat)
  : option Z :=
  match n with
  | O => Some 0
  | S n' =>
      c ← buf !! off;
      let d := hd NUL lit in
      if c =? d then
        if c =? NUL then Some 0 else strncmp buf (S off) (tl lit) n'
      else Some (c - d)
  end.

(** ** Doubles *)

Definition Z2double (z : Z) : float :=
  if z <? 0 then PrimFloat.opp (PrimFloat.of_uint63 (Uint63.of_Z (- z)))
  else PrimFloat.of_uint63 (Uint63.of_Z z).

(** The integer part of a finite double (rounding toward zero). *)
Definition trunc (d : float) : option Z :=
  match Prim2SF d with
  | S754_zero _ => Some 0
  | S754_finite s m e =>
      let a := if 0 <=? e then Z.pos m * 2 ^ e else Z.pos m / 2 ^ (- e) in
      Some (if s then - a else a)
  | _ => None
  end.

Definition INT_MIN : Z := - 2 ^ 31.
Definition INT_MAX : Z := 2 ^ 31 - 1.

(** [(int)d].  Where C leaves the conversion open (not a number, or out of
    range) this is the amd64 instruction's answer, [INT_MIN]. *)
Definition double_to_int (d : float) : Z :=
  match trunc d with
  | Some z => if (INT_MIN <=? z) && (z <=? INT_MAX) then z else INT_MIN
  | None => INT_MIN
  end.

(** A double stored into a [char]: converted as an [int], of which the low
    eight bits are kept (a signed [char]). *)
Definition double_to_char (d : float) : Z :=
  (double_to_int d + 128) mod 256 - 128.

(** The rational number a finite double stands for. *)
Definition double_value (d : float) : option Q :=
  match Prim2SF d with
  | S754_zero _ => Some 0%Q
  | S754_finite s m e =>
      Some ((if s then -1 else 1) * inject_Z (Z.pos m) * Qpower 2 e)%Q
  | _ => None
  end.

(** ** The NMEA decoder *)

Module Nmea.

Definition NMEAMAX : nat := 82.
Definition LOCMAX : nat := 6.
Definition MAXFLDS : nat := 32.
Definition KNOTTOMS : float := 0.514444.

Record struct_tm := mk_tm {
  tm_sec : Z;
  tm_min : Z;
  tm_hour : Z;
  tm_mday : Z;
  tm_mon : Z;
  tm_year : Z
}.

(** [struct nmea]. [cbuf] has [NMEAMAX] entries and [locator] has
    [LOCMAX + 1]; [pos] indexes [cbuf]. *)
Record nmea := mk_nmea {
  cbuf : list Z;
  tm : struct_tm;
  status : Z;
  latitude : float;
  longitude : float;
  altitude : float;
  speed : float;
  sync : Z;
  pos : nat;
  mode : Z;
  locator : list Z
}.

Definition set_cbuf (np : nmea) (v : list Z) : nmea :=
  mk_nmea v (tm np) (status np) (latitude np) (longitude np) (altitude np)
    (speed np) (sync np) (pos np) (mode np) (locator np).
Definition set_tm (np : nmea) (v : struct_tm) : nmea :=
  mk_nmea (cbuf np) v (status np) (latitude np) (longitude np) (altitude np)
    (speed np) (sync np) (pos np) (mode np) (locator np).
Definition set_status (np : nmea) (v : Z) : nmea :=
  mk_nmea (cbuf np) (tm np) v (latitude np) (longitude np) (altitude np)
    (speed np) (sync np) (pos np) (mode np) (locator np).
Definition set_latitude (np : nmea) (v : float) : nmea :=
  mk_nmea (cbuf np) (tm np) (status np) v (longitude np) (altitude np)
    (speed np) (sync np) (pos np) (mode np) (locator np).
Definition set_longitude (np : nmea) (v : float) : nmea :=
  mk_nmea (cbuf np) (tm np) (status np) (latitude np) v (altitude np)
    (speed np) (sync np) (pos np) (mode np) (locator np).
Definition set_altitude (np : nmea) (v : float) : nmea :=
  mk_nmea (cbuf np) (tm np) (status np) (latitude np) (longitude np) v
    (speed np) (sync np) (pos np) (mode np) (locator np).
Definition set_speed (np : nmea) (v : float) : nmea :=
  mk_nmea (cbuf np) (tm np) (status np) (latitude np) (longitude np)
    (altitude np) v (sync np) (pos np) (mode np) (locator np).
Definition set_sync (np : nmea) (v : Z) : nmea :=
  mk_nmea (cbuf np) (tm np) (status np) (latitude np) (longitude np)
    (altitude np) (speed np) v (pos np) (mode np) (locator np).
Definition set_pos (np : nmea) (v : nat) : nmea :=
  mk_nmea (cbuf np) (tm np) (status np) (latitude np) (longitude np)
    (altitude np) (speed np) (sync np) v (mode np) (locator np).
Definition set_mode (np : nmea) (v : Z) : nmea :=
  mk_nmea (cbuf np) (tm np) (status np) (latitude np) (longitude np)
    (altitude np) (speed np) (sync np) (pos np) v (locator np).
Definition set_locator (np : nmea) (v : list Z) : nmea :=
  mk_nmea (cbuf np) (tm np) (status np) (latitude np) (longitude np)
    (altitude np) (speed np) (sync np) (pos np) (mode np) v.

(** The position fix a client reads: everything but the receive buffer and
    the two fields that drive the collection of a sentence. *)
Record position_fix := mk_fix {
  fix_tm : struct_tm;
  fix_status : Z;
  fix_latitude : float;
  fix_longitude : float;
  fix_altitude : float;
  fix_speed : float;
  fix_mode : Z;
  fix_locator : list Z
}.

Definition fix_of (np : nmea) : position_fix :=
  mk_fix (tm np) (status np) (latitude np) (longitude np) (altitude np)
    (speed np) (mode np) (locator np).

(** An array store [a[i] = v]; outside the array it is undefined. *)
Definition store (a : list Z) (i : nat) (v : Z) : option (list Z) :=
  if (i <? length a)%nat then Some (<[i:=v]> a) else None.

(** *** Maidenhead locator *)

Definition locator_chars (latitude longitude : float) : list Z :=
  let lon := (longitude + 180)%float in
  let lat := (latitude + 90)%float in
  [ double_to_char (Z2double c_A + lon / 20)%float;
    double_to_char (Z2double c_A + lat / 10)%float;
    c_0 + Z.quot (Z.rem (double_to_int lon) 20) 2;
    c_0 + Z.rem (double_to_int lat) 10;
    double_to_char
      (Z2double c_A
       + (lon - Z2double (Z.quot (double_to_int lon) 2 * 2)) * 12)%float;
    double_to_char
      (Z2double c_A + (lat - Z2double (double_to_int lat)) * 24)%float;
    NUL ].

(** [nmea_locator]: the return value and the decoder afterwards.  The seven
    stores go to [locator[0] .. locator[6]]. *)
Definition nmea_locator (np : nmea) : Z * nmea :=
  if (180 <? longitude np)%float || (longitude np <? -180)%float
     || (90 <? latitude np)%float || (latitude np <? -90)%float
  then (-1, np)
  else
    let cs := locator_chars (latitude np) (longitude np) in
    (0, set_locator np (cs ++ drop (length cs) (locator np))).

(** *** Positions, dates and times *)

(** The three counting loops of [nmea_degrees]: while [*src] is not NUL and
    [cond n] holds, [acc = acc * 10 + ( *src++ - '0')] and [n++]. *)
Fixpoint degrees_loop (cond : nat -> bool) (src : list Z) (n : nat)
    (acc : float) : list Z * nat * float :=
  match src with
  | [] => ([], n, acc)
  | c :: src' =>
      if cond n then
        degrees_loop cond src' (S n) (acc * 10 + Z2double (c - c_0))%float
      else (src, n, acc)
  end.

(** [while ( *src == '0') ++src]. *)
Fixpoint skip_zeroes (src : list Z) : list Z :=
  match src with
  | c :: src' => if c =? c_0 then skip_zeroes src' else src
  | [] => []
  end.

(** [for (p = src, ppos = 0; *p; ppos++) if ( *p++ == '.') break]: [ppos]
    and what [p] points to afterwards. *)
Fixpoint find_point (p : list Z) (ppos : nat) : nat * list Z :=
  match p with
  | [] => (ppos, [])
  | c :: p' => if c =? c_dot then (ppos, p') else find_point p' (S ppos)
  end.

(** [nmea_degrees(dst, src, neg)] on the string [src] points to: the return
    value and [*dst] afterwards. *)
Definition nmea_degrees (dst : float) (src : list Z) (neg : Z) : Z * float :=
  let src := skip_zeroes src in
  let '(ppos, p) := find_point src 0 in
  match p with
  | [] => (-1, dst)
  | _ :: _ =>
      let '(src, n, deg) :=
        degrees_loop (fun n => (n + 2 <? ppos)%nat) src 0 0%float in
      let '(src, n, min) :=
        degrees_loop (fun n => (n <? ppos)%nat) src n 0%float in
      let src := tl src in
      let '(src, n, min) :=
        degrees_loop (fun n => (n <? ppos + 4)%nat) src n min in
      let deg := (deg + min / 600000)%float in
      (0, if neg =? 0 then deg else (- deg)%float)
  end.

Definition is_digit (c : Z) : bool := (c_0 <=? c) && (c <=? c_9).

(** The scanning loop of [nmea_date]: [n] after
    [for (n = 0, p = s; n < 6 && *p && *p >= '0' && *p <= '9'; n++, p++)],
    started with [fuel = 6 - n]. *)
Fixpoint date_loop (fuel : nat) (buf : list Z) (p : nat) : option nat :=
  match fuel with
  | O => Some O
  | S fuel' =>
      c ← buf !! p;
      if negb (c =? NUL) && is_digit c
      then n ← date_loop fuel' buf (S p); Some (S n)
      else Some O
  end.

Definition two_digits (a b : Z) : Z := (a - c_0) * 10 + (b - c_0).

(** [nmea_date(s, tm)]: the return value and [*tm] afterwards. *)
Definition nmea_date (buf : list Z) (s : nat) (t : struct_tm)
  : option (Z * struct_tm) :=
  n ← date_loop 6 buf s;
  if negb (n =? 6)%nat then Some (-1, t)
  else
    e ← buf !! (s + 6)%nat;
    if negb (e =? NUL) then Some (-1, t)
    else
      s0 ← buf !! s; s1 ← buf !! (s + 1)%nat; s2 ← buf !! (s + 2)%nat;
      s3 ← buf !! (s + 3)%nat; s4 ← buf !! (s + 4)%nat;
      s5 ← buf !! (s + 5)%nat;
      Some (0, mk_tm (tm_sec t) (tm_min t) (tm_hour t)
                 (two_digits s0 s1) (two_digits s2 s3)
                 (100 + two_digits s4 s5)).

(** [nmea_time(s, tm)]: the return value and [*tm] afterwards. *)
Definition nmea_time (buf : list Z) (s : nat) (t : struct_tm)
  : option (Z * struct_tm) :=
  s0 ← buf !! s; s1 ← buf !! (s + 1)%nat; s2 ← buf !! (s + 2)%nat;
  s3 ← buf !! (s + 3)%nat; s4 ← buf !! (s + 4)%nat; s5 ← buf !! (s + 5)%nat;
  Some (0, mk_tm (two_digits s4 s5) (two_digits s2 s3) (two_digits s0 s1)
             (tm_mday t) (tm_mon t) (tm_year t)).

(** *** Integers with three decimals *)

(** A result of [int64_t] arithmetic: outside the type the operation
    overflows, and its behaviour is not defined. *)
Definition int64 (z : Z) : option Z :=
  if (- 2 ^ 63 <=? z) && (z <=? 2 ^ 63 - 1) then Some z else None.

(** [*dst * 10 + (c - '0')]. *)
Definition atoi_digit (dst c : Z) : option Z :=
  m ← int64 (dst * 10); int64 (m + (c - c_0)).

(** The first loop of [nmea_atoi],
    [for (p = src; *p && *p != '.' && *p >= '0' && *p <= '9'; )]: what [p]
    points to afterwards, and [*dst]. *)
Fixpoint atoi_int (p : list Z) (dst : Z) : option (list Z * Z) :=
  match p with
  | [] => Some ([], dst)
  | c :: p' =>
      if negb (c =? c_dot) && is_digit c
      then d ← atoi_digit dst c; atoi_int p' d
      else Some (p, dst)
  end.

(** The second loop,
    [for (; *p && i > 0 && *p >= '0' && *p <= '9'; i--)]: [i] and [*dst]
    afterwards. *)
Fixpoint atoi_frac (i : nat) (p : list Z) (dst : Z) : option (nat * Z) :=
  match i, p with
  | S i', c :: p' =>
      if is_digit c then d ← atoi_digit dst c; atoi_frac i' p' d
      else Some (i, dst)
  | _, _ => Some (i, dst)
  end.

(** The third loop, [for (; i > 0; i--) *dst *= 10]. *)
Fixpoint atoi_pad (i : nat) (dst : Z) : option Z :=
  match i with
  | O => Some dst
  | S i' => d ← int64 (dst * 10); atoi_pad i' d
  end.

(** [nmea_atoi(dst, src)] on the string [src] points to: the return value
    and [*dst] afterwards. *)
Definition nmea_atoi (src : list Z) : option (Z * Z) :=
  '(p, dst) ← atoi_int src 0;
  match p with
  | c :: p' =>
      if c =? c_dot then
        '(i, dst) ← atoi_frac 3 p' dst;
        d ← atoi_pad i dst;
        Some (0, d)
      else Some (-1, dst)
  | [] => Some (-1, dst)
  end.

(** *** Scanning a sentence *)

(** The locals of [nmea_scan] its first loop works on: the buffer, the
    fields found so far (offsets into the buffer; [fldcnt] is the length),
    the running checksum, and [cs], set once the checksum separator is
    seen. *)
Record split := mk_split {
  sp_cbuf : list Z;
  sp_fld : list nat;
  sp_cksum : Z;
  sp_cs : option nat
}.

Inductive split_result :=
| SplitDone (s : split)          (* the loop ran to its end *)
| SplitReturn (buf : list Z).    (* too many fields: nmea_scan returns *)

(** [for (cs = NULL, n = 0; n < np->pos && cs == NULL; n++) switch ...],
    from [n] on with [fuel = np->pos - n]. *)
Fixpoint split_loop (fuel n : nat) (s : split) : option split_result :=
  match fuel with
  | O => Some (SplitDone s)
  | S fuel' =>
      match sp_cs s with
      | Some _ => Some (SplitDone s)
      | None =>
          c ← sp_cbuf s !! n;
          if c =? c_star then
            split_loop fuel' (S n)
              (mk_split (<[n:=NUL]> (sp_cbuf s)) (sp_fld s) (sp_cksum s)
                 (Some (S n)))
          else if c =? c_comma then
            if (length (sp_fld s) <? MAXFLDS)%nat then
              split_loop fuel' (S n)
                (mk_split (<[n:=NUL]> (sp_cbuf s)) (sp_fld s ++ [S n])
                   (Z.lxor (sp_cksum s) c) None)
            else Some (SplitReturn (sp_cbuf s))
          else
            split_loop fuel' (S n)
              (mk_split (sp_cbuf s) (sp_fld s) (Z.lxor (sp_cksum s) c) None)
      end
  end.

(** The field splitting of [nmea_scan]: [fld[0]] is the start of the
    buffer, then the loop. *)
Definition scan_split (np : nmea) : option split_result :=
  split_loop (pos np) 0 (mk_split (cbuf np) [0%nat] 0 None).

Definition is_hex (c : Z) : bool :=
  ((c_0 <=? c) && (c <=? c_9)) || ((c_A <=? c) && (c <=? c_F)).

(** [a << 4] and [a + b] on an [int].  A result that does not fit (and,
    for the shift, a negative [a]) is not defined: [None]. *)
Definition int_shl4 (a : Z) : option Z :=
  if (0 <=? a) && (a * 16 <=? INT_MAX) then Some (a * 16) else None.

Definition int_add (a b : Z) : option Z :=
  if (INT_MIN <=? a + b) && (a + b <=? INT_MAX) then Some (a + b) else None.

(** One round of the [while ( *cs)] loop on a hexadecimal digit [c]. *)
Definition hex_step (msgcksum c : Z) : option Z :=
  m ← (if msgcksum =? 0 then Some msgcksum else int_shl4 msgcksum);
  if (c_0 <=? c) && (c <=? c_9) then int_add m (c - c_0)
  else if (c_A <=? c) && (c <=? c_F) then int_add m (10 + c - c_A)
  else Some m.

(** The [while ( *cs)] loop over what [cs] points to: [Some (Some m)] with
    the checksum read, [Some None] at a character that is no upper-case
    hexadecimal digit (nmea_scan returns), [None] if the buffer ends first
    or [msgcksum] overflows. *)
Fixpoint msgcksum_loop (cs : list Z) (msgcksum : Z) : option (option Z) :=
  match cs with
  | [] => None
  | c :: cs' =>
      if c =? NUL then Some (Some msgcksum)
      else if is_hex c then
        m ← hex_step msgcksum c; msgcksum_loop cs' m
      else Some None
  end.

Section Decoder.

(** [atof] of the C library, on the string its argument points to. *)
Variable atof : list Z -> float.

(** [nmea_gprmc(np, fld, fldcnt)], [fldcnt] being the length of [fld]: an
    entry of [fld] beyond it was never assigned. *)
Definition nmea_gprmc (np : nmea) (fld : list nat) : option nmea :=
  let fldcnt := length fld in
  if (fldcnt <? 12)%nat || (14 <? fldcnt)%nat then Some np
  else
    f1 ← fld !! 1%nat;
    '(rc, t) ← nmea_time (cbuf np) f1 (tm np);
    let np := set_tm np t in
    if negb (rc =? 0) then Some np
    else
      f9 ← fld !! 9%nat;
      '(rc, t) ← nmea_date (cbuf np) f9 (tm np);
      let np := set_tm np t in
      if negb (rc =? 0) then Some np
      else
        f12 ← fld !! 12%nat;
        m ← cbuf np !! f12;
        let np := if negb (m =? mode np) then set_mode np m else np in
        f2 ← fld !! 2%nat;
        st ← cbuf np !! f2;
        let np :=
          if (st =? c_A) || (st =? c_D) then set_status np 1
          else if st =? c_V then set_status np 0
          else np in
        f3 ← fld !! 3%nat; f4 ← fld !! 4%nat;
        h ← cbuf np !! f4;
        s3 ← cstring (cbuf np) f3;
        let np :=
          set_latitude np
            (snd (nmea_degrees (latitude np) s3 (if h =? c_S then 1 else 0)))
        in
        f5 ← fld !! 5%nat; f6 ← fld !! 6%nat;
        h ← cbuf np !! f6;
        s5 ← cstring (cbuf np) f5;
        let np :=
          set_longitude np
            (snd (nmea_degrees (longitude np) s5 (if h =? c_W then 1 else 0)))
        in
        f7 ← fld !! 7%nat;
        s7 ← cstring (cbuf np) f7;
        Some (set_speed np (atof s7 * KNOTTOMS)%float).

(** [nmea_decode_gga(np, fld, fldcnt)]. *)
Definition nmea_decode_gga (np : nmea) (fld : list nat) : option nmea :=
  if negb (length fld =? 15)%nat then Some np
  else
    f9 ← fld !! 9%nat;
    s9 ← cstring (cbuf np) f9;
    Some (set_altitude np (atof s9)).

Definition known_talker (buf : list Z) (f0 : nat) : option bool :=
  bd ← strncmp buf f0 (str "BD") 2;
  ga ← strncmp buf f0 (str "GA") 2;
  gl ← strncmp buf f0 (str "GL") 2;
  gn ← strncmp buf f0 (str "GN") 2;
  gp ← strncmp buf f0 (str "GP") 2;
  Some ((bd =? 0) || (ga =? 0) || (gl =? 0) || (gn =? 0) || (gp =? 0)).

(** What [nmea_scan] does once the talker and the sentence type are
    accepted and the checksum, if any, has matched. *)
Definition scan_decode (np : nmea) (fld : list nat) (f0 : nat)
  : option nmea :=
  rmc ← strncmp (cbuf np) (f0 + 2) (str "RMC") 3;
  np ← (if rmc =? 0 then nmea_gprmc np fld else Some np);
  gga ← strncmp (cbuf np) (f0 + 2) (str "GGA") 3;
  np ← (if gga =? 0 then nmea_decode_gga np fld else Some np);
  Some (snd (nmea_locator np)).

(** [nmea_scan(np)].  What [verbose] prints is left out. *)
Definition nmea_scan (np : nmea) : option nmea :=
  r ← scan_split np;
  match r with
  | SplitReturn buf => Some (set_cbuf np buf)
  | SplitDone s =>
      let np := set_cbuf np (sp_cbuf s) in
      let fld := sp_fld s in
      f0 ← fld !! 0%nat;
      known ← known_talker (cbuf np) f0;
      if negb known then Some np
      else
        rmc ← strncmp (cbuf np) (f0 + 2) (str "RMC") 3;
        gga ← strncmp (cbuf np) (f0 + 2) (str "GGA") 3;
        if negb (rmc =? 0) && negb (gga =? 0) then Some np
        else
          match sp_cs s with
          | Some cs =>
              m ← msgcksum_loop (drop cs (cbuf np)) 0;
              match m with
              | None => Some np
              | Some msgcksum =>
                  if negb (msgcksum =? sp_cksum s) then Some np
                  else scan_decode np fld f0
              end
          | None => scan_decode np fld f0
          end
  end.

(** [nmea_input(c, np)]: [c] is the [char] read from the device, as an
    [int]. *)
Definition nmea_input (c : Z) (np : nmea) : option nmea :=
  if c =? c_dollar then Some (set_sync (set_pos np 0) 0)
  else if (c =? c_cr) || (c =? c_lf) then
    if sync np =? 0 then
      buf ← store (cbuf np) (pos np) NUL;
      np ← nmea_scan (set_cbuf np buf);
      Some (set_sync np 1)
    else Some np
  else
    if (sync np =? 0) && (pos np <? NMEAMAX - 1)%nat then
      buf ← store (cbuf np) (pos np) c;
      Some (set_pos (set_cbuf np buf) (S (pos np)))
    else Some np.

(** Feeding the bytes of [data] to the decoder, one [nmea_input] each, as
    the loop of [nmea_handler] does with what it reads. *)
Fixpoint nmea_feed (data : list Z) (np : nmea) : option nmea :=
  match data with
  | [] => Some np
  | c :: data' => np ← nmea_input c np; nmea_feed data' np
  end.

End Decoder.

(** The decoder as [nmea_handler] sets it up: what [malloc] returned, with
    the coordinates, speed and altitude zeroed, the locator emptied and the
    decoder waiting for a start marker. *)
Definition nmea_start (fresh : nmea) : nmea :=
  mk_nmea (cbuf fresh) (tm fresh) (status fresh) 0%float 0%float 0%float
    0%float 1 (pos fresh) (mode fresh) (<[0%nat:=NUL]> (locator fresh)).

End Nmea.

(** * The websocket listener *)

Module Websocket.

Definition BUFSIZE : Z := 65535.
Definition MAXLISTEN : nat := 16.

Definition crlf : string := String "013" (String "010" EmptyString).

Definition line (s : string) : string := (s ++ crlf)%string.

(** What the listener does to the outside, in the order it does it.  What
    it prints to standard output is left out, and of a [syslog] entry only
    the name of the call it reports is kept. *)
Inductive event :=
| EvSyslog (call : string)
| EvExit (code : Z)
| EvClose (fd : Z)
| EvSelect (fds : list Z)          (* select on these descriptors *)
| EvAccept (lfd fd : Z)            (* accept on lfd returned fd *)
| EvSend (fd : Z) (data : string)
| EvSSLWrite (ssl : Z) (data : string)
| EvPthreadCreate (fd : Z)         (* websocket_handler started for fd *)
| EvCloselog.

(** [websocket_t]: the socket and the TLS session, if there is one. *)
Record websocket_t := mk_websocket { socket : Z; ssl : option Z }.

(** [websocket_listener_t]. *)
Record websocket_listener_t := mk_listener {
  bind_addr : string;
  listen_port : string;
  handshake : string
}.

(** The values of [enum wsFrameType] (websocket.h) the listener tells
    apart: an opening frame, and anything else. *)
Inductive wsFrameType := WS_OPENING_FRAME | WS_OTHER_FRAME.

(** [struct handshake] (websocket.h): the resource the request names and
    the key it carries. *)
Record struct_handshake := mk_handshake {
  hs_resource : string;
  hs_key : string
}.

(** What [SSL_read] or [recv] delivers of the request. *)
Inductive recv_result :=
| RecvError                 (* the call returned -1 *)
| RecvData (buf : string).

Definition not_found : string :=
  (line "HTTP/1.1 404 Not Found" ++ crlf)%string.

(** A reply on the refusing paths: over TLS when the connection has it. *)
Definition reply (w : websocket_t) (data : string) : event :=
  match ssl w with
  | Some s => EvSSLWrite s data
  | None => EvSend (socket w) data
  end.

Section Listener.

(** The two functions of websocket.c and the two strings of websocket.h the
    listener uses; the file is not among the sources.
    [wsParseHandshake] gives the frame type it returns and the handshake it
    fills in, [wsGetHandshakeAnswer] the answer it writes to the buffer. *)
Variable wsParseHandshake : string -> wsFrameType * struct_handshake.
Variable wsGetHandshakeAnswer : struct_handshake -> string.
Variable versionField : string.
Variable version : string.

(** [log_connections] of trxd. *)
Variable log_connections : Z.

Definition bad_request : string :=
  (line "HTTP/1.1 400 Bad Request" ++ line (versionField ++ version)
   ++ crlf)%string.

(** [websocket_handshake(websock, handshake)], given what the read of the
    request delivers: the events and the return value.  [buf[nread] = 0]
    stays inside the buffer only for a read of less than [BUFSIZE] bytes,
    and no read that failed is looked for: for those the result is not
    defined. *)
Definition websocket_handshake (websock : websocket_t) (handshake : string)
    (r : recv_result) : option (list event * Z) :=
  match r with
  | RecvError => None
  | RecvData buf =>
      if Z.of_nat (String.length buf) <? BUFSIZE then
        let '(frame, hs) := wsParseHandshake buf in
        match frame with
        | WS_OPENING_FRAME =>
            if String.eqb (hs_resource hs) handshake then
              Some ([EvSend (socket websock) (wsGetHandshakeAnswer hs)], 0)
            else Some ([reply websock not_found], -1)
        | WS_OTHER_FRAME => Some ([reply websock bad_request], -1)
        end
      else None
  end.

(** One address [getaddrinfo] resolved, with what the five calls of the
    setup loop return for it. *)
Record candidate := mk_candidate {
  c_socket : Z;
  c_fcntl : Z;
  c_setsockopt : Z;
  c_bind : Z;
  c_listen : Z
}.

Inductive gai_result :=
| GaiError
| GaiOk (res0 : list candidate).

(** The setup loop
    [for (res = res0; res != NULL && i < MAXLISTEN; res = res->ai_next)]:
    the events, [listen_fd] and [i] at its end. *)
Fixpoint listen_setup (res : list candidate) (listen_fd : list Z) (i : nat)
  : list event * list Z * nat :=
  match res with
  | [] => ([], listen_fd, i)
  | c :: res' =>
      if (i <? MAXLISTEN)%nat then
        let listen_fd := <[i:=c_socket c]> listen_fd in
        let skip (call : string) :=
          let '(tr, fds, n) := listen_setup res' listen_fd i in
          (EvSyslog call :: EvClose (c_socket c) :: tr, fds, n) in
        if c_socket c <? 0 then listen_setup res' listen_fd i
        else if negb (c_fcntl c =? 0) then skip "fcntl"%string
        else if negb (c_setsockopt c =? 0) then skip "setsockopt"%string
        else if negb (c_bind c =? 0) then skip "bind"%string
        else if negb (c_listen c =? 0) then skip "listen"%string
        else listen_setup res' listen_fd (S i)
      else ([], listen_fd, i)
  end.

(** A connection waiting on a listening socket: what [accept] and
    [getnameinfo] return and what the first read delivers. *)
Record connection := mk_connection {
  conn_fd : Z;
  conn_nameinfo : Z;
  conn_recv : recv_result
}.

(** One turn of the [while (1)] loop as the environment answers it: the
    return value of [select], whether [errno] is [EINTR], the descriptors
    [FD_ISSET] reports, and the connection [accept] finds on each. *)
Record round := mk_round {
  sel_result : Z;
  sel_eintr : bool;
  sel_ready : list Z;
  sel_accept : Z -> connection
}.

Definition fd_isset (fd : Z) (ready : list Z) : bool :=
  existsb (Z.eqb fd) ready.

(** The body of the accepting loop for a readable listening socket [lfd],
    from [accept] on: the events, and whether the loop goes on ([false]
    after the [break] of a failed [accept]). *)
Definition accept_one (t : websocket_listener_t) (lfd : Z) (c : connection)
  : option (list event * bool) :=
  if conn_fd c <? 0 then
    Some ([EvAccept lfd (conn_fd c); EvSyslog "accept"%string], false)
  else
    let name := if negb (conn_nameinfo c =? 0)
                then [EvSyslog "getnameinfo"%string] else [] in
    let log := if negb (log_connections =? 0)
               then [EvSyslog "websocket connection"%string] else [] in
    '(tr, rv) ← websocket_handshake (mk_websocket (conn_fd c) None)
                  (handshake t) (conn_recv c);
    let spawn := if rv =? 0 then [EvPthreadCreate (conn_fd c)] else [] in
    Some (EvAccept lfd (conn_fd c) :: name ++ log ++ tr ++ spawn, true).

(** [for (i = 0; i < MAXLISTEN; ++i)] over the entries of [listen_fd]. *)
Fixpoint accept_loop (t : websocket_listener_t) (listen_fd : list Z)
    (rd : round) : option (list event) :=
  match listen_fd with
  | [] => Some []
  | lfd :: rest =>
      if (lfd =? -1) || negb (fd_isset lfd (sel_ready rd))
      then accept_loop t rest rd
      else
        '(tr, go_on) ← accept_one t lfd (sel_accept rd lfd);
        if (go_on : bool)
        then (tr' ← accept_loop t rest rd; Some (tr ++ tr'))
        else Some tr
  end.

(** How far the listener got. *)
Inductive progress :=
| Exited (code : Z)       (* exit was called *)
| Returned (value : Z)    (* the thread function returned *)
| Polling.                (* still in the while (1) loop *)

(** The [while (1)] loop, one turn for each round the environment
    answers. *)
Fixpoint listener_loop (t : websocket_listener_t) (listen_fd : list Z)
    (rounds : list round) : option (list event * progress) :=
  match rounds with
  | [] => Some ([], Polling)
  | rd :: rounds' =>
      let sel := EvSelect (filter (fun fd => fd <> -1) listen_fd) in
      let go_on (tr : list event) :=
        '(tr', p) ← listener_loop t listen_fd rounds';
        Some (sel :: tr ++ tr', p) in
      if (sel_result rd <? 0) && negb (sel_eintr rd) then
        Some ([sel; EvSyslog "select"%string; EvCloselog], Returned 0)
      else if sel_result rd =? 0 then go_on []
      else tr ← accept_loop t listen_fd rd; go_on tr
  end.

(** [websocket_listener(arg)], given what [getaddrinfo] resolves and the
    rounds of the loop. *)
Definition websocket_listener (t : websocket_listener_t) (gai : gai_result)
    (rounds : list round) : option (list event * progress) :=
  match gai with
  | GaiError => Some ([EvSyslog "getaddrinfo"%string; EvExit 1], Exited 1)
  | GaiOk res0 =>
      let '(tr, listen_fd, _) :=
        listen_setup res0 (repeat (-1) MAXLISTEN) 0 in
      '(tr', p) ← listener_loop t listen_fd rounds;
      Some (tr ++ tr', p)
  end.

End Listener.

End Websocket.

(** * The controller thread *)

Module TrxControl.

(** [PATH_MAX] of limits.h on Linux. *)
Definition PATH_MAX : nat := 4096.

(** What the thread does to the outside.  [EvLuaCall] is a call of a
    function held by the table a driver file returns, such as its
    [initialize]. *)
Inductive event :=
| EvSyslog (msg : string)
| EvPrintf (msg : string)
| EvOpen (path : string)
| EvTcsetattr (fd : Z)             (* raw mode with CLOCAL *)
| EvLuaNewstate
| EvLuaOpenlibs
| EvLuaPreload (name : string)     (* package.preload[name] = luaopen_trx *)
| EvStat (path : string)
| EvLuaDofile (path : string)
| EvLuaCall (field : string)
| EvLuaClose
| EvSleep (seconds : Z).

(** The fields of [controller_t] the thread reads. *)
Record controller_t := mk_controller {
  device : string;
  trx_type : string
}.

(** The answers of the system and of Lua. *)
Record world := mk_world {
  w_open : string -> Z;          (* open: a descriptor or -1 *)
  w_isatty : Z -> bool;
  w_tcgetattr : Z -> Z;
  w_tcsetattr : Z -> Z;
  w_newstate : bool;             (* luaL_newstate gave a state *)
  w_stat : string -> Z;          (* stat: 0 or -1 *)
  w_dofile : string -> Z         (* luaL_dofile: 0 or an error status *)
}.

(** [strchr(s, c) != NULL]. *)
Fixpoint strchr (s : string) (c : ascii) : bool :=
  match s with
  | EmptyString => false
  | String a s' => if Ascii.eqb a c then true else strchr s' c
  end.

Section Controller.

(** The two paths of pathnames.h, which is not among the sources. *)
Variable PATH_TRX : string.
Variable PATH_INIT : string.

(** [snprintf(trx_driver, sizeof(trx_driver), "%s/%s.lua", PATH_TRX,
    controller.trx_type)]. *)
Definition trx_driver (trx_type : string) : string :=
  substring 0 (PATH_MAX - 1) (PATH_TRX ++ "/" ++ trx_type ++ ".lua")%string.

(** The terminal setup for a device that is a terminal. *)
Definition tty_setup (w : world) (fd : Z) : list event :=
  if w_isatty w fd then
    if w_tcgetattr w fd <? 0
    then [EvSyslog "Can't get CAT device tty attributes"%string]
    else
      EvTcsetattr fd ::
      (if w_tcsetattr w fd <? 0
       then [EvSyslog "Can't set CAT device tty attributes"%string]
       else [])
  else [].

(** [trx_control(arg)]: the events and [trx_control_running] when the
    thread returns.  The flag is set on entry and cleared before every
    [return]; the thread's return value is [NULL] on every path. *)
Definition trx_control (controller : controller_t) (w : world)
  : list event * Z :=
  if strchr (trx_type controller) "/" then
    ([EvSyslog "trx-type must not contain slashes"%string], 0)
  else
    let fd := w_open w (device controller) in
    if fd =? -1 then
      ([EvOpen (device controller);
        EvSyslog "Can't open CAT device"%string], 0)
    else
      let tty := EvOpen (device controller) :: tty_setup w fd in
      if negb (w_newstate w) then
        (tty ++ [EvLuaNewstate;
                 EvSyslog "cannot initialize Lua state"%string], 0)
      else
        let lua := tty ++ [EvLuaNewstate; EvLuaOpenlibs;
                           EvLuaPreload "trx"%string] in
        let driver := trx_driver (trx_type controller) in
        if negb (w_stat w driver =? 0) then
          (lua ++ [EvStat driver;
                   EvSyslog "driver for trx-type not found"%string;
                   EvLuaClose], 0)
        else if negb (w_dofile w driver =? 0) then
          (lua ++ [EvStat driver; EvLuaDofile driver;
                   EvSyslog "Lua error"%string; EvLuaClose], 0)
        else
          let loaded := lua ++ [EvStat driver; EvLuaDofile driver;
                                EvStat PATH_INIT] in
          let run := [EvPrintf "trx_control started"%string; EvSleep 10;
                      EvPrintf "trx_control terminates"%string;
                      EvLuaClose] in
          if w_stat w PATH_INIT =? 0 then
            if negb (w_dofile w PATH_INIT =? 0) then
              (loaded ++ [EvLuaDofile PATH_INIT;
                          EvSyslog "Lua error"%string; EvLuaClose], 0)
            else (loaded ++ EvLuaDofile PATH_INIT :: run, 0)
          else (loaded ++ run, 0).

End Controller.

End TrxControl.

(** * The OpenRTX RTXLink driver *)

(** The driver is a Lua script.  A Lua string is a string of bytes, here a
    list of numbers from 0 to 255; a frequency is a Lua integer, 64 bits
    wide.  The script needs Lua 5.3 or later (it divides with [//]), where
    [string.format] with a bare [%s] copies the whole string, zero bytes
    included. *)

Module RtxLink.

(** [s:gsub(pat, repl)] for a pattern that is one byte without special
    meaning and a replacement without [%]: every occurrence is replaced. *)
Definition gsub (s : list Z) (pat : Z) (repl : list Z) : list Z :=
  flat_map (fun c => if c =? pat then repl else [c]) s.

(** [slipWrite(s)]: what it hands to [trx.write]. *)
Definition slipWrite (s : list Z) : list Z :=
  [0xC0] ++ gsub (gsub s 0xC0 [0xC0; 0xDC]) 0xDB [0xDB; 0xDD] ++ [0xC0].

(** [string.char(...)]: an error ([None]) for a value that is no byte. *)
Definition string_char (l : list Z) : option (list Z) :=
  if forallb (fun b => (0 <=? b) && (b <=? 255)) l then Some l else None.

(** Integer arithmetic of Lua: floor division, and the results wrapped to
    64 bits. *)
Definition idiv (a b : Z) : Z := wrap64 (a / b).
Definition isub (a b : Z) : Z := wrap64 (a - b).
Definition imul (a b : Z) : Z := wrap64 (a * b).
Definition iadd (a b : Z) : Z := wrap64 (a + b).

Section Driver.

(** [trx.crc16] of the C module the daemon preloads as [trx]; the module is
    not among the sources. *)
Variable crc16 : list Z -> list Z.

(** [setFrequency(driver, frequency)] for an integer [frequency]: what is
    written to the device and the value returned, [None] for a Lua error
    (the only one is raised by [string.char], before anything is written).
    What is printed is left out, and the acknowledgement read afterwards is
    not looked at. *)
Definition setFrequency (frequency : Z) : option (list Z * Z) :=
  let freq := frequency in
  let byte4 := idiv freq 16777216 in
  let freq := isub freq (imul byte4 16777216) in
  let byte3 := idiv freq 65536 in
  let freq := isub freq (imul byte3 65536) in
  let byte2 := idiv freq 256 in
  let freq := isub freq (imul byte2 256) in
  let byte1 := freq in
  bytes ← string_char [byte1; byte2; byte3; byte4];
  let payload := [1] ++ str "SRF" ++ bytes in
  Some (slipWrite (payload ++ crc16 payload), frequency).

(** [getFrequency(driver)], given the bytes [trx.read] returns: what is
    written to the device and the frequency returned (the mode returned
    with it is always M17).  [resp:byte(i)] of a string shorter than [i] is
    no value, and arithmetic on it an error ([None]), raised after the
    request was written. *)
Definition getFrequency (resp : list Z) : option (list Z * Z) :=
  let payload := [1] ++ str "GRF" in
  let written := slipWrite (payload ++ crc16 payload) in
  b7 ← resp !! 6%nat; b6 ← resp !! 5%nat;
  b5 ← resp !! 4%nat; b4 ← resp !! 3%nat;
  Some (written,
        iadd (iadd (iadd (imul b7 16777216) (imul b6 65536)) (imul b5 256))
          b4).

End Driver.

End RtxLink.

(** * Properties of the NMEA decoder *)

Module NmeaFacts.
Import Nmea.

(** ** The running checksum *)

(** The sentence body: the characters in front of the checksum separator,
    all of them when there is none. *)
Fixpoint before_star (l : list Z) : list Z :=
  match l with
  | [] => []
  | c :: l' => if c =? c_star then [] else c :: before_star l'
  end.

(** What follows the checksum separator, if there is one. *)
Fixpoint after_star (l : list Z) : option (list Z) :=
  match l with
  | [] => None
  | c :: l' => if c =? c_star then Some l' else after_star l'
  end.

Fixpoint separators (l : list Z) : nat :=
  match l with
  | [] => O
  | c :: l' => if c =? c_comma then S (separators l') else separators l'
  end.

Definition xor_all (l : list Z) : Z := fold_left Z.lxor l 0.

(** The exclusive-or of the characters that are not field separators. *)
Definition xor_without_separators (l : list Z) : Z :=
  xor_all (filter (fun c => c <> c_comma) l).

(** What the decoder has collected when a terminator arrives. *)
Definition sentence (np : nmea) : list Z := take (pos np) (cbuf np).

Lemma split_loop_stops fuel n s cs :
  sp_cs s = Some cs -> split_loop fuel n s = Some (SplitDone s).
Proof. intros H. destruct fuel; simpl; [reflexivity | now rewrite H]. Qed.

(** What the splitting loop leaves behind, for the part [rest] of the buffer
    it still has to read: it gives up only with more than [MAXFLDS] fields;
    otherwise the checksum has taken in every character in front of the
    checksum separator, and [cs] points to what follows the separator, which
    the loop has not touched. *)
Lemma split_loop_spec fuel : forall n s,
  sp_cs s = None ->
  (n + fuel <= length (sp_cbuf s))%nat ->
  exists r,
    split_loop fuel n s = Some r /\
    match r with
    | SplitReturn buf =>
        length buf = length (sp_cbuf s) /\
        (MAXFLDS < length (sp_fld s)
           + separators (before_star (take fuel (drop n (sp_cbuf s)))))%nat
    | SplitDone s' =>
        length (sp_cbuf s') = length (sp_cbuf s) /\
        (exists extra, sp_fld s' = sp_fld s ++ extra) /\
        sp_cksum s' =
          fold_left Z.lxor (before_star (take fuel (drop n (sp_cbuf s))))
            (sp_cksum s) /\
        match after_star (take fuel (drop n (sp_cbuf s))) with
        | Some decl =>
            exists k,
              sp_cs s' = Some k /\
              drop k (sp_cbuf s') = decl ++ drop (n + fuel) (sp_cbuf s)
        | None => sp_cs s' = None
        end
    end.
Proof.
  induction fuel as [|fuel IH]; intros n s Hcs Hlen.
  - exists (SplitDone s). rewrite take_0. simpl.
    repeat split; try reflexivity; try assumption.
    exists []. symmetry. apply app_nil_r.
  - destruct (lookup_lt_is_Some_2 (sp_cbuf s) n) as [c Hc]; [lia|].
    rewrite (drop_S _ _ _ Hc). simpl. rewrite Hcs, Hc. simpl.
    destruct (c =? c_star) eqn:Hstar.
    + eexists. split; [eapply split_loop_stops; reflexivity|]. simpl.
      rewrite length_insert. repeat split.
      * exists []. symmetry. apply app_nil_r.
      * exists (S n). split; [reflexivity|].
        rewrite drop_insert_lt by lia.
        rewrite <- (take_drop fuel (drop (S n) (sp_cbuf s))) at 1.
        rewrite drop_drop. do 2 f_equal. lia.
    + destruct (c =? c_comma) eqn:Hcomma.
      * destruct (length (sp_fld s) <? MAXFLDS)%nat eqn:Hlt.
        -- destruct (IH (S n)
                       (mk_split (<[n:=NUL]> (sp_cbuf s)) (sp_fld s ++ [S n])
                          (Z.lxor (sp_cksum s) c) None)) as (r & Hr & Hspec).
           ++ reflexivity.
           ++ simpl. rewrite length_insert. lia.
           ++ exists r. split; [exact Hr|]. simpl in Hspec.
              rewrite length_insert, drop_insert_lt in Hspec by lia.
              rewrite drop_insert_lt in Hspec by lia.
              replace (n + S fuel)%nat with (S n + fuel)%nat by lia.
              destruct r as [s'|buf]; simpl; rewrite ?Hcomma; simpl.
              ** destruct Hspec as (Hl & [extra Hf] & Hx & Hs).
                 repeat split; try assumption.
                 exists (S n :: extra). rewrite Hf, <- app_assoc. reflexivity.
              ** rewrite length_app in Hspec. simpl in Hspec.
                 destruct Hspec as [Hl Hm]. split; [exact Hl | lia].
        -- exists (SplitReturn (sp_cbuf s)). split; [reflexivity|]. simpl.
           rewrite Hcomma. simpl.
           apply Nat.ltb_ge in Hlt. split; [reflexivity | lia].
      * destruct (IH (S n)
                    (mk_split (sp_cbuf s) (sp_fld s)
                       (Z.lxor (sp_cksum s) c) None)) as (r & Hr & Hspec).
        -- reflexivity.
        -- simpl. lia.
        -- exists r. split; [exact Hr|]. simpl in Hspec.
           replace (n + S fuel)%nat with (S n + fuel)%nat by lia.
           destruct r; simpl; rewrite ?Hcomma; exact Hspec.
Qed.

(** C4, as amended: when the field splitting of a sentence runs to its end
    (the body holds fewer than MAXFLDS field separators), the running
    checksum is the exclusive-or of every character in front of the checksum
    separator, the field separators included. *)
Theorem scan_split_cksum_xor_all (np : nmea) :
  (pos np <= length (cbuf np))%nat ->
  (separators (before_star (sentence np)) < MAXFLDS)%nat ->
  exists s,
    scan_split np = Some (SplitDone s) /\
    sp_cksum s = xor_all (before_star (sentence np)).
Proof.
  intros Hpos Hsep. unfold scan_split, sentence in *.
  destruct (split_loop_spec (pos np) 0
              (mk_split (cbuf np) [0%nat] 0 None)) as (r & Hr & Hspec).
  - reflexivity.
  - simpl. lia.
  - simpl in Hspec. rewrite drop_0 in Hspec.
    destruct r as [s|buf].
    + exists s. split; [exact Hr|]. apply Hspec.
    + destruct Hspec as [_ Hm]. lia.
Qed.

(** A decoder that has collected the characters of [s]. *)
Definition collected (s : string) : nmea :=
  mk_nmea (str s ++ repeat NUL (NMEAMAX - length (str s)))
    (mk_tm 0 0 0 0 0 0) 0 0%float 0%float 0%float 0%float 0
    (length (str s)) 0 (repeat NUL (S LOCMAX)).

Lemma scan_split_cksum_xor_all_witness :
  exists s,
    scan_split (collected "GPRMC,A") = Some (SplitDone s) /\
    sp_cksum s = xor_all (before_star (sentence (collected "GPRMC,A"))).
Proof.
  apply (scan_split_cksum_xor_all (collected "GPRMC,A")).
  - vm_compute. lia.
  - vm_compute. lia.
Defined.

(** C4, as stated, fails: for the body [GPRMC,A] the running checksum is
    38 (0x26), the separator included, and not the 10 (0x0A) of the six
    letters. *)
Lemma scan_split_cksum_counts_separators :
  exists s,
    scan_split (collected "GPRMC,A") = Some (SplitDone s) /\
    sp_cksum s <>
      xor_without_separators (before_star (sentence (collected "GPRMC,A"))).
Proof.
  eexists. split; [vm_compute; reflexivity|].
  vm_compute. intros H. discriminate H.
Qed.

(** ** Checksum verification *)

(** The value of one upper-case hexadecimal digit. *)
Definition hex_digit (c : Z) : Z :=
  if c <=? c_9 then c - c_0 else 10 + c - c_A.

(** The hexadecimal number the digits of [ds] spell, after [acc]. *)
Definition hex_from (acc : Z) (ds : list Z) : Z :=
  fold_left (fun a c => 16 * a + hex_digit c) ds acc.

Definition hex_number (ds : list Z) : Z := hex_from 0 ds.

(** The upper-case hexadecimal digits a field begins with. *)
Fixpoint hex_run (l : list Z) : list Z :=
  match l with
  | c :: l' => if is_hex c then c :: hex_run l' else []
  | [] => []
  end.

(** The declared checksum in the specification's words, not the loop of
    [nmea_scan]: the hexadecimal number the field [decl] behind the
    checksum separator spells, when it consists of upper-case hexadecimal
    digits up to its end or up to a NUL byte; none when it holds any other
    character.  [msgcksum_loop_reads] below relates the two. *)
Definition declared_checksum (decl : list Z) : option Z :=
  match drop (length (hex_run decl)) decl with
  | [] => Some (hex_number (hex_run decl))
  | c :: _ => if c =? NUL then Some (hex_number (hex_run decl)) else None
  end.

(** The number the leading digits of the field spell fits an [int]. *)
Definition checksum_fits (decl : list Z) : Prop :=
  hex_number (hex_run decl) <= INT_MAX.

Lemma is_hex_cases c :
  is_hex c = true ->
  c = 48 \/ c = 49 \/ c = 50 \/ c = 51 \/ c = 52 \/ c = 53 \/ c = 54 \/
  c = 55 \/ c = 56 \/ c = 57 \/ c = 65 \/ c = 66 \/ c = 67 \/ c = 68 \/
  c = 69 \/ c = 70.
Proof.
  unfold is_hex, c_0, c_9, c_A, c_F. intros H.
  apply orb_true_iff in H. rewrite !andb_true_iff, !Z.leb_le in H. lia.
Qed.

(** For the two digits of an NMEA checksum, what is declared is their
    hexadecimal value. *)
Lemma declared_checksum_two_digits a b :
  is_hex a = true -> is_hex b = true ->
  declared_checksum [a; b] = Some (16 * hex_digit a + hex_digit b).
Proof.
  intros Ha Hb. unfold declared_checksum. simpl. rewrite Ha, Hb. simpl.
  unfold hex_number, hex_from. simpl. f_equal; lia.
Qed.

Lemma hex_digit_range c : is_hex c = true -> 0 <= hex_digit c <= 15.
Proof.
  intros H. apply is_hex_cases in H. unfold hex_digit, c_0, c_9, c_A.
  repeat (destruct H as [-> | H]); try subst c; simpl; lia.
Qed.

Lemma hex_run_digits l : Forall (fun c => is_hex c = true) (hex_run l).
Proof.
  induction l as [|c l IH]; simpl; [constructor|].
  destruct (is_hex c) eqn:E; constructor; assumption.
Qed.

Lemma hex_from_ge ds : forall acc,
  Forall (fun c => is_hex c = true) ds -> 0 <= acc -> acc <= hex_from acc ds.
Proof.
  induction ds as [|c ds IH]; intros acc Hds Hacc; [simpl; lia|].
  inversion Hds as [|? ? Hc Hds']; subst.
  apply hex_digit_range in Hc.
  change (hex_from acc (c :: ds)) with (hex_from (16 * acc + hex_digit c) ds).
  specialize (IH (16 * acc + hex_digit c) Hds' ltac:(lia)). lia.
Qed.

(** One round of the loop on a digit, as long as the number fits. *)
Lemma hex_step_digit acc c :
  is_hex c = true -> 0 <= acc -> 16 * acc + hex_digit c <= INT_MAX ->
  hex_step acc c = Some (16 * acc + hex_digit c).
Proof.
  intros Hc Hacc Hfit. pose proof (hex_digit_range c Hc) as Hd.
  unfold hex_step, int_shl4, int_add, INT_MIN, INT_MAX in *.
  apply is_hex_cases in Hc. unfold hex_digit, c_0, c_9, c_A, c_F in *.
  destruct (acc =? 0) eqn:E0.
  - apply Z.eqb_eq in E0. subst acc. cbn [mbind option_bind].
    repeat (destruct Hc as [-> | Hc]); try subst c; simpl in *;
      reflexivity.
  - replace ((0 <=? acc) && (acc * 16 <=? 2 ^ 31 - 1)) with true by lia.
    cbn [mbind option_bind].
    repeat (destruct Hc as [-> | Hc]); try subst c; simpl in Hfit, Hd |- *;
      match goal with
      | |- (if ?b then _ else _) = _ => replace b with true by lia
      end; f_equal; lia.
Qed.

(** What the loop reads from a field whose number fits: the checksum the
    field declares. *)
Lemma msgcksum_loop_from decl : forall tail acc,
  0 <= acc -> hex_from acc (hex_run decl) <= INT_MAX ->
  msgcksum_loop (decl ++ NUL :: tail) acc
  = Some (match drop (length (hex_run decl)) decl with
          | [] => Some (hex_from acc (hex_run decl))
          | c :: _ =>
              if c =? NUL then Some (hex_from acc (hex_run decl)) else None
          end).
Proof.
  induction decl as [|c decl IH]; intros tail acc Hacc Hfit; [reflexivity|].
  cbn [app msgcksum_loop hex_run].
  destruct (c =? NUL) eqn:Hnul.
  - apply Z.eqb_eq in Hnul. subst c. reflexivity.
  - destruct (is_hex c) eqn:Hc.
    + cbn [hex_run] in Hfit. rewrite Hc in Hfit. cbn [length drop] in *.
      change (hex_from acc (c :: hex_run decl))
        with (hex_from (16 * acc + hex_digit c) (hex_run decl)) in *.
      pose proof (hex_digit_range c Hc) as Hd.
      pose proof (hex_from_ge (hex_run decl) (16 * acc + hex_digit c)
                    (hex_run_digits decl) ltac:(lia)) as Hge.
      rewrite hex_step_digit by (try assumption; lia).
      cbn [mbind option_bind]. apply IH; [lia | exact Hfit].
    + cbn [length drop]. rewrite Hnul. reflexivity.
Qed.

Lemma msgcksum_loop_reads decl tail :
  checksum_fits decl ->
  msgcksum_loop (decl ++ NUL :: tail) 0 = Some (declared_checksum decl).
Proof.
  intros H. apply msgcksum_loop_from; [lia | exact H].
Qed.

Lemma strncmp_defined lit n : forall buf off,
  (off + n <= length buf)%nat -> is_Some (strncmp buf off lit n).
Proof.
  revert lit. induction n as [|n IH]; intros lit buf off Hlen; simpl.
  - eexists. reflexivity.
  - destruct (lookup_lt_is_Some_2 buf off) as [c Hc]; [lia|].
    rewrite Hc. simpl.
    destruct (c =? hd NUL lit); [|eexists; reflexivity].
    destruct (c =? NUL); [eexists; reflexivity|].
    apply IH. lia.
Qed.

Lemma known_talker_defined buf :
  (2 <= length buf)%nat -> is_Some (known_talker buf 0).
Proof.
  intros Hlen. unfold known_talker.
  destruct (strncmp_defined (str "BD") 2 buf 0) as [? ->]; [lia|].
  destruct (strncmp_defined (str "GA") 2 buf 0) as [? ->]; [lia|].
  destruct (strncmp_defined (str "GL") 2 buf 0) as [? ->]; [lia|].
  destruct (strncmp_defined (str "GN") 2 buf 0) as [? ->]; [lia|].
  destruct (strncmp_defined (str "GP") 2 buf 0) as [? ->]; [lia|].
  eexists. reflexivity.
Qed.

Lemma split_loop_length fuel : forall n s r,
  split_loop fuel n s = Some r ->
  length (match r with SplitDone s' => sp_cbuf s' | SplitReturn b => b end)
  = length (sp_cbuf s).
Proof.
  induction fuel as [|fuel IH]; intros n s r; simpl.
  - intros [= <-]. reflexivity.
  - destruct (sp_cs s); [intros [= <-]; reflexivity|].
    destruct (sp_cbuf s !! n) as [c|]; [|discriminate]. simpl.
    destruct (c =? c_star).
    { intros H. apply IH in H. simpl in H. rewrite length_insert in H.
      exact H. }
    destruct (c =? c_comma).
    + destruct (length (sp_fld s) <? MAXFLDS)%nat.
      * intros H. apply IH in H. simpl in H. rewrite length_insert in H.
        exact H.
      * intros [= <-]. reflexivity.
    + intros H. apply IH in H. exact H.
Qed.

#[local] Arguments strncmp : simpl never.
#[local] Arguments known_talker : simpl never.
#[local] Arguments msgcksum_loop : simpl never.
#[local] Arguments split_loop : simpl never.

(** ** The buffer invariant *)

(** What [nmea_input] keeps true of the decoder: the buffer has its
    [NMEAMAX] entries, and while a sentence is collected [pos] is inside. *)
Definition collecting_ok (np : nmea) : Prop :=
  length (cbuf np) = NMEAMAX /\ (sync np = 0 -> (pos np < NMEAMAX)%nat).

Definition same_buffer (np np' : nmea) : Prop :=
  cbuf np' = cbuf np /\ pos np' = pos np /\ sync np' = sync np.

#[local] Arguments nmea_degrees : simpl never.
#[local] Arguments nmea_time : simpl never.
#[local] Arguments nmea_date : simpl never.
#[local] Arguments cstring : simpl never.
#[local] Arguments nmea_locator : simpl never.

Section Invariant.

Variable atof : list Z -> float.

Lemma nmea_gprmc_buffer np fld np' :
  nmea_gprmc atof np fld = Some np' -> same_buffer np np'.
Proof.
  unfold nmea_gprmc, same_buffer. intros H.
  repeat (case_match; simplify_option_eq); auto.
Qed.

Lemma nmea_decode_gga_buffer np fld np' :
  nmea_decode_gga atof np fld = Some np' -> same_buffer np np'.
Proof.
  unfold nmea_decode_gga, same_buffer. intros H.
  repeat (case_match; simplify_option_eq); auto.
Qed.

Lemma nmea_locator_buffer np : same_buffer np (snd (nmea_locator np)).
Proof.
  unfold nmea_locator, same_buffer. case_match; simpl; auto.
Qed.

Lemma scan_decode_buffer np fld f0 np' :
  scan_decode atof np fld f0 = Some np' -> same_buffer np np'.
Proof.
  unfold scan_decode. intros H.
  destruct (strncmp (cbuf np) (f0 + 2) (str "RMC") 3) as [rmc|];
    [|discriminate]. simpl in H.
  destruct (if rmc =? 0 then nmea_gprmc atof np fld else Some np)
    as [np1|] eqn:H1; [|discriminate]. simpl in H.
  destruct (strncmp (cbuf np1) (f0 + 2) (str "GGA") 3) as [gga|];
    [|discriminate]. simpl in H.
  destruct (if gga =? 0 then nmea_decode_gga atof np1 fld else Some np1)
    as [np2|] eqn:H2; [|discriminate]. simpl in H.
  injection H as <-.
  assert (S1 : same_buffer np np1).
  { destruct (rmc =? 0); [eapply nmea_gprmc_buffer; exact H1|].
    injection H1 as <-. repeat split. }
  assert (S2 : same_buffer np1 np2).
  { destruct (gga =? 0); [eapply nmea_decode_gga_buffer; exact H2|].
    injection H2 as <-. repeat split. }
  pose proof (nmea_locator_buffer np2) as S3.
  unfold same_buffer in *. intuition congruence.
Qed.

Lemma nmea_scan_buffer np np' :
  nmea_scan atof np = Some np' ->
  length (cbuf np') = length (cbuf np) /\
  pos np' = pos np /\ sync np' = sync np.
Proof.
  unfold nmea_scan, scan_split. intros H.
  destruct (split_loop (pos np) 0 (mk_split (cbuf np) [0%nat] 0 None))
    as [r|] eqn:Hr; [|discriminate].
  apply split_loop_length in Hr. simpl in Hr, H.
  destruct r as [s|buf]; [|injection H as <-; simpl; auto].
  assert (Hret : forall np0,
            Some (set_cbuf np (sp_cbuf s)) = Some np0 ->
            length (cbuf np0) = length (cbuf np) /\
            pos np0 = pos np /\ sync np0 = sync np)
    by (intros np0 [= <-]; simpl; auto).
  assert (Hdec : forall f0 np0,
            scan_decode atof (set_cbuf np (sp_cbuf s)) (sp_fld s) f0
              = Some np0 ->
            length (cbuf np0) = length (cbuf np) /\
            pos np0 = pos np /\ sync np0 = sync np).
  { intros f0 np0 H0. apply scan_decode_buffer in H0.
    destruct H0 as (-> & -> & ->). simpl. auto. }
  repeat (case_match; simplify_option_eq); eauto.
Qed.

(** Every byte leaves the decoder in order, if it leaves it defined. *)
Lemma nmea_input_invariant c np np' :
  collecting_ok np -> nmea_input atof c np = Some np' -> collecting_ok np'.
Proof.
  unfold collecting_ok, nmea_input, store. intros [Hlen Hpos] H.
  destruct (c =? c_dollar).
  { injection H as <-. simpl. split; [exact Hlen|]. intros _.
    unfold NMEAMAX. lia. }
  destruct ((c =? c_cr) || (c =? c_lf)).
  - destruct (sync np =? 0) eqn:Hs; [|injection H as <-; auto].
    destruct (pos np <? length (cbuf np))%nat; [|discriminate].
    simpl in H.
    destruct (nmea_scan atof (set_cbuf np (<[pos np:=NUL]> (cbuf np))))
      as [np1|] eqn:H1; [|discriminate].
    injection H as <-. apply nmea_scan_buffer in H1. simpl in *.
    rewrite length_insert in H1. split; [lia|]. intros [=].
  - destruct ((sync np =? 0) && (pos np <? NMEAMAX - 1)%nat) eqn:Hs;
      [|injection H as <-; auto].
    apply andb_true_iff in Hs. destruct Hs as [_ Hp].
    apply Nat.ltb_lt in Hp.
    destruct (pos np <? length (cbuf np))%nat; [|discriminate].
    injection H as <-. simpl. rewrite length_insert.
    split; [exact Hlen|]. intros _. unfold NMEAMAX in *. lia.
Qed.

Lemma nmea_feed_invariant data : forall np np',
  collecting_ok np -> nmea_feed atof data np = Some np' -> collecting_ok np'.
Proof.
  induction data as [|c data IH]; intros np np' Hok; simpl.
  - intros [= <-]. exact Hok.
  - destruct (nmea_input atof c np) as [np1|] eqn:H1; [|discriminate].
    simpl. apply IH. eapply nmea_input_invariant; eassumption.
Qed.

Lemma nmea_start_invariant fresh :
  length (cbuf fresh) = NMEAMAX -> collecting_ok (nmea_start fresh).
Proof. intros H. split; [exact H|]. simpl. discriminate. Qed.

End Invariant.

(** ** Checksum mismatch *)

Section Discard.

Variable atof : list Z -> float.



End Discard.

Definition atof_zero (s : list Z) : float := 0%float.

(** ** The locator *)

Definition in_range (lat lon : float) : bool :=
  ((-90 <=? lat) && (lat <=? 90) && (-180 <=? lon) && (lon <=? 180))%float.

Definition outside_range (lat lon : float) : bool :=
  ((lat <? -90) || (90 <? lat) || (lon <? -180) || (180 <? lon))%float.

Lemma SFcompare_antisym x y c :
  SFcompare x y = Some c -> SFcompare y x = Some (CompOpp c).
Proof.
  destruct x as [sx|sx| |sx mx ex], y as [sy|sy| |sy my ey]; simpl;
    try discriminate;
    try (destruct sx; intros [= <-]; reflexivity);
    try (destruct sy; intros [= <-]; reflexivity);
    try (destruct sx, sy; intros [= <-]; reflexivity).
  destruct sx, sy; intros [= <-]; try reflexivity; f_equal;
    rewrite (Z.compare_antisym ex ey);
    destruct (ex ?= ey); simpl; try reflexivity;
    rewrite (Pos.compare_cont_antisym mx my Eq); reflexivity.
Qed.

Lemma leb_not_ltb (x y : float) :
  (x <=? y)%float = true -> (y <? x)%float = false.
Proof.
  rewrite leb_spec, ltb_spec. unfold SFleb, SFltb.
  destruct (SFcompare (Prim2SF x) (Prim2SF y)) as [c|] eqn:Hc;
    [|discriminate].
  rewrite (SFcompare_antisym _ _ _ Hc).
  destruct c; simpl; congruence.
Qed.

(** With the stored latitude in [-90, 90] and the stored longitude in
    [-180, 180], [nmea_locator] reports success and stores six characters
    and the terminator, computed from the two coordinates only; with a
    coordinate outside, it reports failure and changes nothing. *)
Lemma nmea_locator_range (np : nmea) :
  length (locator np) = S LOCMAX ->
  (in_range (latitude np) (longitude np) = true ->
   exists six,
     length six = LOCMAX /\
     six ++ [NUL] = locator_chars (latitude np) (longitude np) /\
     nmea_locator np = (0, set_locator np (six ++ [NUL]))) /\
  (outside_range (latitude np) (longitude np) = true ->
   nmea_locator np = (-1, np)).
Proof.
  intros Hlen. unfold nmea_locator. split.
  - unfold in_range. rewrite !andb_true_iff. intros [[[H1 H2] H3] H4].
    rewrite (leb_not_ltb _ _ H1), (leb_not_ltb _ _ H2),
      (leb_not_ltb _ _ H3), (leb_not_ltb _ _ H4). simpl.
    eexists [_; _; _; _; _; _]. split; [reflexivity|].
    split; [reflexivity|].
    rewrite drop_ge by (rewrite Hlen; simpl; unfold LOCMAX; lia).
    reflexivity.
  - unfold outside_range. intros H.
    destruct (180 <? longitude np)%float, (longitude np <? -180)%float,
      (90 <? latitude np)%float, (latitude np <? -90)%float;
      simpl in *; try reflexivity; discriminate.
Qed.

(** Latitude 47.0 and longitude 8.5 lie in the field JN, square 47,
    subsquare GA. *)
Example locator_jn47ga : locator_chars 47 8.5 = str "JN47GA" ++ [NUL].
Proof. vm_compute. reflexivity. Qed.

(** The corners of the range. *)
Example locator_corners :
  locator_chars 90 180 = str "SS00AA" ++ [NUL] /\
  locator_chars (-90) (-180) = str "AA00AA" ++ [NUL].
Proof. split; vm_compute; reflexivity. Qed.

(** ** Degrees and minutes *)

(** [q] is [v] to the four decimal places [v] is written with: they differ
    by half a unit of the fourth place at most. *)
Definition to_four_places (q v : Q) : Prop := (Qabs (q - v) <= 1 # 20000)%Q.

(** C9, as amended: the field 1234.5678 with a zero sign flag converts to
    the double next to 12.57613 (12 degrees and 34.5678 / 60), which is
    12.5761 to four places, whatever the destination held. *)
Theorem nmea_degrees_1234_5678 (dst : float) :
  nmea_degrees dst (str "1234.5678") 0 = (0, 12.57613%float) /\
  exists q,
    double_value 12.57613%float = Some q /\
    (Qabs (q - (1257613 # 100000)) <= 1 # 1000000000000)%Q /\
    to_four_places q (125761 # 10000).
Proof.
  split; [vm_compute; reflexivity|].
  eexists. split; [vm_compute; reflexivity|].
  split; vm_compute; intros H; discriminate H.
Qed.

(** C9, as stated, fails: the result is not 12.5763 to four places; it is
    more than 0.00016 below. *)
Lemma nmea_degrees_1234_5678_not_12_5763 :
  exists q,
    double_value (snd (nmea_degrees 0 (str "1234.5678") 0)) = Some q /\
    ~ to_four_places q (125763 # 10000) /\
    (q < (125763 # 10000) - (16 # 100000))%Q.
Proof.
  eexists. split; [vm_compute; reflexivity|].
  split; [|vm_compute; reflexivity].
  vm_compute. intros H. apply H. reflexivity.
Qed.

(** ** Malformed sentences *)

(** A decoder fresh from [nmea_handler], its memory zeroed. *)
Definition started : nmea := nmea_start (collected "").

(** An RMC sentence of thirteen fields whose time field ends in two
    letters. *)
Definition rmc_illegal_time : list Z :=
  str "$GPRMC,1437xx,A,4700.0000,N,00830.0000,E,1.0,0.0,021224,,,A"
  ++ [c_cr].

(** The same sentence with a proper time and its checksum, 0x7E: it is
    decoded, date 021224 and time 143723 to 2 December (1900 +) 124,
    14:37:23. *)
Example rmc_with_checksum_is_decoded (atof : list Z -> float) :
  exists np',
    nmea_feed atof
      (str "$GPRMC,143723,A,4700.0000,N,00830.0000,E,1.0,0.0,021224,,,A*7E"
       ++ [c_cr]) started = Some np' /\
    tm np' = mk_tm 23 37 14 2 12 124 /\
    status np' = 1 /\
    latitude np' = 47%float /\
    longitude np' = 8.5%float /\
    mode np' = c_A /\
    locator np' = str "JN47GA" ++ [NUL].
Proof.
  eexists. split; [vm_compute; reflexivity|].
  repeat split; vm_compute; reflexivity.
Qed.

(** The sentence of the comment on [nmea_decode_gga], without its
    checksum: the altitude is what [atof] makes of the tenth field. *)
Example gga_sets_altitude (atof : list Z -> float) :
  exists np',
    nmea_feed atof
      (str "$GNGGA,085901.00,1234.5678,N,00987.12345,E,1,12,0.84,1040.9,M,47.4,M,,"
       ++ [c_lf]) started = Some np' /\
    altitude np' = atof (str "1040.9") /\
    locator np' = str "JJ00AA" ++ [NUL].
Proof.
  eexists. split; [vm_compute; reflexivity|].
  split; vm_compute; reflexivity.
Qed.

(** C6 fails on the code: [nmea_time] accepts any six characters, so the
    sentence [rmc_illegal_time] is decoded, not dropped: seconds become 792,
    the status, the coordinates, the speed and the locator are replaced. *)
Theorem illegal_time_is_decoded (atof : list Z -> float) :
  exists np',
    nmea_feed atof rmc_illegal_time started = Some np' /\
    tm np' = mk_tm 792 37 14 2 12 124 /\
    status np' = 1 /\
    latitude np' = 47%float /\
    longitude np' = 8.5%float /\
    speed np' = (atof (str "1.0") * KNOTTOMS)%float /\
    locator np' = str "JN47GA" ++ [NUL] /\
    fix_of np' <> fix_of started.
Proof.
  eexists. split; [vm_compute; reflexivity|].
  repeat (split; [vm_compute; reflexivity|]).
  intros H. apply (f_equal fix_status) in H. vm_compute in H. discriminate H.
Qed.

(** Nothing makes [nmea_time] fail. *)
Lemma nmea_time_never_fails buf s t rc t' :
  nmea_time buf s t = Some (rc, t') -> rc = 0.
Proof.
  unfold nmea_time. intros H. simplify_option_eq. reflexivity.
Qed.

(** A field count outside 12 .. 14 makes [nmea_gprmc] return at once. *)
Lemma nmea_gprmc_field_count atof np fld :
  (length fld < 12 \/ 14 < length fld)%nat ->
  nmea_gprmc atof np fld = Some np.
Proof.
  intros H. unfold nmea_gprmc.
  assert (Hb : ((length fld <? 12)%nat || (14 <? length fld)%nat) = true).
  { apply orb_true_iff. rewrite !Nat.ltb_lt. exact H. }
  rewrite Hb. reflexivity.
Qed.

(** An RMC sentence with a date of five digits: the date is refused, but
    the time of day has been stored by then, and the locator is computed
    from the coordinates the decoder started with. *)
Example illegal_date_keeps_time (atof : list Z -> float) :
  exists np',
    nmea_feed atof
      (str "$GPRMC,143723,A,4700.0000,N,00830.0000,E,1.0,0.0,02122,,,A"
       ++ [c_cr]) started = Some np' /\
    tm np' = mk_tm 23 37 14 0 0 0 /\
    status np' = 0 /\
    latitude np' = 0%float /\
    locator np' = str "JJ00AA" ++ [NUL].
Proof.
  eexists. split; [vm_compute; reflexivity|].
  repeat split; vm_compute; reflexivity.
Qed.

End NmeaFacts.

(** * More on the NMEA decoder *)

Module NmeaInputFacts.
Import Nmea NmeaFacts.

(** A byte that neither starts nor ends a sentence. *)
Definition ordinary (c : Z) : Prop :=
  c <> c_dollar /\ c <> c_cr /\ c <> c_lf.

Section Input.

Variable atof : list Z -> float.

(** X1: while the decoder waits for a start marker, every byte that is not
    one is dropped: the decoder stays as it is, terminators included. *)
Theorem waiting_ignores_bytes (data : list Z) (np : nmea) :
  sync np <> 0 ->
  Forall (fun c => c <> c_dollar) data ->
  nmea_feed atof data np = Some np.
Proof.
  intros Hsync Hdata. induction Hdata as [|c data Hc _ IH]; [reflexivity|].
  simpl. unfold nmea_input.
  apply Z.eqb_neq in Hc, Hsync. rewrite Hc, Hsync. simpl.
  destruct ((c =? c_cr) || (c =? c_lf)); simpl; exact IH.
Qed.

Lemma collect_bytes (data : list Z) : forall np,
  length (cbuf np) = NMEAMAX ->
  sync np = 0 ->
  (pos np <= NMEAMAX - 1)%nat ->
  Forall ordinary data ->
  exists np',
    nmea_feed atof data np = Some np' /\
    pos np' = Nat.min (pos np + length data) (NMEAMAX - 1) /\
    sentence np' = sentence np ++ take (NMEAMAX - 1 - pos np) data /\
    fix_of np' = fix_of np /\
    sync np' = 0 /\
    length (cbuf np') = NMEAMAX.
Proof.
  unfold NMEAMAX.
  induction data as [|c data IH]; intros np Hlen Hsync Hpos Hdata.
  - exists np. simpl. rewrite take_nil, app_nil_r.
    repeat split; try assumption. lia.
  - inversion Hdata as [|? ? (Hd & Hcr & Hlf) Hrest]; subst.
    simpl. unfold nmea_input, store.
    apply Z.eqb_neq in Hd, Hcr, Hlf. rewrite Hd, Hcr, Hlf, Hsync. simpl.
    destruct (pos np <? 81)%nat eqn:Hroom.
    + apply Nat.ltb_lt in Hroom.
      assert (Hin : (pos np <? length (cbuf np))%nat = true)
        by (apply Nat.ltb_lt; rewrite Hlen; lia).
      rewrite Hin. simpl.
      destruct (IH (set_pos (set_cbuf np (<[pos np:=c]> (cbuf np)))
                      (S (pos np)))) as (np' & Hfeed & Hp & Hs & Hf & Hy & Hl).
      * simpl. rewrite length_insert. exact Hlen.
      * exact Hsync.
      * simpl. lia.
      * exact Hrest.
      * exists np'. split; [exact Hfeed|]. simpl in *.
        split; [rewrite Hp; lia|]. split; [|auto].
        rewrite Hs. unfold sentence. simpl.
        assert (Hlt : (pos np < length (cbuf np))%nat)
          by (rewrite Hlen; lia).
        rewrite (take_S_r _ _ c)
          by (apply list_lookup_insert_eq; exact Hlt).
        rewrite take_insert_ge by lia. rewrite <- app_assoc. simpl.
        replace (81 - pos np)%nat with (S (82 - 1 - S (pos np))) by lia.
        reflexivity.
    + apply Nat.ltb_ge in Hroom.
      destruct (IH np Hlen Hsync Hpos Hrest)
        as (np' & Hfeed & Hp & Hs & Hf & Hy & Hl).
      exists np'. split; [exact Hfeed|]. simpl.
      split; [rewrite Hp; lia|]. split; [|auto].
      rewrite Hs. replace (81 - pos np)%nat with O by lia.
      replace (82 - 1 - pos np)%nat with O by lia.
      rewrite !take_0. reflexivity.
Qed.

(** X2: after a start marker the decoder collects the bytes that follow,
    up to [NMEAMAX - 1] of them, and drops the rest: the buffer is never
    overrun, and the position fix is not touched while a sentence is
    collected. *)
Theorem start_marker_collects (data : list Z) (np : nmea) :
  length (cbuf np) = NMEAMAX ->
  Forall ordinary data ->
  exists np',
    nmea_feed atof (c_dollar :: data) np = Some np' /\
    sentence np' = take (NMEAMAX - 1) data /\
    pos np' = Nat.min (length data) (NMEAMAX - 1) /\
    fix_of np' = fix_of np /\
    sync np' = 0 /\
    length (cbuf np') = NMEAMAX.
Proof.
  intros Hlen Hdata.
  destruct (collect_bytes data (set_sync (set_pos np 0) 0))
    as (np' & Hfeed & Hp & Hs & Hf & Hy & Hl); simpl; try assumption;
    try reflexivity; try lia.
  exists np'. simpl. split; [exact Hfeed|]. simpl in *.
  repeat split; assumption.
Qed.

End Input.

Lemma waiting_ignores_bytes_witness :
  nmea_feed atof_zero (str "GPGGA,1,2*7F" ++ [c_cr; c_lf]) started
  = Some started.
Proof.
  apply (waiting_ignores_bytes atof_zero
           (str "GPGGA,1,2*7F" ++ [c_cr; c_lf]) started).
  - vm_compute. intros H. discriminate H.
  - repeat constructor; vm_compute; intros H; discriminate H.
Defined.

Lemma start_marker_collects_witness :
  exists np',
    nmea_feed atof_zero (c_dollar :: str "GPGGA,1,2*7F") started = Some np' /\
    sentence np' = take (NMEAMAX - 1) (str "GPGGA,1,2*7F") /\
    pos np' = Nat.min (length (str "GPGGA,1,2*7F")) (NMEAMAX - 1) /\
    fix_of np' = fix_of started /\
    sync np' = 0 /\
    length (cbuf np') = NMEAMAX.
Proof.
  apply (start_marker_collects atof_zero (str "GPGGA,1,2*7F") started).
  - reflexivity.
  - repeat constructor; vm_compute; intros H; discriminate H.
Defined.

End NmeaInputFacts.

(** * Checksum verification, from the device *)

Module NmeaChecksumFacts.
Import Nmea NmeaFacts NmeaInputFacts.


Section Checksum.

Variable atof : list Z -> float.



End Checksum.




End NmeaChecksumFacts.

(** * The locator at the edge of the range *)

Module NmeaLocatorFacts.
Import Nmea NmeaFacts.

(** The letters of the eighteen bands of longitude and of latitude, A to
    R. *)
Definition band_letter (c : Z) : bool := (c_A <=? c) && (c <=? chr "R").

(** An RMC sentence for the position 90 degrees north, 180 degrees east. *)
Definition rmc_upper_edge : list Z :=
  str "$GPRMC,143723,A,9000.0000,N,18000.0000,E,1.0,0.0,021224,,,A"
  ++ [c_cr].

(** C3 fails on the code: latitude 90 and longitude 180 pass the guard of
    [nmea_locator], and the locator stored for them is SS00AA: both band
    letters are S, the nineteenth letter, where the bands end at R. *)
Theorem locator_upper_edge_leaves_bands (atof : list Z -> float) :
  in_range 90 180 = true /\
  exists np',
    nmea_feed atof rmc_upper_edge started = Some np' /\
    latitude np' = 90%float /\
    longitude np' = 180%float /\
    fst (nmea_locator np') = 0 /\
    locator np' = str "SS00AA" ++ [NUL] /\
    Forall (fun c => band_letter c = false) (take 2 (locator np')).
Proof.
  split; [reflexivity|].
  eexists. split; [vm_compute; reflexivity|].
  repeat (split; [vm_compute; reflexivity|]).
  repeat constructor.
Qed.

(** The same below the edge: for the longitude next to 180 the sum
    ['A' + lon / 20] is rounded up to 83, and the first band letter is S
    again. *)
Example locator_below_edge_rounds_up :
  (0x1.67ffffffffffep+7 <? 180)%float = true /\
  locator_chars 0 0x1.67ffffffffffep+7 = str "SJ90XA" ++ [NUL].
Proof. split; vm_compute; reflexivity. Qed.

(** Inside the range the same computation stays within the bands: the
    position 47 degrees north, 8.5 degrees east. *)
Example locator_inside_bands :
  Forall (fun c => band_letter c = true) (take 2 (locator_chars 47 8.5)).
Proof. repeat constructor. Qed.

End NmeaLocatorFacts.

(** * The field splitting of nmea_scan *)

Module NmeaScanFacts.
Import Nmea NmeaFacts.

(** What the splitting loop leaves of the part of the buffer it reads:
    every field separator in front of the checksum separator, and that
    separator itself, have become NUL. *)
Fixpoint cut (l : list Z) : list Z :=
  match l with
  | [] => []
  | c :: l' =>
      if c =? c_star then NUL :: l'
      else if c =? c_comma then NUL :: cut l'
      else c :: cut l'
  end.

(** Where the fields after the first begin, for a part that begins at
    offset [n]. *)
Fixpoint offsets (n : nat) (l : list Z) : list nat :=
  match l with
  | [] => []
  | c :: l' =>
      if c =? c_star then []
      else if c =? c_comma then S n :: offsets (S n) l'
      else offsets (S n) l'
  end.

(** The body cut at its field separators. *)
Fixpoint split_commas (l : list Z) : list (list Z) :=
  match l with
  | [] => [[]]
  | c :: l' =>
      if c =? c_comma then [] :: split_commas l'
      else match split_commas l' with
           | f :: fs => (c :: f) :: fs
           | [] => [[c]]
           end
  end.

(** Where [cs] points, if a checksum separator was found. *)
Definition star_offset (n : nat) (l : list Z) : option nat :=
  match after_star l with
  | Some _ => Some (n + length (before_star l) + 1)%nat
  | None => None
  end.

(** Behind the checksum separator the buffer is left as it was. *)
Lemma cut_after_star l : forall decl,
  after_star l = Some decl ->
  drop (length (before_star l) + 1) (cut l) = decl.
Proof.
  induction l as [|c l IH]; intros decl H; [discriminate|].
  simpl in *. destruct (c =? c_star).
  - injection H as <-. reflexivity.
  - destruct (c =? c_comma); simpl; apply IH; exact H.
Qed.

Lemma length_cut l : length (cut l) = length l.
Proof.
  induction l as [|c l IH]; simpl; [reflexivity|].
  destruct (c =? c_star); [reflexivity|].
  destruct (c =? c_comma); simpl; rewrite IH; reflexivity.
Qed.

(** The splitting loop in closed form. *)
Lemma split_loop_closed fuel : forall n s,
  sp_cs s = None ->
  (n + fuel <= length (sp_cbuf s))%nat ->
  (length (sp_fld s) <= MAXFLDS)%nat ->
  if (length (sp_fld s)
      + separators (before_star (take fuel (drop n (sp_cbuf s))))
      <=? MAXFLDS)%nat
  then
    split_loop fuel n s
    = Some (SplitDone
              (mk_split
                 (take n (sp_cbuf s)
                  ++ cut (take fuel (drop n (sp_cbuf s)))
                  ++ drop (n + fuel) (sp_cbuf s))
                 (sp_fld s ++ offsets n (take fuel (drop n (sp_cbuf s))))
                 (fold_left Z.lxor
                    (before_star (take fuel (drop n (sp_cbuf s))))
                    (sp_cksum s))
                 (star_offset n (take fuel (drop n (sp_cbuf s))))))
  else exists buf, split_loop fuel n s = Some (SplitReturn buf).
Proof.
  induction fuel as [|fuel IH]; intros n s Hcs Hlen Hfld.
  - rewrite take_0. simpl. rewrite !Nat.add_0_r.
    apply Nat.leb_le in Hfld. rewrite Hfld.
    rewrite take_drop, app_nil_r. unfold star_offset. simpl.
    destruct s; simpl in *. subst. reflexivity.
  - destruct (lookup_lt_is_Some_2 (sp_cbuf s) n) as [c Hc]; [lia|].
    assert (Htake : take (S n) (sp_cbuf s) = take n (sp_cbuf s) ++ [c])
      by (apply take_S_r; exact Hc).
    rewrite (drop_S _ _ _ Hc). cbn [take split_loop before_star cut offsets].
    rewrite Hcs, Hc. cbn [mbind option_bind].
    unfold star_offset. cbn [after_star before_star].
    destruct (c =? c_star) eqn:Hstar.
    + cbn [separators fold_left length]. rewrite Nat.add_0_r.
      apply Nat.leb_le in Hfld. rewrite Hfld.
      erewrite split_loop_stops by reflexivity.
      rewrite app_nil_r, Nat.add_0_r. do 2 f_equal.
      rewrite Nat.add_1_r. f_equal.
      rewrite insert_take_drop by lia.
      f_equal. cbn [app]. f_equal.
      rewrite <- (take_drop fuel (drop (S n) (sp_cbuf s))) at 1.
      rewrite drop_drop. do 2 f_equal. lia.
    + cbn [separators fold_left length].
      destruct (c =? c_comma) eqn:Hcomma.
      * destruct (length (sp_fld s) <? MAXFLDS)%nat eqn:Hlt.
        -- apply Nat.ltb_lt in Hlt.
           specialize (IH (S n)
                         (mk_split (<[n:=NUL]> (sp_cbuf s))
                            (sp_fld s ++ [S n])
                            (Z.lxor (sp_cksum s) c) None)).
           cbn [sp_cbuf sp_fld sp_cksum sp_cs] in IH.
           rewrite length_insert, length_app in IH. cbn [length] in IH.
           rewrite !drop_insert_lt in IH by lia.
           specialize (IH eq_refl ltac:(lia) ltac:(lia)).
           replace (length (sp_fld s) + 1
                    + separators
                        (before_star (take fuel (drop (S n) (sp_cbuf s)))))%nat
             with (length (sp_fld s)
                   + S (separators
                          (before_star
                             (take fuel (drop (S n) (sp_cbuf s))))))%nat
             in IH by lia.
           destruct (length (sp_fld s)
                     + S (separators
                            (before_star
                               (take fuel (drop (S n) (sp_cbuf s))))) <=?
                     MAXFLDS)%nat; [|exact IH].
           rewrite IH. do 2 f_equal.
           unfold star_offset.
           replace (take (S n) (<[n:=NUL]> (sp_cbuf s)))
             with (take n (sp_cbuf s) ++ [NUL]).
           2:{ rewrite (take_S_r _ _ NUL)
                 by (apply list_lookup_insert_eq; lia).
               rewrite take_insert_ge by lia. reflexivity. }
           rewrite <- !app_assoc. cbn [app].
           replace (S n + fuel)%nat with (n + S fuel)%nat by lia.
           f_equal.
           destruct (after_star (take fuel (drop (S n) (sp_cbuf s))));
             [f_equal; cbn [length]; lia | reflexivity].
        -- apply Nat.ltb_ge in Hlt.
           assert (Hgt : (length (sp_fld s)
                          + S (separators
                                 (before_star
                                    (take fuel (drop (S n) (sp_cbuf s)))))
                          <=? MAXFLDS)%nat = false)
             by (apply Nat.leb_gt; lia).
           rewrite Hgt. eexists. reflexivity.
      * specialize (IH (S n)
                      (mk_split (sp_cbuf s) (sp_fld s)
                         (Z.lxor (sp_cksum s) c) None)).
        cbn [sp_cbuf sp_fld sp_cksum sp_cs] in IH.
        specialize (IH eq_refl ltac:(lia) Hfld).
        destruct (length (sp_fld s)
                  + separators
                      (before_star (take fuel (drop (S n) (sp_cbuf s)))) <=?
                  MAXFLDS)%nat; [|exact IH].
        rewrite IH. do 2 f_equal.
        unfold star_offset. rewrite Htake, <- !app_assoc. cbn [app].
        replace (S n + fuel)%nat with (n + S fuel)%nat by lia.
        f_equal.
        destruct (after_star (take fuel (drop (S n) (sp_cbuf s))));
          [f_equal; cbn [length]; lia | reflexivity].
Qed.

(** The field splitting of a collected sentence in closed form. *)
Lemma scan_split_closed (np : nmea) :
  (pos np <= length (cbuf np))%nat ->
  if (separators (before_star (sentence np)) <? MAXFLDS)%nat
  then
    scan_split np
    = Some (SplitDone
              (mk_split
                 (cut (sentence np) ++ drop (pos np) (cbuf np))
                 (0%nat :: offsets 0 (sentence np))
                 (xor_all (before_star (sentence np)))
                 (star_offset 0 (sentence np))))
  else exists buf, scan_split np = Some (SplitReturn buf).
Proof.
  intros Hpos. unfold scan_split, sentence.
  pose proof (split_loop_closed (pos np) 0
                (mk_split (cbuf np) [0%nat] 0 None) eq_refl) as H.
  cbn [sp_cbuf sp_fld sp_cksum sp_cs length] in H.
  rewrite drop_0 in H.
  specialize (H ltac:(lia) ltac:(unfold MAXFLDS; lia)).
  replace (1 + separators (before_star (take (pos np) (cbuf np))) <=?
           MAXFLDS)%nat
    with (separators (before_star (take (pos np) (cbuf np))) <? MAXFLDS)%nat
    in H.
  2:{ destruct (separators (before_star (take (pos np) (cbuf np))) <?
                MAXFLDS)%nat eqn:E; symmetry.
      - apply Nat.leb_le. apply Nat.ltb_lt in E. lia.
      - apply Nat.leb_gt. apply Nat.ltb_ge in E. lia. }
  exact H.
Qed.

Lemma cstring_of_app_nul (pre tail : list Z) :
  Forall (fun c => c <> NUL) pre ->
  cstring_of (pre ++ NUL :: tail) = Some pre.
Proof.
  induction 1 as [|c pre Hc _ IH]; simpl; [reflexivity|].
  apply Z.eqb_neq in Hc. rewrite Hc, IH. reflexivity.
Qed.

Lemma offsets_bounds l : forall n,
  Forall (fun o => n < o <= n + length l)%nat (offsets n l).
Proof.
  induction l as [|c l IH]; intros n; simpl; [constructor|].
  destruct (c =? c_star); [constructor|].
  destruct (c =? c_comma).
  - constructor; [lia|].
    eapply Forall_impl; [apply IH|]. simpl. intros o Ho. lia.
  - eapply Forall_impl; [apply IH|]. simpl. intros o Ho. lia.
Qed.

(** Reading the fields back from what the loop has left: the first field
    with whatever non-NUL characters [pre] stand in front of it, the others
    from their offsets. *)
Lemma fields_of_cut l : forall (n : nat) (pre tail : list Z),
  Forall (fun c => c <> NUL) pre ->
  Forall (fun c => c <> NUL) (before_star l) ->
  (after_star l = None -> exists tail', tail = NUL :: tail') ->
  exists first others,
    split_commas (before_star l) = first :: others /\
    cstring_of (pre ++ cut l ++ tail) = Some (pre ++ first) /\
    Forall2 (fun o f => cstring_of (drop (o - n) (cut l ++ tail)) = Some f)
      (offsets n l) others.
Proof.
  induction l as [|c l IH]; intros n pre tail Hpre Hbody Htail.
  - destruct (Htail eq_refl) as [tail' ->]. simpl.
    exists [], []. rewrite app_nil_r.
    split; [reflexivity|]. split; [|constructor].
    apply cstring_of_app_nul. exact Hpre.
  - simpl in *. destruct (c =? c_star) eqn:Hstar.
    + exists [], []. rewrite app_nil_r. simpl.
      split; [reflexivity|]. split; [|constructor].
      apply cstring_of_app_nul. exact Hpre.
    + inversion Hbody as [|? ? Hc Hbody']; subst.
      destruct (c =? c_comma) eqn:Hcomma.
      * destruct (IH (S n) [] tail) as (f & fs & Hsplit & Hfirst & Hrest);
          [constructor | exact Hbody' | exact Htail |].
        exists [], (f :: fs). rewrite app_nil_r. simpl.
        rewrite Hcomma.
        split; [rewrite Hsplit; reflexivity|].
        split; [apply cstring_of_app_nul; exact Hpre|].
        constructor.
        -- replace (S n - n)%nat with 1%nat by lia. exact Hfirst.
        -- pose proof (offsets_bounds l (S n)) as Hb.
           clear - Hrest Hb.
           induction Hrest as [|o g os gs Hog _ IHr]; [constructor|].
           inversion Hb as [|? ? Ho Hb']; subst.
           constructor; [|apply IHr; exact Hb'].
           replace (o - n)%nat with (S (o - S n)) by lia. exact Hog.
      * destruct (IH (S n) (pre ++ [c]) tail)
          as (f & fs & Hsplit & Hfirst & Hrest);
          [apply Forall_app; split; [exact Hpre | repeat constructor; exact Hc]
          | exact Hbody' | exact Htail |].
        exists (c :: f), fs. simpl. rewrite Hcomma, Hsplit.
        split; [reflexivity|].
        rewrite <- !app_assoc in Hfirst. simpl in Hfirst.
        split; [exact Hfirst|].
        pose proof (offsets_bounds l (S n)) as Hb.
        clear - Hrest Hb.
        induction Hrest as [|o g os gs Hog _ IHr]; [constructor|].
        inversion Hb as [|? ? Ho Hb']; subst.
        constructor; [|apply IHr; exact Hb'].
        replace (o - n)%nat with (S (o - S n)) by lia. exact Hog.
Qed.

(** X3: when the body of a terminated sentence holds no NUL byte and fewer
    than [MAXFLDS] field separators, the fields [nmea_scan] hands to the
    decoders are the pieces of the body between its separators, in order:
    read as strings at the offsets in [fld], they are [split_commas] of the
    body. *)
Theorem scan_split_fields (np : nmea) :
  cbuf np !! pos np = Some NUL ->
  Forall (fun c => c <> NUL) (before_star (sentence np)) ->
  (separators (before_star (sentence np)) < MAXFLDS)%nat ->
  exists s,
    scan_split np = Some (SplitDone s) /\
    length (sp_fld s) = S (separators (before_star (sentence np))) /\
    Forall2 (fun o f => cstring (sp_cbuf s) o = Some f)
      (sp_fld s) (split_commas (before_star (sentence np))).
Proof.
  intros Hnul Hbody Hsep.
  assert (Hpos : (pos np < length (cbuf np))%nat)
    by (apply lookup_lt_is_Some; eexists; exact Hnul).
  pose proof (scan_split_closed np ltac:(lia)) as Hclosed.
  apply Nat.ltb_lt in Hsep. rewrite Hsep in Hclosed.
  eexists. split; [exact Hclosed|]. cbn [sp_fld sp_cbuf].
  rewrite (drop_S _ _ _ Hnul).
  destruct (fields_of_cut (sentence np) 0 []
              (NUL :: drop (S (pos np)) (cbuf np)))
    as (f & fs & Hsplit & Hfirst & Hrest);
    [constructor | exact Hbody | intros _; eexists; reflexivity |].
  rewrite Hsplit. split.
  - simpl. f_equal.
    apply Forall2_length in Hrest. rewrite Hrest.
    clear - Hsplit. revert f fs Hsplit.
    induction (before_star (sentence np)) as [|c l IH]; intros f fs Hsplit.
    + injection Hsplit as <- <-. reflexivity.
    + simpl in *. destruct (c =? c_comma).
      * injection Hsplit as <- <-.
        destruct (split_commas l) as [|g gs] eqn:E.
        -- destruct l; simpl in E; [discriminate|].
           destruct (z =? c_comma); [discriminate|].
           destruct (split_commas l); discriminate.
        -- simpl. f_equal. eapply IH. reflexivity.
      * destruct (split_commas l) as [|g gs] eqn:E.
        -- destruct l; simpl in E; [discriminate|].
           destruct (z =? c_comma); [discriminate|].
           destruct (split_commas l); discriminate.
        -- injection Hsplit as <- <-. eapply IH. reflexivity.
  - constructor.
    + unfold cstring. rewrite drop_0. exact Hfirst.
    + eapply Forall2_impl; [exact Hrest|].
      intros o g Hog. simpl in Hog. unfold cstring.
      rewrite Nat.sub_0_r in Hog. exact Hog.
Qed.

(** Joining the pieces with separators gives the body back. *)
Fixpoint join_commas (fs : list (list Z)) : list Z :=
  match fs with
  | [] => []
  | f :: fs' =>
      match fs' with
      | [] => f
      | _ :: _ => f ++ c_comma :: join_commas fs'
      end
  end.

Lemma split_commas_cons l : exists f fs, split_commas l = f :: fs.
Proof.
  destruct l as [|c l]; simpl; [eexists _, _; reflexivity|].
  destruct (c =? c_comma); [eexists _, _; reflexivity|].
  destruct (split_commas l); eexists _, _; reflexivity.
Qed.

Lemma join_split_commas l : join_commas (split_commas l) = l.
Proof.
  induction l as [|c l IH]; [reflexivity|].
  simpl. destruct (c =? c_comma) eqn:Hc.
  - apply Z.eqb_eq in Hc. subst c.
    destruct (split_commas_cons l) as (f & fs & E). rewrite E in *.
    simpl. simpl in IH. rewrite IH. reflexivity.
  - destruct (split_commas_cons l) as (f & fs & E). rewrite E in *.
    simpl in *. destruct fs; simpl in *; rewrite <- IH; reflexivity.
Qed.

(** ** Sentences that are dropped *)

(** The five talkers and the two sentence types [nmea_scan] looks at. *)
Definition talkers : list (list Z) :=
  [str "BD"; str "GA"; str "GL"; str "GN"; str "GP"].

Definition sentence_types : list (list Z) := [str "RMC"; str "GGA"].

(** The sentence begins with a known talker and a known type. *)
Definition recognised (l : list Z) : bool :=
  bool_decide (take 2 l ∈ talkers)
  && bool_decide (take 3 (drop 2 l) ∈ sentence_types).

Lemma strncmp_zero_prefix n : forall buf off lit,
  strncmp buf off lit n = Some 0 ->
  Forall (fun c => c <> NUL) lit ->
  length lit = n ->
  take n (drop off buf) = lit.
Proof.
  induction n as [|n IH]; intros buf off lit Hcmp Hlit Hlen.
  - destruct lit; [|discriminate]. apply take_0.
  - destruct lit as [|d lit]; [discriminate|].
    inversion Hlit as [|? ? Hd Hlit']; subst.
    simpl in Hcmp.
    destruct (buf !! off) as [c|] eqn:Hc; [|discriminate]. simpl in Hcmp.
    destruct (c =? d) eqn:Hcd.
    + apply Z.eqb_eq in Hcd. subst c.
      apply Z.eqb_neq in Hd. rewrite Hd in Hcmp.
      rewrite (drop_S _ _ _ Hc). simpl. f_equal.
      apply IH; [exact Hcmp | exact Hlit' | simpl in Hlen; lia].
    + injection Hcmp as Hcmp. apply Z.eqb_neq in Hcd. lia.
Qed.

(** A prefix of the buffer free of NUL after the loop was there before. *)
Lemma cut_prefix l : forall k pre tail,
  take k (cut l ++ NUL :: tail) = pre ->
  Forall (fun c => c <> NUL) pre ->
  length pre = k ->
  take k l = pre.
Proof.
  induction l as [|c l IH]; intros k pre tail Htake Hpre Hlen.
  - destruct k; [simpl in Htake; subst; reflexivity|].
    simpl in Htake. subst pre. inversion Hpre; congruence.
  - destruct k; [simpl in Htake; subst; reflexivity|].
    simpl in Htake.
    destruct (c =? c_star);
      [simpl in Htake; subst pre; inversion Hpre; congruence|].
    destruct (c =? c_comma);
      [simpl in Htake; subst pre; inversion Hpre; congruence|].
    simpl in Htake. destruct pre as [|d pre]; [discriminate|].
    injection Htake as Hcd Htake. subst d. inversion Hpre; subst.
    simpl. f_equal. eapply IH; [reflexivity | assumption |].
    simpl in Hlen. lia.
Qed.

Lemma known_talker_true buf :
  known_talker buf 0 = Some true ->
  exists tk, tk ∈ talkers /\ strncmp buf 0 tk 2 = Some 0.
Proof.
  unfold known_talker, talkers. intros H.
  destruct (strncmp buf 0 (str "BD") 2) as [bd|] eqn:Hbd; [|discriminate].
  destruct (strncmp buf 0 (str "GA") 2) as [ga|] eqn:Hga; [|discriminate].
  destruct (strncmp buf 0 (str "GL") 2) as [gl|] eqn:Hgl; [|discriminate].
  destruct (strncmp buf 0 (str "GN") 2) as [gn|] eqn:Hgn; [|discriminate].
  destruct (strncmp buf 0 (str "GP") 2) as [gp|] eqn:Hgp; [|discriminate].
  cbn [mbind option_bind] in H. injection H as H.
  repeat rewrite orb_true_iff in H. rewrite !Z.eqb_eq in H.
  destruct H as [[[[-> | ->] | ->] | ->] | ->]; eexists;
    (split; [|eassumption]); repeat constructor.
Qed.

#[local] Arguments strncmp : simpl never.
#[local] Arguments known_talker : simpl never.
#[local] Arguments msgcksum_loop : simpl never.
#[local] Arguments cut : simpl never.

Section Dropped.

Variable atof : list Z -> float.

(** A terminator for a collected sentence: the buffer is terminated and
    scanned, and the decoder waits for the next start marker. *)
Lemma nmea_input_terminator (np : nmea) (c : Z) :
  c = c_cr \/ c = c_lf ->
  collecting_ok np ->
  sync np = 0 ->
  nmea_input atof c np
  = np' ← nmea_scan atof (set_cbuf np (<[pos np:=NUL]> (cbuf np)));
    Some (set_sync np' 1).
Proof.
  intros Hc [Hlen Hpos] Hsync. specialize (Hpos Hsync).
  unfold nmea_input, store.
  assert (Hd : (c =? c_dollar) = false)
    by (destruct Hc; subst c; reflexivity).
  assert (Ht : ((c =? c_cr) || (c =? c_lf)) = true)
    by (destruct Hc; subst c; reflexivity).
  assert (Hlt : (pos np <? length (cbuf np))%nat = true)
    by (apply Nat.ltb_lt; lia).
  rewrite Hd, Ht, Hsync, Hlt. reflexivity.
Qed.

(** X4: a sentence with [MAXFLDS] field separators or more in front of
    its checksum separator is dropped at its terminator: the position fix
    stays as it was. *)
Theorem too_many_fields_dropped (np : nmea) (c : Z) :
  c = c_cr \/ c = c_lf ->
  collecting_ok np ->
  sync np = 0 ->
  (MAXFLDS <= separators (before_star (sentence np)))%nat ->
  exists np',
    nmea_input atof c np = Some np' /\
    fix_of np' = fix_of np /\
    sync np' = 1.
Proof.
  intros Hc Hok Hsync Hsep.
  rewrite (nmea_input_terminator np c Hc Hok Hsync).
  destruct Hok as [Hlen Hpos]. specialize (Hpos Hsync).
  unfold nmea_scan.
  pose proof (scan_split_closed
                (set_cbuf np (<[pos np:=NUL]> (cbuf np)))) as Hclosed.
  unfold sentence in *. cbn [cbuf pos set_cbuf] in Hclosed.
  rewrite length_insert, take_insert_ge in Hclosed by lia.
  specialize (Hclosed ltac:(lia)).
  apply Nat.ltb_ge in Hsep. rewrite Hsep in Hclosed.
  destruct Hclosed as [buf ->]. simpl.
  eexists. split; [reflexivity|]. split; reflexivity.
Qed.

(** X5: a sentence that does not begin with one of the talkers BD, GA, GL,
    GN, GP followed by RMC or GGA is dropped at its terminator: the
    position fix stays as it was. *)
Theorem unrecognised_sentence_dropped (np : nmea) (c : Z) :
  c = c_cr \/ c = c_lf ->
  collecting_ok np ->
  sync np = 0 ->
  recognised (sentence np) = false ->
  exists np',
    nmea_input atof c np = Some np' /\
    fix_of np' = fix_of np /\
    sync np' = 1.
Proof.
  intros Hc Hok Hsync Hrec.
  rewrite (nmea_input_terminator np c Hc Hok Hsync).
  destruct Hok as [Hlen Hpos]. specialize (Hpos Hsync).
  unfold nmea_scan.
  pose proof (scan_split_closed
                (set_cbuf np (<[pos np:=NUL]> (cbuf np)))) as Hclosed.
  unfold sentence in *. cbn [cbuf pos set_cbuf] in Hclosed.
  rewrite length_insert, take_insert_ge in Hclosed by lia.
  specialize (Hclosed ltac:(lia)).
  rewrite drop_insert_ge, Nat.sub_diag in Hclosed by lia.
  assert (Hnul : exists tail,
            <[0%nat:=NUL]> (drop (pos np) (cbuf np)) = NUL :: tail).
  { destruct (drop (pos np) (cbuf np)) as [|x tail] eqn:E.
    - apply (f_equal length) in E. rewrite length_drop in E.
      simpl in E. lia.
    - eexists. reflexivity. }
  destruct Hnul as [tail Htail]. rewrite Htail in Hclosed.
  destruct (separators (before_star (take (pos np) (cbuf np))) <? MAXFLDS)%nat;
    [|destruct Hclosed as [buf ->]; simpl;
      eexists; split; [reflexivity|]; split; reflexivity].
  rewrite Hclosed. cbn [mbind option_bind sp_cbuf sp_fld sp_cs sp_cksum].
  cbn [lookup list_lookup]. cbn [mbind option_bind cbuf set_cbuf].
  set (post := cut (take (pos np) (cbuf np)) ++ NUL :: tail) in *.
  assert (Hpost : (5 <= length post)%nat).
  { apply (f_equal length) in Htail. rewrite length_insert, length_drop in Htail.
    simpl in Htail. unfold post. rewrite length_app, length_cut, length_take.
    simpl. rewrite Hlen in *. unfold NMEAMAX in *. lia. }
  destruct (known_talker_defined post) as [known Hknown]; [lia|].
  rewrite Hknown. cbn [mbind option_bind].
  destruct known; cbn [negb];
    [|eexists; split; [reflexivity|]; split; reflexivity].
  destruct (strncmp_defined (str "RMC") 3 post 2) as [rmc Hrmc]; [lia|].
  destruct (strncmp_defined (str "GGA") 3 post 2) as [gga Hgga]; [lia|].
  cbn [Nat.add]. rewrite Hrmc, Hgga. cbn [mbind option_bind].
  destruct (negb (rmc =? 0) && negb (gga =? 0)) eqn:Htype;
    [eexists; split; [reflexivity|]; split; reflexivity|].
  exfalso.
  destruct (known_talker_true post Hknown) as (tk & Htk & Hcmp).
  assert (Hty : exists ty, ty ∈ sentence_types /\
                           strncmp post 2 ty 3 = Some 0).
  { apply andb_false_iff in Htype. rewrite !negb_false_iff, !Z.eqb_eq in Htype.
    destruct Htype as [-> | ->]; eexists; (split; [|eassumption]);
      unfold sentence_types; repeat constructor. }
  destruct Hty as (ty & Hty & Hcmp').
  assert (Htk2 : length tk = 2%nat /\ Forall (fun c => c <> NUL) tk).
  { unfold talkers in Htk. revert Htk. clear.
    rewrite !elem_of_cons, elem_of_nil.
    intros [->|[->|[->|[->|[->|[]]]]]]; (split; [reflexivity|]);
      repeat constructor; vm_compute; discriminate. }
  assert (Hty3 : length ty = 3%nat /\ Forall (fun c => c <> NUL) ty).
  { unfold sentence_types in Hty. revert Hty. clear.
    rewrite !elem_of_cons, elem_of_nil.
    intros [->|[->|[]]]; (split; [reflexivity|]);
      repeat constructor; vm_compute; discriminate. }
  destruct Htk2 as [Hl2 Hn2]. destruct Hty3 as [Hl3 Hn3].
  apply strncmp_zero_prefix in Hcmp; [|exact Hn2 | exact Hl2].
  apply strncmp_zero_prefix in Hcmp'; [|exact Hn3 | exact Hl3].
  rewrite drop_0 in Hcmp.
  assert (H5 : take 5 post = tk ++ ty).
  { change 5%nat with (2 + 3)%nat.
    rewrite <- (take_take_drop post 2 3). rewrite Hcmp, Hcmp'. reflexivity. }
  apply cut_prefix in H5;
    [| apply Forall_app; split; assumption
     | rewrite length_app; lia].
  assert (Hrec' : recognised (take (pos np) (cbuf np)) = true).
  { unfold recognised.
    assert (E2 : take 2 (take (pos np) (cbuf np)) = tk).
    { apply (f_equal (take 2)) in H5. rewrite take_take in H5.
      rewrite take_app_length' in H5 by lia. exact H5. }
    assert (E3 : take 3 (drop 2 (take (pos np) (cbuf np))) = ty).
    { rewrite take_drop_commute. change (2 + 3)%nat with 5%nat.
      rewrite H5. apply drop_app_length'. lia. }
    rewrite E2, E3.
    rewrite !bool_decide_eq_true_2 by assumption. reflexivity. }
  congruence.
Qed.

(** ** Sentences of type GGA *)

(** Everything of the position fix but the altitude and the locator. *)
Definition keeps_position (np np' : nmea) : Prop :=
  tm np' = tm np /\ status np' = status np /\
  latitude np' = latitude np /\ longitude np' = longitude np /\
  speed np' = speed np /\ mode np' = mode np.

Lemma cut_lookup l : forall j x,
  l !! j = Some x -> x <> c_star -> x <> c_comma -> cut l !! j = Some x.
Proof.
  induction l as [|c l IH]; intros j x Hj Hs Hc; [discriminate|].
  unfold cut. fold cut. destruct j as [|j]; simpl in Hj.
  - injection Hj as ->. apply Z.eqb_neq in Hs, Hc. rewrite Hs, Hc.
    reflexivity.
  - destruct (c =? c_star); [exact Hj|].
    destruct (c =? c_comma); simpl; apply IH; assumption.
Qed.

Lemma cstring_of_defined (l tail : list Z) :
  is_Some (cstring_of (l ++ NUL :: tail)).
Proof.
  induction l as [|c l [s Hs]]; simpl; [eexists; reflexivity|].
  destruct (c =? NUL); [eexists; reflexivity|].
  rewrite Hs. eexists. reflexivity.
Qed.

Lemma cstring_defined (l tail : list Z) (o : nat) :
  (o <= length l)%nat -> is_Some (cstring (l ++ NUL :: tail) o).
Proof.
  intros Ho. unfold cstring. rewrite drop_app_le by exact Ho.
  apply cstring_of_defined.
Qed.

Lemma nmea_locator_keeps np : keeps_position np (snd (nmea_locator np)).
Proof.
  unfold nmea_locator, keeps_position.
  destruct (_ || _); simpl; repeat split.
Qed.

(** What [nmea_scan] does after the checks, for a sentence that is not of
    type RMC. *)
Lemma scan_decode_not_rmc (np : nmea) (fld : list nat) (rmc : Z) :
  strncmp (cbuf np) 2 (str "RMC") 3 = Some rmc ->
  rmc <> 0 ->
  (5 <= length (cbuf np))%nat ->
  Forall (fun o => is_Some (cstring (cbuf np) o)) fld ->
  exists np', scan_decode atof np fld 0 = Some np' /\ keeps_position np np'.
Proof.
  intros Hrmc Hne Hlen Hfld. unfold scan_decode. cbn [Nat.add].
  rewrite Hrmc. cbn [mbind option_bind].
  apply Z.eqb_neq in Hne. rewrite Hne. cbn [mbind option_bind].
  destruct (strncmp_defined (str "GGA") 3 (cbuf np) 2) as [gga ->]; [lia|].
  cbn [mbind option_bind].
  destruct (gga =? 0).
  - unfold nmea_decode_gga.
    destruct (negb (length fld =? 15)%nat) eqn:Hcnt.
    + cbn [mbind option_bind]. eexists. split; [reflexivity|].
      apply nmea_locator_keeps.
    + apply negb_false_iff, Nat.eqb_eq in Hcnt.
      destruct (lookup_lt_is_Some_2 fld 9) as [f9 Hf9]; [lia|].
      rewrite Hf9. cbn [mbind option_bind].
      rewrite Forall_lookup in Hfld. destruct (Hfld _ _ Hf9) as [s9 Hs9].
      rewrite Hs9. cbn [mbind option_bind].
      eexists. split; [reflexivity|].
      destruct (nmea_locator_keeps (set_altitude np (atof s9)))
        as (? & ? & ? & ? & ? & ?).
      repeat split; assumption.
  - cbn [mbind option_bind]. eexists. split; [reflexivity|].
    apply nmea_locator_keeps.
Qed.

(** X6: a sentence whose type is GGA changes at most the altitude and the
    locator: the time, the status, the coordinates, the speed and the mode
    stay as they were, whatever its fields and whatever its talker.  A
    checksum field, if the sentence has one, must be readable: the number
    its leading hexadecimal digits spell fits an [int], so that reading it
    does not overflow. *)
Theorem gga_keeps_position (np : nmea) (c : Z) :
  c = c_cr \/ c = c_lf ->
  collecting_ok np ->
  sync np = 0 ->
  take 3 (drop 2 (sentence np)) = str "GGA" ->
  (forall decl, after_star (sentence np) = Some decl -> checksum_fits decl) ->
  exists np',
    nmea_input atof c np = Some np' /\
    keeps_position np np' /\
    sync np' = 1.
Proof.
  intros Hc Hok Hsync Hgga Hfits.
  rewrite (nmea_input_terminator np c Hc Hok Hsync).
  destruct Hok as [Hlen Hpos]. specialize (Hpos Hsync).
  assert (Hret : forall buf,
            exists np',
              (Some (set_cbuf (set_cbuf np (<[pos np:=NUL]> (cbuf np))) buf)
               ≫= fun np' => Some (set_sync np' 1)) = Some np' /\
              keeps_position np np' /\ sync np' = 1).
  { intros buf. eexists. split; [reflexivity|].
    split; [repeat split | reflexivity]. }
  unfold nmea_scan.
  pose proof (scan_split_closed
                (set_cbuf np (<[pos np:=NUL]> (cbuf np)))) as Hclosed.
  unfold sentence in *. cbn [cbuf pos set_cbuf] in Hclosed.
  rewrite length_insert, take_insert_ge in Hclosed by lia.
  specialize (Hclosed ltac:(lia)).
  rewrite drop_insert_ge, Nat.sub_diag in Hclosed by lia.
  assert (Hnul : exists tail,
            <[0%nat:=NUL]> (drop (pos np) (cbuf np)) = NUL :: tail).
  { destruct (drop (pos np) (cbuf np)) as [|x tail] eqn:E.
    - apply (f_equal length) in E. rewrite length_drop in E.
      simpl in E. lia.
    - eexists. reflexivity. }
  destruct Hnul as [tail Htail]. rewrite Htail in Hclosed.
  destruct (separators (before_star (take (pos np) (cbuf np))) <? MAXFLDS)%nat;
    [|destruct Hclosed as [buf ->]; apply Hret].
  rewrite Hclosed. cbn [mbind option_bind sp_cbuf sp_fld sp_cs sp_cksum].
  cbn [lookup list_lookup]. cbn [mbind option_bind cbuf set_cbuf].
  set (S0 := take (pos np) (cbuf np)) in *.
  set (post := cut S0 ++ NUL :: tail) in *.
  assert (HS0 : length S0 = pos np)
    by (unfold S0; rewrite length_take; lia).
  assert (Hpost : (5 <= length post)%nat).
  { apply (f_equal length) in Htail.
    rewrite length_insert, length_drop in Htail.
    simpl in Htail. unfold post. rewrite length_app, length_cut, HS0.
    simpl. rewrite Hlen in *. unfold NMEAMAX in *. lia. }
  destruct (known_talker_defined post) as [known Hknown]; [lia|].
  rewrite Hknown. cbn [mbind option_bind].
  destruct known; cbn [negb]; [|apply Hret].
  assert (HG : post !! 2%nat = Some (chr "G")).
  { unfold post. rewrite lookup_app_l.
    - apply cut_lookup; [|vm_compute; discriminate|vm_compute; discriminate].
      apply (f_equal (fun l => l !! 0%nat)) in Hgga.
      rewrite lookup_take_lt, lookup_drop in Hgga by lia. exact Hgga.
    - rewrite length_cut.
      apply (f_equal length) in Hgga. rewrite length_take, length_drop in Hgga.
      change (length (str "GGA")) with 3%nat in Hgga. lia. }
  assert (Hrmc : strncmp post 2 (str "RMC") 3
                 = Some (chr "G" - chr "R")).
  { unfold strncmp. rewrite HG. reflexivity. }
  destruct (strncmp_defined (str "GGA") 3 post 2) as [gga Hgga']; [lia|].
  cbn [Nat.add]. rewrite Hrmc, Hgga'. cbn [mbind option_bind].
  destruct (negb (chr "G" - chr "R" =? 0) && negb (gga =? 0));
    [apply Hret|].
  assert (Hfld : Forall (fun o => is_Some (cstring post o))
                   (0%nat :: offsets 0 S0)).
  { constructor; [apply cstring_defined; lia|].
    eapply Forall_impl; [apply offsets_bounds|].
    intros o Ho. apply cstring_defined. rewrite length_cut. simpl in Ho. lia. }
  assert (Hdec : exists np',
            (scan_decode atof
               (set_cbuf (set_cbuf np (<[pos np:=NUL]> (cbuf np))) post)
               (0%nat :: offsets 0 S0) 0
             ≫= fun np' => Some (set_sync np' 1)) = Some np' /\
            keeps_position np np' /\ sync np' = 1).
  { destruct (scan_decode_not_rmc
                (set_cbuf (set_cbuf np (<[pos np:=NUL]> (cbuf np))) post)
                (0%nat :: offsets 0 S0) (chr "G" - chr "R"))
      as (np' & -> & Hkeep);
      [exact Hrmc | vm_compute; discriminate | exact Hpost | exact Hfld |].
    cbn [mbind option_bind]. eexists. split; [reflexivity|].
    split; [exact Hkeep | reflexivity]. }
  unfold star_offset.
  destruct (after_star S0) as [decl|] eqn:Hstar; [|exact Hdec].
  assert (Hcs : (0 + length (before_star S0) + 1 <= length (cut S0))%nat).
  { rewrite length_cut. clear - Hstar. revert decl Hstar.
    induction S0 as [|x l IH]; intros decl Hstar; [discriminate|].
    simpl in *. destruct (x =? c_star); simpl; [lia|].
    specialize (IH _ Hstar). lia. }
  replace (drop (0 + length (before_star S0) + 1) post)
    with (drop (0 + length (before_star S0) + 1) (cut S0) ++ NUL :: tail)
    by (unfold post; rewrite drop_app_le by exact Hcs; reflexivity).
  cbn [Nat.add]. rewrite (cut_after_star S0 decl Hstar).
  rewrite (msgcksum_loop_reads decl tail (Hfits decl eq_refl)).
  cbn [mbind option_bind].
  destruct (declared_checksum decl) as [m|]; [|apply Hret].
  destruct (negb (m =? xor_all (before_star S0))); [apply Hret | exact Hdec].
Qed.

End Dropped.

Lemma scan_split_fields_witness :
  exists s,
    scan_split (collected "GPGGA,1,,2*7F") = Some (SplitDone s) /\
    length (sp_fld s)
    = S (separators (before_star (sentence (collected "GPGGA,1,,2*7F")))) /\
    Forall2 (fun o f => cstring (sp_cbuf s) o = Some f)
      (sp_fld s)
      (split_commas (before_star (sentence (collected "GPGGA,1,,2*7F")))).
Proof.
  apply (scan_split_fields (collected "GPGGA,1,,2*7F")).
  - reflexivity.
  - repeat constructor; vm_compute; discriminate.
  - vm_compute. lia.
Defined.

(** The fields of the sentence above. *)
Example split_commas_gga :
  split_commas (str "GPGGA,1,,2") = [str "GPGGA"; str "1"; []; str "2"].
Proof. reflexivity. Qed.

Lemma collected_ok (s : string) :
  (String.length s < NMEAMAX)%nat -> collecting_ok (collected s).
Proof.
  assert (Hstr : length (str s) = String.length s).
  { unfold str. rewrite length_map.
    induction s as [|a s IH]; simpl; [reflexivity | rewrite IH; reflexivity]. }
  intros Hs. unfold collecting_ok, collected. simpl.
  rewrite length_app, repeat_length, Hstr.
  split; [unfold NMEAMAX in *; lia | intros _; exact Hs].
Qed.

Lemma too_many_fields_dropped_witness :
  exists np',
    nmea_input atof_zero c_cr
      (collected "GPRMC,,,,,,,,,,,,,,,,,,,,,,,,,,,,,,,,") = Some np' /\
    fix_of np'
    = fix_of (collected "GPRMC,,,,,,,,,,,,,,,,,,,,,,,,,,,,,,,,") /\
    sync np' = 1.
Proof.
  apply (too_many_fields_dropped atof_zero
           (collected "GPRMC,,,,,,,,,,,,,,,,,,,,,,,,,,,,,,,,") c_cr).
  - left. reflexivity.
  - apply collected_ok. vm_compute. lia.
  - reflexivity.
  - vm_compute. lia.
Defined.

Lemma unrecognised_sentence_dropped_witness :
  exists np',
    nmea_input atof_zero c_lf (collected "GPGSV,3,1,11") = Some np' /\
    fix_of np' = fix_of (collected "GPGSV,3,1,11") /\
    sync np' = 1.
Proof.
  apply (unrecognised_sentence_dropped atof_zero
           (collected "GPGSV,3,1,11") c_lf).
  - right. reflexivity.
  - apply collected_ok. vm_compute. lia.
  - reflexivity.
  - vm_compute. reflexivity.
Defined.

Lemma gga_keeps_position_witness :
  exists np',
    nmea_input atof_zero c_cr
      (collected "GNGGA,085901.00,1234.5678,N,00987.12345,E,1,12,0.84,1040.9,M,47.4,M,,*4B")
    = Some np' /\
    keeps_position
      (collected "GNGGA,085901.00,1234.5678,N,00987.12345,E,1,12,0.84,1040.9,M,47.4,M,,*4B")
      np' /\
    sync np' = 1.
Proof.
  apply (gga_keeps_position atof_zero
           (collected "GNGGA,085901.00,1234.5678,N,00987.12345,E,1,12,0.84,1040.9,M,47.4,M,,*4B")
           c_cr).
  - left. reflexivity.
  - apply collected_ok. vm_compute. lia.
  - reflexivity.
  - vm_compute. reflexivity.
  - intros decl H. vm_compute in H. injection H as <-.
    vm_compute. discriminate.
Defined.

End NmeaScanFacts.

(** * The field parsers of the NMEA decoder *)

Module NmeaFieldFacts.
Import Nmea NmeaFacts NmeaScanFacts.

(** ** Definitions *)

(** The string a buffer holds at an offset, taken apart. *)
Definition digits (l : list Z) : Prop := Forall (fun c => is_digit c = true) l.

(** The next character, if there is one, is no digit. *)
Definition no_digit_next (l : list Z) : Prop :=
  match l with
  | [] => True
  | c :: _ => is_digit c = false
  end.

(** The decimal number the characters of [l] spell, after [acc]. *)
Definition decimal (acc : Z) (l : list Z) : Z :=
  fold_left (fun a c => a * 10 + (c - c_0)) l acc.

(** [acc = acc * 10 + (c - '0')] over the characters of [l], in doubles. *)
Definition accumulate (acc : float) (l : list Z) : float :=
  fold_left (fun a c => (a * 10 + Z2double (c - c_0))%float) l acc.

(** The sign the hemisphere gives a coordinate. *)
Definition hemisphere (neg : Z) (deg : float) : float :=
  if neg =? 0 then deg else (- deg)%float.

(** There is a decimal point with a character behind it. *)
Definition point_inside (src : list Z) : Prop :=
  exists a c b, src = a ++ c_dot :: c :: b.

(** What [nmea_date] makes of the field [f]. *)
Definition date_of (t : struct_tm) (f : list Z) : Z * struct_tm :=
  match f with
  | [d1; d2; m1; m2; y1; y2] =>
      if forallb is_digit f
      then (0, mk_tm (tm_sec t) (tm_min t) (tm_hour t)
                 (two_digits d1 d2) (two_digits m1 m2)
                 (100 + two_digits y1 y2))
      else (-1, t)
  | _ => (-1, t)
  end.

(** An RMC sentence as receivers older than NMEA 2.3 send it: twelve
    fields, none for the mode. *)
Definition rmc_twelve : string :=
  "GPRMC,143723,A,4700.0000,N,00830.0000,E,1.0,0.0,021224,,".

(** ** The buffer is never overrun *)

Section Overflow.

Variable atof : list Z -> float.

(** X7: [nmea_handler] leaves [pos] as [malloc] returned it, and still no
    byte sequence makes [nmea_input] store outside the buffer: whatever was
    read, the buffer has its [NMEAMAX] entries, and while a sentence is
    collected the place of the next store, for a byte or for the
    terminator, is inside it. *)
Theorem nmea_input_no_overflow (fresh : nmea) (data : list Z) (np' : nmea) :
  length (cbuf fresh) = NMEAMAX ->
  nmea_feed atof data (nmea_start fresh) = Some np' ->
  length (cbuf np') = NMEAMAX /\
  (sync np' = 0 ->
   (pos np' < NMEAMAX)%nat /\
   forall c, store (cbuf np') (pos np') c
             = Some (<[pos np':=c]> (cbuf np'))).
Proof.
  intros Hlen Hfeed.
  apply nmea_start_invariant in Hlen.
  destruct (nmea_feed_invariant atof data _ _ Hlen Hfeed) as [Hl Hp].
  split; [exact Hl|]. intros Hs. specialize (Hp Hs).
  split; [exact Hp|]. intros c. unfold store.
  rewrite Hl. apply Nat.ltb_lt in Hp. rewrite Hp. reflexivity.
Qed.

End Overflow.

Lemma nmea_input_no_overflow_witness :
  length (cbuf (set_pos (collected "") 5000)) = NMEAMAX /\
  exists np',
    nmea_feed atof_zero (str "$GPGGA,1")
      (nmea_start (set_pos (collected "") 5000)) = Some np' /\
    length (cbuf np') = NMEAMAX /\
    (sync np' = 0 ->
     (pos np' < NMEAMAX)%nat /\
     forall c, store (cbuf np') (pos np') c
               = Some (<[pos np':=c]> (cbuf np'))).
Proof.
  split; [reflexivity|].
  eexists. split; [vm_compute; reflexivity|].
  apply (nmea_input_no_overflow atof_zero (set_pos (collected "") 5000)
           (str "$GPGGA,1")).
  - reflexivity.
  - vm_compute. reflexivity.
Defined.

(** ** Dates *)

Lemma cstring_of_inv l : forall f,
  cstring_of l = Some f ->
  exists tail, l = f ++ NUL :: tail /\ Forall (fun c => c <> NUL) f.
Proof.
  induction l as [|c l IH]; intros f H; [discriminate|].
  simpl in H. destruct (c =? NUL) eqn:Hc.
  - injection H as <-. apply Z.eqb_eq in Hc. subst c.
    exists l. split; [reflexivity | constructor].
  - destruct (cstring_of l) as [g|]; [|discriminate].
    injection H as <-. destruct (IH g eq_refl) as (tail & -> & Hg).
    exists tail. split; [reflexivity|].
    constructor; [apply Z.eqb_neq; exact Hc | exact Hg].
Qed.

Lemma drop_next (buf : list Z) : forall p c l,
  drop p buf = c :: l -> drop (S p) buf = l /\ buf !! p = Some c.
Proof.
  induction buf as [|x buf IH]; intros p c l H.
  - rewrite drop_nil in H. discriminate.
  - destruct p; simpl in *.
    + injection H as -> ->. split; reflexivity.
    + apply IH. exact H.
Qed.

Lemma date_loop_cons fuel buf p c l :
  drop p buf = c :: l ->
  date_loop (S fuel) buf p
  = if negb (c =? NUL) && is_digit c
    then n ← date_loop fuel buf (S p); Some (S n)
    else Some O.
Proof.
  intros H. apply drop_next in H. destruct H as [_ H].
  simpl. rewrite H. reflexivity.
Qed.

Ltac next_char :=
  match goal with
  | H : drop ?p ?buf = ?c :: ?l |- context [date_loop (S ?f) ?buf ?p] =>
      rewrite (date_loop_cons f buf p c l H);
      let H' := fresh "Hd" in
      pose proof (proj1 (drop_next buf p c l H)) as H'
  end.

Ltac date_cases :=
  simpl app in *;
  repeat next_char;
  repeat match goal with
  | H : Forall _ (_ :: _) |- _ => inversion H; clear H; subst
  end;
  repeat match goal with
  | H : ?c <> NUL |- _ => apply Z.eqb_neq in H; rewrite ?H
  end;
  cbn [negb andb forallb];
  repeat match goal with
  | |- context [is_digit ?c] => destruct (is_digit c) eqn:?
  end;
  try reflexivity.

(** X8: [nmea_date] accepts a field exactly when it is six decimal digits
    and nothing else; it then stores day, month and year (counted from
    1900, the century taken to be 2000) and leaves the time of day alone.
    Any other field, shorter, longer or with another character, is refused
    with -1 and [*tm] is not touched.  The function never reads behind the
    terminator of the field. *)
Theorem nmea_date_six_digits (buf : list Z) (s : nat) (t : struct_tm)
    (f : list Z) :
  cstring buf s = Some f -> nmea_date buf s t = Some (date_of t f).
Proof.
  unfold cstring. intros H.
  destruct (cstring_of_inv _ _ H) as (tail & E & Hf). clear H.
  assert (Hread : forall k, buf !! (s + k)%nat = (f ++ NUL :: tail) !! k)
    by (intros k; rewrite <- lookup_drop, E; reflexivity).
  unfold nmea_date, date_of.
  rewrite !Hread.
  replace (buf !! s) with ((f ++ NUL :: tail) !! 0%nat)
    by (rewrite <- Hread; f_equal; lia).
  repeat (destruct f as [|? f]; [date_cases; fail|]).
  date_cases.
  all: cbn.
  all: repeat match goal with
       | H : (?c =? NUL) = false |- context [?c =? NUL] => rewrite H
       end.
  all: reflexivity.
Qed.

Lemma nmea_date_six_digits_witness :
  nmea_date (cbuf (collected "021224")) 0 (mk_tm 23 37 14 0 0 0)
  = Some (0, mk_tm 23 37 14 2 12 124).
Proof.
  apply (nmea_date_six_digits (cbuf (collected "021224")) 0
           (mk_tm 23 37 14 0 0 0) (str "021224")).
  reflexivity.
Defined.

(** Refused: five digits, seven digits, a letter among six characters. *)
Example nmea_date_refuses :
  map (fun f => fst (date_of (mk_tm 0 0 0 0 0 0) (str f)))
    ["02122"; "0212240"; "02x224"; ""]%string
  = [-1; -1; -1; -1].
Proof. reflexivity. Qed.

(** ** Integers with three decimals *)

Lemma is_digit_range c : is_digit c = true -> 0 <= c - c_0 <= 9.
Proof. unfold is_digit, c_0, c_9. lia. Qed.

Lemma is_digit_not_dot c : is_digit c = true -> (c =? c_dot) = false.
Proof. unfold is_digit, c_0, c_9, c_dot. lia. Qed.

Lemma decimal_bound l : forall acc,
  digits l -> 0 <= acc ->
  0 <= decimal acc l < (acc + 1) * 10 ^ Z.of_nat (length l).
Proof.
  induction l as [|c l IH]; intros acc Hl Hacc.
  - simpl. lia.
  - inversion Hl as [|? ? Hc Hl']; subst.
    apply is_digit_range in Hc.
    change (decimal acc (c :: l)) with (decimal (acc * 10 + (c - c_0)) l).
    specialize (IH (acc * 10 + (c - c_0)) Hl' ltac:(lia)).
    rewrite length_cons, Nat2Z.inj_succ, Z.pow_succ_r by lia.
    assert (0 < 10 ^ Z.of_nat (length l)) by (apply Z.pow_pos_nonneg; lia).
    nia.
Qed.

Lemma decimal_app a b acc : decimal acc (a ++ b) = decimal (decimal acc a) b.
Proof. unfold decimal. apply fold_left_app. Qed.

Lemma int64_small z : 0 <= z < 2 ^ 63 -> int64 z = Some z.
Proof.
  intros H. unfold int64.
  replace (- 2 ^ 63 <=? z) with true by lia.
  replace (z <=? 2 ^ 63 - 1) with true by lia.
  reflexivity.
Qed.

Lemma atoi_digit_small dst c :
  0 <= dst -> 0 <= c - c_0 -> dst * 10 + (c - c_0) < 2 ^ 63 ->
  atoi_digit dst c = Some (dst * 10 + (c - c_0)).
Proof.
  intros Hd Hc Hb. unfold atoi_digit.
  rewrite int64_small by lia. cbn [mbind option_bind].
  apply int64_small. lia.
Qed.

Lemma atoi_int_digits ds : forall rest acc,
  digits ds -> no_digit_next rest -> 0 <= acc ->
  (acc + 1) * 10 ^ Z.of_nat (length ds) <= 2 ^ 63 ->
  atoi_int (ds ++ rest) acc = Some (rest, decimal acc ds).
Proof.
  induction ds as [|c ds IH]; intros rest acc Hds Hrest Hacc Hb.
  - simpl. destruct rest as [|c rest]; [reflexivity|].
    simpl in *. rewrite Hrest, andb_false_r. reflexivity.
  - inversion Hds as [|? ? Hc Hds']; subst.
    simpl app. cbn [atoi_int].
    rewrite Hc, (is_digit_not_dot _ Hc). cbn [negb andb].
    apply is_digit_range in Hc.
    rewrite length_cons, Nat2Z.inj_succ, Z.pow_succ_r in Hb by lia.
    assert (0 < 10 ^ Z.of_nat (length ds)) by (apply Z.pow_pos_nonneg; lia).
    rewrite atoi_digit_small by nia. cbn [mbind option_bind].
    apply IH; [exact Hds' | exact Hrest | lia | nia].
Qed.

Lemma atoi_frac_digits fs : forall i rest acc,
  digits fs -> (length fs <= i)%nat ->
  length fs = i \/ no_digit_next rest ->
  0 <= acc -> (acc + 1) * 10 ^ Z.of_nat (length fs) <= 2 ^ 63 ->
  atoi_frac i (fs ++ rest) acc
  = Some ((i - length fs)%nat, decimal acc fs).
Proof.
  induction fs as [|c fs IH]; intros i rest acc Hfs Hlen Hstop Hacc Hb.
  - simpl. rewrite Nat.sub_0_r.
    destruct i; [reflexivity|].
    destruct Hstop as [Hstop|Hstop]; [discriminate|].
    destruct rest as [|c rest]; [reflexivity|].
    simpl in *. rewrite Hstop. reflexivity.
  - inversion Hfs as [|? ? Hc Hfs']; subst.
    destruct i; [simpl in Hlen; lia|].
    simpl app. cbn [atoi_frac]. rewrite Hc.
    apply is_digit_range in Hc.
    rewrite length_cons, Nat2Z.inj_succ, Z.pow_succ_r in Hb by lia.
    assert (0 < 10 ^ Z.of_nat (length fs)) by (apply Z.pow_pos_nonneg; lia).
    rewrite atoi_digit_small by nia. cbn [mbind option_bind].
    simpl in Hlen.
    rewrite IH; [reflexivity | exact Hfs' | lia | | lia | nia].
    destruct Hstop as [Hstop|Hstop];
      [left; simpl in Hstop; lia | right; exact Hstop].
Qed.

Lemma atoi_pad_small i : forall dst,
  0 <= dst -> dst * 10 ^ Z.of_nat i < 2 ^ 63 ->
  atoi_pad i dst = Some (dst * 10 ^ Z.of_nat i).
Proof.
  induction i as [|i IH]; intros dst Hd Hb.
  - simpl. f_equal. lia.
  - rewrite Nat2Z.inj_succ, Z.pow_succ_r in * by lia.
    assert (0 < 10 ^ Z.of_nat i) by (apply Z.pow_pos_nonneg; lia).
    cbn [atoi_pad]. rewrite int64_small by nia. cbn [mbind option_bind].
    rewrite IH by nia. f_equal. lia.
Qed.

(** X9: for a number written with at most fifteen digits, a decimal point
    and up to three decimals (further digits are not read), [nmea_atoi]
    returns 0 and stores the number in thousandths: the digits read as one
    decimal number, padded with zeroes to three decimals.  Nothing
    overflows the [int64_t]. *)
Theorem nmea_atoi_thousandths (ds fs rest : list Z) :
  digits ds -> digits fs ->
  (length ds <= 15)%nat -> (length fs <= 3)%nat ->
  length fs = 3%nat \/ no_digit_next rest ->
  nmea_atoi (ds ++ c_dot :: fs ++ rest)
  = Some (0, decimal 0 (ds ++ fs) * 10 ^ Z.of_nat (3 - length fs)).
Proof.
  intros Hds Hfs Hl1 Hl2 Hstop.
  unfold nmea_atoi.
  assert (P15 : 10 ^ Z.of_nat (length ds) <= 10 ^ 15)
    by (apply Z.pow_le_mono_r; lia).
  rewrite atoi_int_digits;
    [| exact Hds | reflexivity | lia | lia].
  cbn [mbind option_bind].
  change (c_dot =? c_dot) with true. cbv iota.
  pose proof (decimal_bound ds 0 Hds ltac:(lia)) as Bd.
  assert (P3 : 10 ^ Z.of_nat (length fs) <= 10 ^ 3)
    by (apply Z.pow_le_mono_r; lia).
  assert (0 < 10 ^ Z.of_nat (length fs)) by (apply Z.pow_pos_nonneg; lia).
  rewrite atoi_frac_digits;
    [| exact Hfs | exact Hl2 | exact Hstop | lia | nia].
  cbn [mbind option_bind].
  pose proof (decimal_bound fs (decimal 0 ds) Hfs ltac:(lia)) as Bf.
  rewrite decimal_app.
  assert (Hp : 10 ^ Z.of_nat (length fs) * 10 ^ Z.of_nat (3 - length fs)
               = 10 ^ 3).
  { rewrite <- Z.pow_add_r by lia. f_equal. lia. }
  assert (0 < 10 ^ Z.of_nat (3 - length fs))
    by (apply Z.pow_pos_nonneg; lia).
  rewrite atoi_pad_small; [reflexivity | lia | nia].
Qed.

Lemma nmea_atoi_thousandths_witness :
  nmea_atoi (str "1040.9") = Some (0, 1040900).
Proof.
  apply (nmea_atoi_thousandths (str "1040") (str "9") []).
  - repeat constructor.
  - repeat constructor.
  - vm_compute. lia.
  - vm_compute. lia.
  - right. exact I.
Defined.

(** X10: without a decimal point behind its leading digits (at most
    eighteen of them), [nmea_atoi] returns -1, but [*dst] has been
    overwritten by then: it holds the number the leading digits spell, 0 if
    there are none. *)
Theorem nmea_atoi_no_point (ds rest : list Z) :
  digits ds -> (length ds <= 18)%nat ->
  no_digit_next rest -> hd NUL rest <> c_dot ->
  nmea_atoi (ds ++ rest) = Some (-1, decimal 0 ds).
Proof.
  intros Hds Hl Hstop Hdot.
  unfold nmea_atoi.
  assert (P : 10 ^ Z.of_nat (length ds) <= 10 ^ 18)
    by (apply Z.pow_le_mono_r; lia).
  rewrite atoi_int_digits; [| exact Hds | exact Hstop | lia | lia].
  cbn [mbind option_bind].
  destruct rest as [|c rest]; [reflexivity|].
  simpl in Hdot. apply Z.eqb_neq in Hdot. rewrite Hdot. reflexivity.
Qed.

Lemma nmea_atoi_no_point_witness :
  nmea_atoi (str "1040M") = Some (-1, 1040).
Proof.
  apply (nmea_atoi_no_point (str "1040") (str "M")).
  - repeat constructor.
  - vm_compute. lia.
  - reflexivity.
  - vm_compute. discriminate.
Defined.

(** ** Degrees and minutes *)

Lemma degrees_loop_run cond l : forall rest n acc,
  (forall j, (j < length l)%nat -> cond (n + j)%nat = true) ->
  degrees_loop cond (l ++ rest) n acc
  = degrees_loop cond rest (n + length l)%nat (accumulate acc l).
Proof.
  induction l as [|c l IH]; intros rest n acc H.
  - simpl. rewrite Nat.add_0_r. reflexivity.
  - simpl app. cbn [degrees_loop].
    pose proof (H 0%nat ltac:(simpl; lia)) as H0.
    rewrite Nat.add_0_r in H0. rewrite H0.
    rewrite IH.
    + replace (n + length (c :: l))%nat with (S n + length l)%nat
        by (simpl; lia).
      reflexivity.
    + intros j Hj. replace (S n + j)%nat with (n + S j)%nat by lia.
      apply H. simpl. lia.
Qed.

Lemma degrees_loop_stop cond rest n acc :
  rest = [] \/ cond n = false ->
  degrees_loop cond rest n acc = (rest, n, acc).
Proof.
  intros [-> | H]; [reflexivity|].
  destruct rest; [reflexivity|]. simpl. rewrite H. reflexivity.
Qed.

Lemma find_point_dot l : forall ppos rest,
  Forall (fun c => c <> c_dot) l ->
  find_point (l ++ c_dot :: rest) ppos = ((ppos + length l)%nat, rest).
Proof.
  induction l as [|c l IH]; intros ppos rest H.
  - simpl. rewrite Nat.add_0_r. reflexivity.
  - inversion H as [|? ? Hc Hl]; subst.
    simpl. apply Z.eqb_neq in Hc. rewrite Hc.
    rewrite IH by exact Hl. f_equal. lia.
Qed.

Lemma skip_zeroes_app l rest :
  skip_zeroes (l ++ c_dot :: rest) = skip_zeroes l ++ c_dot :: rest.
Proof.
  induction l as [|c l IH]; [reflexivity|].
  simpl. destruct (c =? c_0); [exact IH | reflexivity].
Qed.

Lemma skip_zeroes_suffix l : exists z, l = z ++ skip_zeroes l.
Proof.
  induction l as [|c l [z IH]]; [exists []; reflexivity|].
  simpl. destruct (c =? c_0).
  - exists (c :: z). simpl. f_equal. exact IH.
  - exists []. reflexivity.
Qed.

Lemma skip_zeroes_no_dot l :
  Forall (fun c => c <> c_dot) l ->
  Forall (fun c => c <> c_dot) (skip_zeroes l).
Proof.
  intros H. destruct (skip_zeroes_suffix l) as [z E].
  rewrite E in H. apply Forall_app in H. tauto.
Qed.

(** X11: what [nmea_degrees] computes from a field [int ++ "." ++ frac]
    with a decimal point and at least one character behind it.  The field
    is given as received, with its leading zeroes; [nmea_degrees] drops
    them itself.  Of what is left in front of the point, the characters
    but the last two are the degrees; the last two, followed by the first four decimals, are the
    minutes in ten-thousandths, and are divided by 600000; decimals beyond
    the fourth are not read.  The characters are not checked to be digits,
    and with fewer than four decimals the minutes are not rescaled.  A
    hemisphere flag other than 0 changes the sign. *)
Theorem nmea_degrees_value (dst : float) (int frac : list Z) (neg : Z) :
  Forall (fun c => c <> c_dot) int -> frac <> [] ->
  let kept := skip_zeroes int in
  let k := (length kept - 2)%nat in
  nmea_degrees dst (int ++ c_dot :: frac) neg
  = (0, hemisphere neg
          (accumulate 0 (take k kept)
           + accumulate 0 (drop k kept ++ take 4 frac) / 600000)%float).
Proof.
  intros Hint Hfrac. cbv zeta.
  unfold nmea_degrees. rewrite skip_zeroes_app.
  apply skip_zeroes_no_dot in Hint.
  revert Hint. generalize (skip_zeroes int). clear int. intros int Hint.
  rewrite find_point_dot by exact Hint. simpl Nat.add.
  destruct frac as [|f0 frac]; [congruence|]. clear Hfrac.
  set (k := (length int - 2)%nat).
  rewrite <- (take_drop k int) at 1. rewrite <- app_assoc.
  rewrite degrees_loop_run.
  2:{ intros j Hj. rewrite length_take in Hj. apply Nat.ltb_lt. lia. }
  rewrite degrees_loop_stop.
  2:{ right. apply Nat.ltb_ge. rewrite length_take. lia. }
  rewrite degrees_loop_run.
  2:{ intros j Hj. rewrite length_take, length_drop in *.
      apply Nat.ltb_lt. lia. }
  rewrite degrees_loop_stop.
  2:{ right. apply Nat.ltb_ge. rewrite length_take, length_drop. lia. }
  cbn [tl].
  rewrite <- (take_drop 4 (f0 :: frac)) at 1.
  rewrite degrees_loop_run.
  2:{ intros j Hj. rewrite !length_take, length_drop in *.
      apply Nat.ltb_lt. lia. }
  rewrite degrees_loop_stop.
  2:{ rewrite !length_take, !length_drop.
      destruct (Nat.le_gt_cases 4 (length (f0 :: frac))).
      - right. apply Nat.ltb_ge. lia.
      - left. apply nil_length_inv. rewrite length_drop. lia. }
  unfold hemisphere, accumulate. rewrite fold_left_app. reflexivity.
Qed.

Lemma nmea_degrees_value_witness :
  nmea_degrees 0 (str "00830.00009") 1
  = (0, (- (accumulate 0 (str "8")
            + accumulate 0 (str "300000") / 600000))%float).
Proof.
  apply (nmea_degrees_value 0 (str "00830") (str "00009") 1).
  - repeat constructor; vm_compute; discriminate.
  - discriminate.
Defined.

(** With one decimal the minutes 30.5 count as 305 ten-thousandths:
    47 degrees and 0.0005 minutes instead of 47 degrees 30.5 minutes. *)
Example nmea_degrees_one_decimal :
  nmea_degrees 0 (str "4730.5") 0 = nmea_degrees 0 (str "4700.0305") 0.
Proof. vm_compute. reflexivity. Qed.

Lemma point_inside_cons x l :
  x <> c_dot -> point_inside (x :: l) <-> point_inside l.
Proof.
  intros Hx. split; intros (a & c & b & E).
  - destruct a as [|y a]; simpl in E; [congruence|].
    injection E as _ E. exists a, c, b. exact E.
  - exists (x :: a), c, b. simpl. f_equal. exact E.
Qed.

Lemma find_point_inside l : forall ppos,
  snd (find_point l ppos) = [] <-> ~ point_inside l.
Proof.
  induction l as [|x l IH]; intros ppos.
  - simpl. split; [|reflexivity].
    intros _ (a & c & b & E). destruct a; discriminate.
  - simpl. destruct (x =? c_dot) eqn:Hx.
    + apply Z.eqb_eq in Hx. subst x. simpl. split.
      * intros -> (a & c & b & E).
        destruct a as [|y a]; [discriminate|].
        destruct a; discriminate.
      * intros H. destruct l as [|c b]; [reflexivity|].
        exfalso. apply H. exists [], c, b. reflexivity.
    + apply Z.eqb_neq in Hx.
      rewrite (point_inside_cons x l Hx). apply IH.
Qed.

Lemma find_point_some l : forall ppos,
  snd (find_point l ppos) <> [] -> point_inside l.
Proof.
  induction l as [|x l IH]; intros ppos; simpl; [congruence|].
  destruct (x =? c_dot) eqn:Hx.
  - apply Z.eqb_eq in Hx. subst x. simpl.
    destruct l as [|c b]; [congruence|].
    intros _. exists [], c, b. reflexivity.
  - intros H. apply Z.eqb_neq in Hx.
    apply (point_inside_cons x l Hx). exact (IH _ H).
Qed.

Lemma skip_zeroes_inside l : point_inside (skip_zeroes l) <-> point_inside l.
Proof.
  induction l as [|x l IH]; [reflexivity|].
  simpl. destruct (x =? c_0) eqn:Hx; [|reflexivity].
  apply Z.eqb_eq in Hx. subst x.
  rewrite IH. symmetry. apply point_inside_cons. discriminate.
Qed.

(** X12: [nmea_degrees] returns 0 exactly for a field that has a decimal
    point with a character behind it, and refuses every other field (none,
    or one that ends in its point, as 4700.) with -1, leaving [*dst] as it
    was. *)
Theorem nmea_degrees_refuses (dst : float) (src : list Z) (neg : Z) :
  (fst (nmea_degrees dst src neg) = 0 <-> point_inside src) /\
  (nmea_degrees dst src neg = (-1, dst) <-> ~ point_inside src).
Proof.
  rewrite <- skip_zeroes_inside.
  pose proof (find_point_inside (skip_zeroes src) 0) as Hnone.
  pose proof (find_point_some (skip_zeroes src) 0) as Hsome.
  unfold nmea_degrees.
  destruct (find_point (skip_zeroes src) 0) as [ppos p].
  destruct p as [|c p]; simpl snd in *.
  - apply proj1 in Hnone. specialize (Hnone eq_refl).
    simpl. split; split; try tauto; discriminate.
  - specialize (Hsome ltac:(discriminate)).
    repeat match goal with
    | |- context [let '(_, _) := ?x in _] => destruct x as [[? ?] ?]
    end.
    simpl. split; split; try tauto; discriminate.
Qed.

Lemma nmea_degrees_refuses_witness :
  nmea_degrees 8.5 (str "4700.") 0 = (-1, 8.5%float).
Proof.
  apply (proj2 (nmea_degrees_refuses 8.5 (str "4700.") 0)).
  intros (a & c & b & E). vm_compute in E.
  repeat (destruct a as [|? a]; simpl in E; try discriminate E).
Defined.

(** ** An RMC sentence of twelve fields *)

Section Twelve.

Variable atof : list Z -> float.

(** X13: [nmea_gprmc] lets a sentence of twelve fields pass its field
    count, and then reads [fld[12]], the thirteenth entry, which
    [nmea_scan] has not assigned for such a sentence: once the time and the
    date are accepted, what the function does is not defined. *)
Theorem rmc_twelve_fields_undefined (np : nmea) (fld : list nat)
    (f1 f9 : nat) (t1 t9 : struct_tm) :
  length fld = 12%nat ->
  fld !! 1%nat = Some f1 ->
  fld !! 9%nat = Some f9 ->
  nmea_time (cbuf np) f1 (tm np) = Some (0, t1) ->
  nmea_date (cbuf np) f9 t1 = Some (0, t9) ->
  nmea_gprmc atof np fld = None.
Proof.
  intros Hlen H1 H9 Htime Hdate.
  unfold nmea_gprmc. rewrite Hlen. cbn [Nat.ltb Nat.leb orb].
  rewrite H1. cbn [mbind option_bind].
  rewrite Htime. cbn [mbind option_bind Z.eqb negb].
  rewrite H9. cbn [mbind option_bind set_tm cbuf tm].
  rewrite Hdate. cbn [mbind option_bind Z.eqb negb].
  rewrite (lookup_ge_None_2 fld 12) by lia.
  reflexivity.
Qed.

End Twelve.

Lemma rmc_twelve_fields_undefined_witness :
  nmea_gprmc atof_zero
    (set_cbuf (collected rmc_twelve) (cut (cbuf (collected rmc_twelve))))
    (0%nat :: offsets 0 (str rmc_twelve)) = None.
Proof.
  apply (rmc_twelve_fields_undefined atof_zero
           (set_cbuf (collected rmc_twelve)
              (cut (cbuf (collected rmc_twelve))))
           (0%nat :: offsets 0 (str rmc_twelve))
           6 48 (mk_tm 23 37 14 0 0 0) (mk_tm 23 37 14 2 12 124)).
  - reflexivity.
  - reflexivity.
  - reflexivity.
  - reflexivity.
  - reflexivity.
Defined.

(** The sentence as the device sends it. *)
Example rmc_twelve_fields_from_device (atof : list Z -> float) :
  nmea_feed atof (c_dollar :: str rmc_twelve ++ [c_cr]) started = None.
Proof. vm_compute. reflexivity. Qed.

End NmeaFieldFacts.

(** * A GGA sentence without checksum *)

Module NmeaGgaFacts.
Import Nmea NmeaFacts NmeaScanFacts.

(** A character that is neither a separator nor a terminator. *)
Definition plain (c : Z) : Prop :=
  c <> NUL /\ c <> c_star /\ c <> c_comma.

Lemma length_offsets l : forall n,
  length (offsets n l) = separators (before_star l).
Proof.
  induction l as [|c l IH]; intros n; simpl; [reflexivity|].
  destruct (c =? c_star); [reflexivity|]. simpl.
  destruct (c =? c_comma); simpl; rewrite IH; reflexivity.
Qed.

Lemma before_star_all l : after_star l = None -> before_star l = l.
Proof.
  induction l as [|c l IH]; simpl; [reflexivity|].
  destruct (c =? c_star); [discriminate|].
  intros H. rewrite IH by exact H. reflexivity.
Qed.

Lemma strncmp_prefix lit : forall buf off,
  Forall (fun c => c <> NUL) lit ->
  take (length lit) (drop off buf) = lit ->
  strncmp buf off lit (length lit) = Some 0.
Proof.
  induction lit as [|d lit IH]; intros buf off Hlit Htake; [reflexivity|].
  inversion Hlit as [|? ? Hd Hlit']; subst.
  destruct (drop off buf) as [|c rest] eqn:E; [discriminate|].
  simpl in Htake. injection Htake as -> Htake.
  destruct (NmeaFieldFacts.drop_next _ _ _ _ E) as [Hrest Hc].
  simpl. rewrite Hc. simpl. rewrite Z.eqb_refl.
  apply Z.eqb_neq in Hd. rewrite Hd.
  apply IH; [exact Hlit'|]. rewrite Hrest. exact Htake.
Qed.

Lemma cut_plain l : forall k tail,
  Forall plain (take k l) -> (k <= length l)%nat ->
  take k (cut l ++ tail) = take k l.
Proof.
  induction l as [|c l IH]; intros k tail Hp Hk.
  - simpl in Hk. replace k with 0%nat by lia. reflexivity.
  - destruct k; [reflexivity|].
    simpl in Hp. inversion Hp as [|? ? (_ & Hs & Hc) Hp']; subst.
    apply Z.eqb_neq in Hs, Hc. simpl. rewrite Hs, Hc. simpl.
    f_equal. apply IH; [exact Hp' | simpl in Hk; lia].
Qed.

Lemma talker_plain tk : tk ∈ talkers -> Forall plain tk /\ length tk = 2%nat.
Proof.
  unfold talkers. rewrite !elem_of_cons, elem_of_nil.
  intros [->|[->|[->|[->|[->|[]]]]]]; split; try reflexivity;
    repeat constructor; vm_compute; discriminate.
Qed.

Lemma known_talker_prefix buf tk :
  tk ∈ talkers -> take 2 buf = tk -> (2 <= length buf)%nat ->
  known_talker buf 0 = Some true.
Proof.
  intros Htk Htake Hlen.
  assert (Hz : strncmp buf 0 tk 2 = Some 0).
  { destruct (talker_plain tk Htk) as [Hp Hl]. rewrite <- Hl.
    apply strncmp_prefix.
    - eapply Forall_impl; [exact Hp|]. intros c Hc. apply Hc.
    - rewrite Hl, drop_0. exact Htake. }
  unfold known_talker.
  destruct (strncmp_defined (str "BD") 2 buf 0) as [bd Hbd]; [lia|].
  destruct (strncmp_defined (str "GA") 2 buf 0) as [ga Hga]; [lia|].
  destruct (strncmp_defined (str "GL") 2 buf 0) as [gl Hgl]; [lia|].
  destruct (strncmp_defined (str "GN") 2 buf 0) as [gn Hgn]; [lia|].
  destruct (strncmp_defined (str "GP") 2 buf 0) as [gp Hgp]; [lia|].
  rewrite Hbd, Hga, Hgl, Hgn, Hgp. cbn [mbind option_bind]. f_equal.
  unfold talkers in Htk. rewrite !elem_of_cons, elem_of_nil in Htk.
  destruct Htk as [->|[->|[->|[->|[->|[]]]]]].
  - rewrite Hz in Hbd. injection Hbd as <-. reflexivity.
  - rewrite Hz in Hga. injection Hga as <-. apply orb_true_iff. left.
    apply orb_true_iff. left. apply orb_true_iff. left.
    apply orb_true_iff. right. reflexivity.
  - rewrite Hz in Hgl. injection Hgl as <-. apply orb_true_iff. left.
    apply orb_true_iff. left. apply orb_true_iff. right. reflexivity.
  - rewrite Hz in Hgn. injection Hgn as <-. apply orb_true_iff. left.
    apply orb_true_iff. right. reflexivity.
  - rewrite Hz in Hgp. injection Hgp as <-. apply orb_true_iff. right.
    reflexivity.
Qed.

Section Gga.

Variable atof : list Z -> float.

(** X14: a GGA sentence of fifteen fields from one of the five talkers,
    sent without a checksum, is decoded unchecked: at its terminator the
    altitude becomes what [atof] makes of the tenth field, whatever that
    field holds, the locator becomes what [nmea_locator] computes from the
    coordinates the decoder holds (the sentence's own are not read), and
    the time, the status, the coordinates, the speed and the mode stay as
    they were. *)
Theorem gga_without_checksum_decoded (np : nmea) (c : Z) :
  c = c_cr \/ c = c_lf ->
  collecting_ok np ->
  sync np = 0 ->
  Forall (fun c => c <> NUL) (sentence np) ->
  after_star (sentence np) = None ->
  take 2 (sentence np) ∈ talkers ->
  take 3 (drop 2 (sentence np)) = str "GGA" ->
  separators (sentence np) = 14%nat ->
  exists np' f9,
    nmea_input atof c np = Some np' /\
    split_commas (sentence np) !! 9%nat = Some f9 /\
    altitude np' = atof f9 /\
    locator np' = locator (snd (nmea_locator np)) /\
    keeps_position np np' /\
    sync np' = 1.
Proof.
  intros Hc Hok Hsync Hnul Hstar Htk Hgga Hsep.
  rewrite (nmea_input_terminator atof np c Hc Hok Hsync).
  destruct Hok as [Hlen Hpos]. specialize (Hpos Hsync).
  unfold nmea_scan.
  pose proof (scan_split_closed
                (set_cbuf np (<[pos np:=NUL]> (cbuf np)))) as Hclosed.
  unfold sentence in *. cbn [cbuf pos set_cbuf] in Hclosed.
  rewrite length_insert, take_insert_ge in Hclosed by lia.
  specialize (Hclosed ltac:(lia)).
  rewrite drop_insert_ge, Nat.sub_diag in Hclosed by lia.
  assert (Hnul' : exists tail,
            <[0%nat:=NUL]> (drop (pos np) (cbuf np)) = NUL :: tail).
  { destruct (drop (pos np) (cbuf np)) as [|x tail] eqn:E.
    - apply (f_equal length) in E. rewrite length_drop in E.
      simpl in E. lia.
    - eexists. reflexivity. }
  destruct Hnul' as [tail Htail]. rewrite Htail in Hclosed.
  set (S0 := take (pos np) (cbuf np)) in *.
  rewrite (before_star_all S0 Hstar) in Hclosed.
  rewrite Hsep in Hclosed. cbn [Nat.ltb Nat.leb MAXFLDS] in Hclosed.
  rewrite Hclosed. cbn [mbind option_bind sp_cbuf sp_fld sp_cs sp_cksum].
  cbn [lookup list_lookup]. cbn [mbind option_bind cbuf set_cbuf].
  set (post := cut S0 ++ NUL :: tail) in *.
  assert (H5 : (5 <= length S0)%nat).
  { apply (f_equal length) in Hgga.
    rewrite length_take, length_drop in Hgga.
    change (length (str "GGA")) with 3%nat in Hgga. lia. }
  assert (Hpost : (5 <= length post)%nat).
  { unfold post. rewrite length_app, length_cut. lia. }
  destruct (talker_plain _ Htk) as [Htkp _].
  assert (Hggap : Forall plain (str "GGA"))
    by (repeat constructor; vm_compute; discriminate).
  assert (Hplain : Forall plain (take 5 S0)).
  { change 5%nat with (2 + 3)%nat. rewrite <- take_take_drop.
    apply Forall_app. split; [exact Htkp|]. rewrite Hgga. exact Hggap. }
  assert (Htake5 : take 5 post = take 5 S0)
    by (apply cut_plain; [exact Hplain | lia]).
  assert (Htake2 : take 2 post = take 2 S0).
  { apply (f_equal (take 2)) in Htake5.
    rewrite !take_take in Htake5. exact Htake5. }
  assert (Htake3 : take 3 (drop 2 post) = str "GGA").
  { rewrite <- Hgga.
    apply (f_equal (drop 2)) in Htake5.
    change 5%nat with (2 + 3)%nat in Htake5.
    rewrite <- !take_drop_commute in Htake5. exact Htake5. }
  rewrite (known_talker_prefix post _ Htk Htake2) by lia.
  cbn [mbind option_bind negb Nat.add].
  assert (HG : post !! 2%nat = Some (chr "G")).
  { apply (f_equal (fun l => l !! 0%nat)) in Htake3.
    rewrite lookup_take_lt, lookup_drop in Htake3 by lia. exact Htake3. }
  assert (Hrmc : strncmp post 2 (str "RMC") 3 = Some (chr "G" - chr "R")).
  { unfold strncmp. rewrite HG. reflexivity. }
  assert (Hgga0 : strncmp post 2 (str "GGA") 3 = Some 0).
  { apply (strncmp_prefix (str "GGA")).
    - eapply Forall_impl; [exact Hggap|]. intros x Hx. apply Hx.
    - exact Htake3. }
  rewrite Hrmc. cbn [mbind option_bind].
  rewrite Hgga0. cbn [mbind option_bind].
  change (negb (chr "G" - chr "R" =? 0) && negb (0 =? 0)) with false.
  cbv iota.
  unfold star_offset. rewrite Hstar.
  unfold scan_decode. cbn [cbuf set_cbuf Nat.add].
  rewrite Hrmc. cbn [mbind option_bind].
  change (chr "G" - chr "R" =? 0) with false.
  cbv iota. cbn [mbind option_bind cbuf set_cbuf].
  rewrite Hgga0. cbn [mbind option_bind].
  change (0 =? 0) with true. cbv iota.
  unfold nmea_decode_gga. cbn [length].
  rewrite length_offsets, (before_star_all S0 Hstar), Hsep.
  cbn [Nat.eqb negb cbuf set_cbuf].
  destruct (fields_of_cut S0 0 [] (NUL :: tail))
    as (first & others & Hsplit & _ & Hrest);
    [constructor
    | rewrite (before_star_all S0 Hstar); exact Hnul
    | intros _; eexists; reflexivity |].
  rewrite (before_star_all S0 Hstar) in Hsplit.
  assert (Hlo : length (offsets 0 S0) = 14%nat)
    by (rewrite length_offsets, (before_star_all S0 Hstar); exact Hsep).
  destruct (lookup_lt_is_Some_2 (offsets 0 S0) 8 ltac:(lia)) as [o Ho].
  destruct (Forall2_lookup_l _ _ _ _ _ Hrest Ho) as (f9 & Hf9 & Hcs).
  change ((0%nat :: offsets 0 S0) !! 9%nat) with (offsets 0 S0 !! 8%nat).
  rewrite Ho. cbn [mbind option_bind].
  unfold cstring. rewrite Nat.sub_0_r in Hcs. fold post in Hcs.
  rewrite Hcs. cbn [mbind option_bind].
  eexists _, f9. split; [reflexivity|].
  split; [rewrite Hsplit; exact Hf9|].
  unfold nmea_locator. cbn [latitude longitude set_altitude set_cbuf].
  destruct (_ || _); cbn; repeat split; reflexivity.
Qed.

End Gga.

Lemma gga_without_checksum_decoded_witness :
  exists np' f9,
    nmea_input atof_zero c_cr
      (collected "GNGGA,085901.00,1234.5678,N,00987.12345,E,1,12,0.84,1040.9,M,47.4,M,,")
    = Some np' /\
    split_commas
      (sentence
         (collected "GNGGA,085901.00,1234.5678,N,00987.12345,E,1,12,0.84,1040.9,M,47.4,M,,"))
      !! 9%nat = Some f9 /\
    altitude np' = atof_zero f9 /\
    locator np'
    = locator
        (snd (nmea_locator
                (collected "GNGGA,085901.00,1234.5678,N,00987.12345,E,1,12,0.84,1040.9,M,47.4,M,,"))) /\
    keeps_position
      (collected "GNGGA,085901.00,1234.5678,N,00987.12345,E,1,12,0.84,1040.9,M,47.4,M,,")
      np' /\
    sync np' = 1.
Proof.
  apply (gga_without_checksum_decoded atof_zero
           (collected "GNGGA,085901.00,1234.5678,N,00987.12345,E,1,12,0.84,1040.9,M,47.4,M,,")
           c_cr).
  - left. reflexivity.
  - apply collected_ok. vm_compute. lia.
  - reflexivity.
  - repeat constructor; vm_compute; discriminate.
  - reflexivity.
  - unfold talkers. rewrite !elem_of_cons.
    right. right. right. left. reflexivity.
  - reflexivity.
  - reflexivity.
Defined.

(** A decoder that holds 47 degrees north, 8.5 degrees east and no locator
    yet has the locator JN47GA after that sentence, whose own coordinates
    are others. *)
Example gga_recomputes_locator :
  let np :=
    set_longitude
      (set_latitude
         (collected "GNGGA,085901.00,1234.5678,N,00987.12345,E,1,12,0.84,1040.9,M,47.4,M,,")
         47%float) 8.5%float in
  locator np = repeat NUL 7 /\
  exists np',
    nmea_input atof_zero c_cr np = Some np' /\
    locator np' = str "JN47GA" ++ [NUL] /\
    latitude np' = 47%float /\ longitude np' = 8.5%float.
Proof.
  split; [reflexivity|]. eexists. split; [vm_compute; reflexivity|].
  repeat split; reflexivity.
Qed.

(** The tenth field of that sentence. *)
Example gga_tenth_field :
  split_commas
    (str "GNGGA,085901.00,1234.5678,N,00987.12345,E,1,12,0.84,1040.9,M,47.4,M,,")
    !! 9%nat = Some (str "1040.9").
Proof. reflexivity. Qed.

End NmeaGgaFacts.

(** * An RMC sentence of twelve fields, from the device *)

Module NmeaRmcFacts.
Import Nmea NmeaFacts NmeaScanFacts NmeaFieldFacts NmeaGgaFacts.

(** A date of six digits is accepted. *)
Lemma nmea_date_accepts (buf : list Z) (s : nat) (t : struct_tm)
    (d : list Z) :
  cstring buf s = Some d -> length d = 6%nat -> digits d ->
  exists t', nmea_date buf s t = Some (0, t').
Proof.
  unfold cstring, digits. intros H Hl Hd.
  destruct (cstring_of_inv _ _ H) as (tail & E & Hf). clear H.
  do 6 (destruct d as [|? d]; [discriminate Hl|]).
  destruct d; [|discriminate Hl]. clear Hl.
  assert (Hread : forall k,
            buf !! (s + k)%nat
            = ([z; z0; z1; z2; z3; z4] ++ NUL :: tail) !! k)
    by (intros k; rewrite <- lookup_drop, E; reflexivity).
  unfold nmea_date. rewrite !Hread.
  replace (buf !! s) with (([z; z0; z1; z2; z3; z4] ++ NUL :: tail) !! 0%nat)
    by (rewrite <- Hread; f_equal; lia).
  simpl app in *. repeat next_char.
  repeat match goal with
  | H : Forall _ (_ :: _) |- _ => inversion H; clear H; subst
  end.
  repeat match goal with
  | H : ?c <> NUL |- _ => apply Z.eqb_neq in H; rewrite ?H
  end.
  repeat match goal with
  | H : is_digit ?c = true |- _ => rewrite ?H; clear H
  end.
  cbn. eexists. reflexivity.
Qed.

Section Rmc.

Variable atof : list Z -> float.

(** X25: an RMC sentence of twelve fields from one of the five talkers,
    sent without a checksum and with a date of six digits, as receivers
    older than NMEA 2.3 send it, takes the decoder into the read of
    [fld[12]]: at the terminator of such a sentence what [nmea_input] does
    is not defined, whatever the other fields hold. *)
Theorem rmc_twelve_fields_from_input (np : nmea) (c : Z) (date : list Z) :
  c = c_cr \/ c = c_lf ->
  collecting_ok np ->
  sync np = 0 ->
  Forall (fun c => c <> NUL) (sentence np) ->
  after_star (sentence np) = None ->
  take 2 (sentence np) ∈ talkers ->
  take 3 (drop 2 (sentence np)) = str "RMC" ->
  separators (sentence np) = 11%nat ->
  split_commas (sentence np) !! 9%nat = Some date ->
  length date = 6%nat -> digits date ->
  nmea_input atof c np = None.
Proof.
  intros Hc Hok Hsync Hnul Hstar Htk Hrmc Hsep Hdate Hdl Hdd.
  rewrite (nmea_input_terminator atof np c Hc Hok Hsync).
  destruct Hok as [Hlen Hpos]. specialize (Hpos Hsync).
  unfold nmea_scan.
  pose proof (scan_split_closed
                (set_cbuf np (<[pos np:=NUL]> (cbuf np)))) as Hclosed.
  unfold sentence in *. cbn [cbuf pos set_cbuf] in Hclosed.
  rewrite length_insert, take_insert_ge in Hclosed by lia.
  specialize (Hclosed ltac:(lia)).
  rewrite drop_insert_ge, Nat.sub_diag in Hclosed by lia.
  assert (Hnul' : exists tail,
            <[0%nat:=NUL]> (drop (pos np) (cbuf np)) = NUL :: tail).
  { destruct (drop (pos np) (cbuf np)) as [|x tail] eqn:E.
    - apply (f_equal length) in E. rewrite length_drop in E.
      simpl in E. lia.
    - eexists. reflexivity. }
  destruct Hnul' as [tail Htail]. rewrite Htail in Hclosed.
  set (S0 := take (pos np) (cbuf np)) in *.
  rewrite (before_star_all S0 Hstar) in Hclosed.
  rewrite Hsep in Hclosed. cbn [Nat.ltb Nat.leb MAXFLDS] in Hclosed.
  rewrite Hclosed. cbn [mbind option_bind sp_cbuf sp_fld sp_cs sp_cksum].
  cbn [lookup list_lookup]. cbn [mbind option_bind cbuf set_cbuf].
  set (post := cut S0 ++ NUL :: tail) in *.
  assert (H5 : (5 <= length S0)%nat).
  { apply (f_equal length) in Hrmc.
    rewrite length_take, length_drop in Hrmc.
    change (length (str "RMC")) with 3%nat in Hrmc. lia. }
  assert (Hpost : (5 <= length post)%nat).
  { unfold post. rewrite length_app, length_cut. lia. }
  destruct (talker_plain _ Htk) as [Htkp _].
  assert (Hrmcp : Forall plain (str "RMC"))
    by (repeat constructor; vm_compute; discriminate).
  assert (Hplain : Forall plain (take 5 S0)).
  { change 5%nat with (2 + 3)%nat. rewrite <- take_take_drop.
    apply Forall_app. split; [exact Htkp|]. rewrite Hrmc. exact Hrmcp. }
  assert (Htake5 : take 5 post = take 5 S0)
    by (apply cut_plain; [exact Hplain | lia]).
  assert (Htake2 : take 2 post = take 2 S0).
  { apply (f_equal (take 2)) in Htake5.
    rewrite !take_take in Htake5. exact Htake5. }
  assert (Htake3 : take 3 (drop 2 post) = str "RMC").
  { rewrite <- Hrmc.
    apply (f_equal (drop 2)) in Htake5.
    change 5%nat with (2 + 3)%nat in Htake5.
    rewrite <- !take_drop_commute in Htake5. exact Htake5. }
  rewrite (known_talker_prefix post _ Htk Htake2) by lia.
  cbn [mbind option_bind negb Nat.add].
  assert (Hrmc0 : strncmp post 2 (str "RMC") 3 = Some 0).
  { apply (strncmp_prefix (str "RMC")).
    - eapply Forall_impl; [exact Hrmcp|]. intros x Hx. apply Hx.
    - exact Htake3. }
  destruct (strncmp_defined (str "GGA") 3 post 2) as [gga Hgga]; [lia|].
  rewrite Hrmc0. cbn [mbind option_bind].
  rewrite Hgga. cbn [mbind option_bind].
  change (negb (0 =? 0)) with false. cbn [andb].
  unfold star_offset. rewrite Hstar.
  unfold scan_decode. cbn [cbuf set_cbuf Nat.add].
  rewrite Hrmc0. cbn [mbind option_bind].
  change (0 =? 0) with true. cbv iota.
  assert (Hlo : length (offsets 0 S0) = 11%nat)
    by (rewrite length_offsets, (before_star_all S0 Hstar); exact Hsep).
  destruct (fields_of_cut S0 0 [] (NUL :: tail))
    as (first & others & Hsplit & _ & Hrest);
    [constructor
    | rewrite (before_star_all S0 Hstar); exact Hnul
    | intros _; eexists; reflexivity |].
  rewrite (before_star_all S0 Hstar) in Hsplit.
  rewrite Hsplit in Hdate.
  change ((first :: others) !! 9%nat) with (others !! 8%nat) in Hdate.
  destruct (Forall2_lookup_r _ _ _ _ _ Hrest Hdate) as (o9 & Ho9 & Hcs).
  rewrite Nat.sub_0_r in Hcs. fold post in Hcs.
  destruct (lookup_lt_is_Some_2 (offsets 0 S0) 0 ltac:(lia)) as [o1 Ho1].
  assert (Hnone : nmea_gprmc atof
                    (set_cbuf (set_cbuf np (<[pos np:=NUL]> (cbuf np))) post)
                    (0%nat :: offsets 0 S0) = None).
  { unfold nmea_gprmc. cbn [length]. rewrite Hlo.
    cbn [Nat.ltb Nat.leb orb].
    change ((0%nat :: offsets 0 S0) !! 1%nat) with (offsets 0 S0 !! 0%nat).
    rewrite Ho1. cbn [mbind option_bind cbuf set_cbuf tm].
    destruct (nmea_time post o1 (tm np)) as [[rc t1]|] eqn:Htime;
      [|reflexivity].
    apply nmea_time_never_fails in Htime as Hrc. subst rc.
    cbn [mbind option_bind Z.eqb negb cbuf set_cbuf set_tm tm].
    change ((0%nat :: offsets 0 S0) !! 9%nat) with (offsets 0 S0 !! 8%nat).
    rewrite Ho9. cbn [mbind option_bind].
    destruct (nmea_date_accepts post o9 t1 date Hcs Hdl Hdd) as [t9 ->].
    cbn [mbind option_bind Z.eqb negb cbuf set_cbuf set_tm tm].
    rewrite (lookup_ge_None_2 (0%nat :: offsets 0 S0) 12)
      by (cbn [length]; lia).
    reflexivity. }
  rewrite Hnone. reflexivity.
Qed.

End Rmc.

Lemma rmc_twelve_fields_from_input_witness :
  nmea_input atof_zero c_cr (collected rmc_twelve) = None.
Proof.
  apply (rmc_twelve_fields_from_input atof_zero (collected rmc_twelve) c_cr
           (str "021224")).
  - left. reflexivity.
  - apply collected_ok. vm_compute. lia.
  - reflexivity.
  - repeat constructor; vm_compute; discriminate.
  - reflexivity.
  - unfold talkers. rewrite !elem_of_cons.
    right. right. right. right. left. reflexivity.
  - reflexivity.
  - reflexivity.
  - reflexivity.
  - reflexivity.
  - repeat constructor.
Defined.

End NmeaRmcFacts.

(** * Properties of the websocket listener *)

Module WebsocketFacts.
Import Websocket.

Section Handshake.

Variable wsParseHandshake : string -> wsFrameType * struct_handshake.
Variable wsGetHandshakeAnswer : struct_handshake -> string.
Variable versionField : string.
Variable version : string.
Variable log_connections : Z.

Local Abbreviation handshake_of :=
  (websocket_handshake wsParseHandshake wsGetHandshakeAnswer versionField
     version).

(** C1 fails on the code: the result of the read is used unchecked.  When
    [recv] or [SSL_read] fails, and when it fills the buffer, the store
    [buf[nread] = 0] goes outside the buffer: the negotiation answers
    nothing the claim names, its behaviour is not defined, whatever the
    request and the configured path. *)
Theorem handshake_read_unchecked (w : websocket_t) (path : string) :
  handshake_of w path RecvError = None /\
  forall req : string,
    BUFSIZE <= Z.of_nat (String.length req) ->
    handshake_of w path (RecvData req) = None.
Proof.
  split; [reflexivity|].
  intros req Hlen. unfold websocket_handshake.
  apply Z.ltb_ge in Hlen. rewrite Hlen. reflexivity.
Qed.

(** For a request that was read and left room for the terminator,
    negotiation ends in one of three ways.  An opening frame for the
    configured path: the answer [wsGetHandshakeAnswer] wrote is sent and 0
    returned.  An opening frame for another path: the 404 reply is sent
    and -1 returned.  Anything else: the 400 reply is sent and -1
    returned. *)
Lemma websocket_handshake_outcomes (w : websocket_t) (path req : string) :
  Z.of_nat (String.length req) < BUFSIZE ->
  let frame := fst (wsParseHandshake req) in
  let hs := snd (wsParseHandshake req) in
  (frame = WS_OPENING_FRAME -> hs_resource hs = path ->
   handshake_of w path (RecvData req)
     = Some ([EvSend (socket w) (wsGetHandshakeAnswer hs)], 0)) /\
  (frame = WS_OPENING_FRAME -> hs_resource hs <> path ->
   handshake_of w path (RecvData req)
     = Some ([reply w (("HTTP/1.1 404 Not Found" ++ crlf) ++ crlf)], -1)) /\
  (frame <> WS_OPENING_FRAME ->
   handshake_of w path (RecvData req)
     = Some ([reply w (("HTTP/1.1 400 Bad Request" ++ crlf)
                       ++ ((versionField ++ version) ++ crlf) ++ crlf)],
             -1)).
Proof.
  intros Hlen frame hs. subst frame hs.
  unfold websocket_handshake.
  apply Z.ltb_lt in Hlen. rewrite Hlen.
  destruct (wsParseHandshake req) as [f h]. simpl.
  split; [|split].
  - intros -> Hp. apply String.eqb_eq in Hp. rewrite Hp. reflexivity.
  - intros -> Hp. apply String.eqb_neq in Hp. rewrite Hp. reflexivity.
  - intros Hf. destruct f; [contradiction|reflexivity].
Qed.

Local Abbreviation accept_one_of :=
  (accept_one wsParseHandshake wsGetHandshakeAnswer versionField version
     log_connections).

(** What the listener does with an accepted connection never includes
    closing a descriptor, and a handler thread is started only after a
    handshake that returned 0. *)
Lemma accept_one_events (t : websocket_listener_t) (lfd : Z)
    (c : connection) (tr : list event) (go_on : bool) :
  accept_one_of t lfd c = Some (tr, go_on) ->
  (forall fd, ~ In (EvClose fd) tr) /\
  (forall fd, In (EvPthreadCreate fd) tr ->
     exists sent,
       handshake_of (mk_websocket (conn_fd c) None) (handshake t)
         (conn_recv c) = Some (sent, 0)).
Proof.
  unfold accept_one. destruct (conn_fd c <? 0).
  - intros [= <- <-]. split.
    + intros fd [H|[H|[]]]; discriminate H.
    + intros fd [H|[H|[]]]; discriminate H.
  - destruct (websocket_handshake _ _ _ _ _ _ _) as [[sent rv]|] eqn:Hhs;
      simpl; [|discriminate].
    intros [= <- <-].
    assert (Hsent : forall e, In e sent ->
              (exists d, e = EvSend (conn_fd c) d) \/
              (exists s d, e = EvSSLWrite s d)).
    { unfold websocket_handshake, reply in Hhs. simpl in Hhs.
      destruct (conn_recv c) as [|buf]; [discriminate|].
      destruct (Z.of_nat (String.length buf) <? BUFSIZE); [|discriminate].
      destruct (wsParseHandshake buf) as [[] h].
      - destruct (String.eqb (hs_resource h) (handshake t));
          injection Hhs as <- _; intros e [<-|[]]; left; eexists; reflexivity.
      - injection Hhs as <- _. intros e [<-|[]]. left. eexists. reflexivity. }
    split.
    + intros fd [H|H]; [discriminate H|].
      rewrite !in_app_iff in H. destruct H as [H|[H|[H|H]]].
      * destruct (negb (conn_nameinfo c =? 0)); [destruct H as [H|[]]|];
          [discriminate H | destruct H].
      * destruct (negb (log_connections =? 0)); [destruct H as [H|[]]|];
          [discriminate H | destruct H].
      * destruct (Hsent _ H) as [[d Hd]|(s & d & Hd)]; discriminate Hd.
      * destruct (rv =? 0); [destruct H as [H|[]]|];
          [discriminate H | destruct H].
    + intros fd [H|H]; [discriminate H|].
      rewrite !in_app_iff in H. destruct H as [H|[H|[H|H]]].
      * destruct (negb (conn_nameinfo c =? 0)); [destruct H as [H|[]]|];
          [discriminate H | destruct H].
      * destruct (negb (log_connections =? 0)); [destruct H as [H|[]]|];
          [discriminate H | destruct H].
      * destruct (Hsent _ H) as [[d Hd]|(s & d & Hd)]; discriminate Hd.
      * destruct (rv =? 0) eqn:Hrv; [|destruct H].
        apply Z.eqb_eq in Hrv. subst rv. exists sent. reflexivity.
Qed.

End Handshake.

(** ** The listening sockets *)

Section Setup.

Variable wsParseHandshake : string -> wsFrameType * struct_handshake.
Variable wsGetHandshakeAnswer : struct_handshake -> string.
Variable versionField : string.
Variable version : string.
Variable log_connections : Z.

Local Abbreviation listener_of :=
  (websocket_listener wsParseHandshake wsGetHandshakeAnswer versionField
     version log_connections).
Local Abbreviation loop_of :=
  (listener_loop wsParseHandshake wsGetHandshakeAnswer versionField version
     log_connections).

(** A round in which [select] times out. *)
Definition timeout (rd : round) : Prop := sel_result rd = 0.

Lemma listener_loop_timeouts t listen_fd rounds :
  Forall timeout rounds ->
  loop_of t listen_fd rounds
    = Some (repeat (EvSelect (filter (fun fd => fd <> -1) listen_fd))
              (length rounds), Polling).
Proof.
  induction 1 as [|rd rounds Hrd _ IH]; simpl; [reflexivity|].
  unfold timeout in Hrd. rewrite Hrd, IH. reflexivity.
Qed.

End Setup.

(** ** A stand-in for websocket.c *)

(** Stand-ins for the parameters, enough to run the listener: a request
    is the line [GET resource key], and the answer quotes the key. *)
Definition parse_line (buf : string) : wsFrameType * struct_handshake :=
  if String.prefix "GET " buf then
    let rest := substring 4 (String.length buf - 4) buf in
    match index 0 " " rest with
    | Some n =>
        (WS_OPENING_FRAME,
         mk_handshake (substring 0 n rest)
           (substring (S n) (String.length rest - S n) rest))
    | None => (WS_OTHER_FRAME, mk_handshake "" "")
    end
  else (WS_OTHER_FRAME, mk_handshake "" "").

Definition answer_line (hs : struct_handshake) : string :=
  (line "HTTP/1.1 101 Switching Protocols"
   ++ line ("Sec-WebSocket-Accept: " ++ hs_key hs) ++ crlf)%string.

Definition trxd_listener : websocket_listener_t :=
  mk_listener "localhost" "14290" "/trx-control".

Definition run_listener :=
  websocket_listener parse_line answer_line "Sec-WebSocket-Version: " "13" 0
    trxd_listener.

(** A listening socket 3 set up without failure. *)
Definition good_candidate : candidate := mk_candidate 3 0 0 0 0.

(** A candidate for which [socket] fails. *)
Definition no_socket : candidate := mk_candidate (-1) 0 0 0 0.

Definition idle : round :=
  mk_round 0 false [] (fun _ => mk_connection (-1) 0 RecvError).

(** One connection, 4, waiting on socket 3 with the request [req]. *)
Definition one_request (req : string) : round :=
  mk_round 1 false [3] (fun _ => mk_connection 4 0 (RecvData req)).

(** A connection that is reset before it sends anything: the read
    fails. *)
Definition reset_connection : round :=
  mk_round 1 false [3] (fun _ => mk_connection 4 0 RecvError).

(** A request for the configured path, padded with blanks to the 65535
    bytes of the buffer. *)
Fixpoint blanks (n : nat) : string :=
  match n with
  | O => EmptyString
  | S n' => String " " (blanks n')
  end.

Definition full_request : string :=
  ("GET /trx-control dGhlIHNhbXBsZSBub25jZQ=="
   ++ blanks (Z.to_nat 65494))%string.

(** The unchecked read, on the way through the listener: with either
    connection the behaviour of the listener is not defined; the request
    of 65535 bytes is one the claim promises an answer for. *)
Example listener_reads_unchecked :
  Z.of_nat (String.length full_request) = BUFSIZE /\
  fst (parse_line full_request) = WS_OPENING_FRAME /\
  hs_resource (snd (parse_line full_request)) = handshake trxd_listener /\
  run_listener (GaiOk [good_candidate]) [one_request full_request] = None /\
  run_listener (GaiOk [good_candidate]) [reset_connection] = None.
Proof. repeat split; vm_compute; reflexivity. Qed.

(** C8, as stated, fails: with [socket] failing for both candidates the
    listener neither exits nor returns; it polls an empty set of
    descriptors, turn after turn. *)
Lemma listener_polls_without_sockets :
  run_listener (GaiOk [no_socket; no_socket]) [idle; idle]
  = Some ([EvSelect []; EvSelect []], Polling).
Proof. vm_compute. reflexivity. Qed.

(** C7 fails on the code: a request for another path is answered with the
    404 reply, and that is all: no handler is started, but descriptor 4
    is not closed either, in this turn or in the next. *)
Theorem failed_handshake_leaves_socket_open :
  run_listener (GaiOk [good_candidate])
    [one_request "GET /other dGhlIHNhbXBsZSBub25jZQ=="; idle]
  = Some ([EvSelect [3]; EvAccept 3 4; EvSend 4 not_found; EvSelect [3]],
          Polling).
Proof. vm_compute. reflexivity. Qed.

(** The same listener with a request for the configured path. *)
Example accepted_handshake_starts_handler :
  run_listener (GaiOk [good_candidate])
    [one_request "GET /trx-control dGhlIHNhbXBsZSBub25jZQ=="]
  = Some ([EvSelect [3]; EvAccept 3 4;
           EvSend 4 (answer_line (mk_handshake "/trx-control"
                                    "dGhlIHNhbXBsZSBub25jZQ=="));
           EvPthreadCreate 4], Polling).
Proof. vm_compute. reflexivity. Qed.

End WebsocketFacts.

(** * Properties of the listening sockets and of the accept loop *)

Module WebsocketListenerFacts.
Import Websocket WebsocketFacts.

(** A candidate for which all five calls of the setup loop succeed. *)
Definition usable (c : candidate) : bool :=
  (0 <=? c_socket c) && (c_fcntl c =? 0) && (c_setsockopt c =? 0)
  && (c_bind c =? 0) && (c_listen c =? 0).

(** What one turn of the setup loop logs and closes. *)
Definition setup_step (c : candidate) : list event :=
  let skip (call : string) := [EvSyslog call; EvClose (c_socket c)] in
  if c_socket c <? 0 then []
  else if negb (c_fcntl c =? 0) then skip "fcntl"%string
  else if negb (c_setsockopt c =? 0) then skip "setsockopt"%string
  else if negb (c_bind c =? 0) then skip "bind"%string
  else if negb (c_listen c =? 0) then skip "listen"%string
  else [].

Lemma listen_setup_full res listen_fd i :
  (MAXLISTEN <= i)%nat -> listen_setup res listen_fd i = ([], listen_fd, i).
Proof.
  intros H. destruct res as [|c res]; [reflexivity|].
  simpl. apply Nat.ltb_ge in H. rewrite H. reflexivity.
Qed.

(** One turn of the setup loop. *)
Lemma listen_setup_cons c res listen_fd i :
  (i < MAXLISTEN)%nat ->
  listen_setup (c :: res) listen_fd i
  = (let '(tr, fds, n) :=
       listen_setup res (<[i:=c_socket c]> listen_fd)
         (if usable c then S i else i) in
     (setup_step c ++ tr, fds, n)).
Proof.
  intros Hi. apply Nat.ltb_lt in Hi.
  cbn [listen_setup]. rewrite Hi. unfold usable, setup_step.
  destruct (c_socket c <? 0) eqn:Hs.
  { replace (0 <=? c_socket c) with false by lia. cbn [andb].
    destruct (listen_setup res _ i) as [[tr' fds] n]. reflexivity. }
  replace (0 <=? c_socket c) with true by lia. cbn [andb].
  destruct (c_fcntl c =? 0); cbn [negb andb];
    [|destruct (listen_setup res _ i) as [[tr' fds] n]; reflexivity].
  destruct (c_setsockopt c =? 0); cbn [negb andb];
    [|destruct (listen_setup res _ i) as [[tr' fds] n]; reflexivity].
  destruct (c_bind c =? 0); cbn [negb andb];
    [|destruct (listen_setup res _ i) as [[tr' fds] n]; reflexivity].
  destruct (c_listen c =? 0); cbn [negb andb];
    destruct (listen_setup res _ _) as [[tr' fds] n]; reflexivity.
Qed.

Lemma setup_step_closes c :
  usable c = false -> 0 <= c_socket c ->
  exists call, setup_step c = [EvSyslog call; EvClose (c_socket c)].
Proof.
  unfold usable, setup_step. intros Hu Hs.
  replace (c_socket c <? 0) with false by lia.
  replace (0 <=? c_socket c) with true in Hu by lia. cbn [andb] in Hu.
  destruct (c_fcntl c =? 0); cbn [negb andb] in *; [|eexists; reflexivity].
  destruct (c_setsockopt c =? 0); cbn [negb andb] in *;
    [|eexists; reflexivity].
  destruct (c_bind c =? 0); cbn [negb andb] in *; [|eexists; reflexivity].
  destruct (c_listen c =? 0); cbn [negb andb] in *;
    [discriminate | eexists; reflexivity].
Qed.

Lemma listen_setup_nil listen_fd i :
  listen_setup [] listen_fd i = ([], listen_fd, i).
Proof. reflexivity. Qed.

#[local] Arguments listen_setup : simpl never.

Lemma listen_setup_spec res : forall listen_fd i,
  (i <= MAXLISTEN)%nat -> length listen_fd = MAXLISTEN ->
  let ok := take (MAXLISTEN - i) (List.filter usable res) in
  let r := listen_setup res listen_fd i in
  snd r = (i + length ok)%nat /\
  take (snd r) (snd (fst r)) = take i listen_fd ++ map c_socket ok /\
  length (snd (fst r)) = MAXLISTEN.
Proof.
  induction res as [|c res IH]; intros listen_fd i Hi Hlen; cbv zeta.
  - rewrite listen_setup_nil. cbn. rewrite take_nil. cbn.
    rewrite Nat.add_0_r, app_nil_r. auto.
  - destruct (Nat.eq_dec i MAXLISTEN) as [->|Hne].
    { rewrite listen_setup_full by lia. rewrite Nat.sub_diag, take_0.
      cbn [snd fst length map]. rewrite Nat.add_0_r, app_nil_r. auto. }
    rewrite listen_setup_cons by lia.
    cbn [List.filter].
    destruct (usable c) eqn:Hu.
    + specialize (IH (<[i:=c_socket c]> listen_fd) (S i) ltac:(lia)
                    ltac:(rewrite length_insert; exact Hlen)).
      cbv zeta in IH.
      destruct (listen_setup res (<[i:=c_socket c]> listen_fd) (S i))
        as [[tr' fds] n].
      cbn [snd fst] in *. destruct IH as (Hn & Htake & Hl).
      replace (MAXLISTEN - i)%nat with (S (MAXLISTEN - S i)) by lia.
      cbn [take length map]. split; [lia|]. split; [|exact Hl].
      rewrite Htake.
      rewrite (take_S_r _ _ (c_socket c))
        by (apply list_lookup_insert_eq; lia).
      rewrite take_insert_ge by lia. rewrite <- app_assoc. reflexivity.
    + specialize (IH (<[i:=c_socket c]> listen_fd) i ltac:(lia)
                    ltac:(rewrite length_insert; exact Hlen)).
      cbv zeta in IH.
      destruct (listen_setup res (<[i:=c_socket c]> listen_fd) i)
        as [[tr' fds] n].
      cbn [snd fst] in *. destruct IH as (Hn & Htake & Hl).
      split; [exact Hn|]. split; [|exact Hl].
      rewrite Htake, take_insert_ge by lia. reflexivity.
Qed.

Lemma listen_setup_app r1 : forall r2 listen_fd i,
  listen_setup (r1 ++ r2) listen_fd i
  = (let '(tr1, fds1, n1) := listen_setup r1 listen_fd i in
     let '(tr2, fds2, n2) := listen_setup r2 fds1 n1 in
     (tr1 ++ tr2, fds2, n2)).
Proof.
  induction r1 as [|c r1 IH]; intros r2 listen_fd i.
  - rewrite listen_setup_nil. cbn [app].
    destruct (listen_setup r2 listen_fd i) as [[tr2 fds2] n2].
    reflexivity.
  - destruct (Nat.lt_ge_cases i MAXLISTEN) as [Hi|Hi].
    + cbn [app]. rewrite !listen_setup_cons by exact Hi. rewrite IH.
      destruct (listen_setup r1 _ _) as [[tr1 fds1] n1].
      destruct (listen_setup r2 fds1 n1) as [[tr2 fds2] n2].
      rewrite app_assoc. reflexivity.
    + rewrite !listen_setup_full by exact Hi. reflexivity.
Qed.

(** X15: when the setup loop is through, [i] counts the candidates for
    which [socket], [fcntl], [setsockopt], [bind] and [listen] all
    succeeded, up to [MAXLISTEN] of them, and [listen_fd[0 .. i-1]] holds
    their sockets in the order [getaddrinfo] gave them; the array keeps its
    [MAXLISTEN] entries. *)
Theorem listen_setup_sockets (res : list candidate) :
  let ok := take MAXLISTEN (List.filter usable res) in
  let r := listen_setup res (repeat (-1) MAXLISTEN) 0 in
  snd r = length ok /\
  take (snd r) (snd (fst r)) = map c_socket ok /\
  length (snd (fst r)) = MAXLISTEN.
Proof.
  pose proof (listen_setup_spec res (repeat (-1) MAXLISTEN) 0
                ltac:(lia) ltac:(apply repeat_length)) as H.
  cbv zeta in *. rewrite Nat.sub_0_r in H. exact H.
Qed.

(** The candidates the setup loop gets to: one after the other, until
    [room] sockets are set up. *)
Fixpoint tried (room : nat) (res : list candidate) : list candidate :=
  match room, res with
  | S room', c :: res' => c :: tried (if usable c then room' else room) res'
  | _, _ => []
  end.

Lemma listen_setup_trace res : forall listen_fd i,
  (i <= MAXLISTEN)%nat ->
  fst (fst (listen_setup res listen_fd i))
  = flat_map setup_step (tried (MAXLISTEN - i) res).
Proof.
  induction res as [|c res IH]; intros listen_fd i Hi.
  - rewrite listen_setup_nil. destruct (MAXLISTEN - i)%nat; reflexivity.
  - destruct (Nat.eq_dec i MAXLISTEN) as [->|Hne].
    { rewrite listen_setup_full by lia. rewrite Nat.sub_diag. reflexivity. }
    rewrite listen_setup_cons by lia.
    replace (MAXLISTEN - i)%nat with (S (MAXLISTEN - S i)) by lia.
    cbn [tried flat_map].
    destruct (usable c) eqn:Hu.
    + specialize (IH (<[i:=c_socket c]> listen_fd) (S i) ltac:(lia)).
      destruct (listen_setup res (<[i:=c_socket c]> listen_fd) (S i))
        as [[tr fds] n].
      cbn [fst] in *. rewrite IH. reflexivity.
    + specialize (IH (<[i:=c_socket c]> listen_fd) i ltac:(lia)).
      destruct (listen_setup res (<[i:=c_socket c]> listen_fd) i)
        as [[tr fds] n].
      cbn [fst] in *. rewrite IH.
      replace (S (MAXLISTEN - S i)) with (MAXLISTEN - i)%nat by lia.
      reflexivity.
Qed.

Lemma filter_tried res : forall room,
  List.filter usable (tried room res) = take room (List.filter usable res).
Proof.
  induction res as [|c res IH]; intros [|room]; try reflexivity.
  cbn [tried List.filter]. destruct (usable c) eqn:Hu.
  - cbn [take]. rewrite IH. reflexivity.
  - apply IH.
Qed.

Section Loop.

Variable wsParseHandshake : string -> wsFrameType * struct_handshake.
Variable wsGetHandshakeAnswer : struct_handshake -> string.
Variable versionField : string.
Variable version : string.
Variable log_connections : Z.

Local Abbreviation listener_of :=
  (websocket_listener wsParseHandshake wsGetHandshakeAnswer versionField
     version log_connections).
Local Abbreviation loop_of :=
  (listener_loop wsParseHandshake wsGetHandshakeAnswer versionField version
     log_connections).
Local Abbreviation accept_loop_of :=
  (accept_loop wsParseHandshake wsGetHandshakeAnswer versionField version
     log_connections).
Local Abbreviation handshake_of :=
  (websocket_handshake wsParseHandshake wsGetHandshakeAnswer versionField
     version).

(** Every turn of the loop begins with [select] on the entries of
    [listen_fd] that are not -1. *)
Lemma listener_loop_select t listen_fd rd rounds tr p :
  loop_of t listen_fd (rd :: rounds) = Some (tr, p) ->
  exists tr', tr = EvSelect (filter (fun fd => fd <> -1) listen_fd) :: tr'.
Proof.
  cbn [listener_loop].
  destruct ((sel_result rd <? 0) && negb (sel_eintr rd)).
  { intros [= <- <-]. eexists. reflexivity. }
  destruct (sel_result rd =? 0).
  - destruct (listener_loop _ _ _ _ _ t listen_fd rounds) as [[tr' p']|];
      [|discriminate].
    cbn. intros [= <- <-]. eexists. reflexivity.
  - destruct (accept_loop _ _ _ _ _ t listen_fd rd) as [tr0|];
      [|discriminate].
    cbn.
    destruct (listener_loop _ _ _ _ _ t listen_fd rounds) as [[tr' p']|];
      [|discriminate].
    cbn. intros [= <- <-]. eexists. reflexivity.
Qed.

(** X16: when the last candidate gets a socket and a later call fails
    for it, the setup loop closes the socket and leaves its number in
    [listen_fd]: the first [select] of the listener, right after the
    [close], has the closed descriptor in its set. *)
Theorem closed_socket_is_polled (t : websocket_listener_t)
    (res : list candidate) (c : candidate) (rd : round)
    (rounds : list round) (tr : list event) (p : progress) :
  usable c = false -> 0 <= c_socket c ->
  (length (List.filter usable res) < MAXLISTEN)%nat ->
  listener_of t (GaiOk (res ++ [c])) (rd :: rounds) = Some (tr, p) ->
  exists setup fds tr',
    tr = setup ++ EvClose (c_socket c) :: EvSelect fds :: tr' /\
    In (c_socket c) fds.
Proof.
  intros Hu Hs Hres. unfold websocket_listener.
  rewrite listen_setup_app.
  pose proof (listen_setup_spec res (repeat (-1) MAXLISTEN) 0
                ltac:(lia) ltac:(apply repeat_length)) as Hspec.
  cbv zeta in Hspec. rewrite Nat.sub_0_r in Hspec.
  destruct (listen_setup res (repeat (-1) MAXLISTEN) 0) as [[tr1 fds1] n1].
  cbn [fst snd] in Hspec. destruct Hspec as (Hn & _ & Hl).
  rewrite length_take in Hn.
  rewrite listen_setup_cons by lia. rewrite Hu, listen_setup_nil.
  destruct (setup_step_closes c Hu Hs) as [call ->].
  destruct (loop_of t (<[n1:=c_socket c]> fds1) (rd :: rounds))
    as [[tr2 p2]|] eqn:Hloop; [|discriminate].
  cbn. intros [= <- <-].
  destruct (listener_loop_select _ _ _ _ _ _ Hloop) as [tr' ->].
  exists (tr1 ++ [EvSyslog call]),
    (filter (fun fd => fd <> -1) (<[n1:=c_socket c]> fds1)), tr'.
  split.
  - rewrite <- !app_assoc. reflexivity.
  - apply list_elem_of_In, list_elem_of_filter. split; [lia|].
    apply (list_elem_of_lookup_2 _ n1), list_lookup_insert_eq. lia.
Qed.

Lemma accept_loop_events t listen_fd rd : forall tr,
  accept_loop_of t listen_fd rd = Some tr -> forall fd, ~ In (EvClose fd) tr.
Proof.
  induction listen_fd as [|lfd rest IH]; intros tr; cbn [accept_loop].
  - intros [= <-] fd [].
  - destruct ((lfd =? -1) || negb (fd_isset lfd (sel_ready rd)));
      [apply IH|].
    destruct (accept_one _ _ _ _ _ t lfd _) as [[tr1 go_on]|] eqn:H1;
      [|discriminate].
    apply accept_one_events in H1. destruct H1 as [H1 _].
    cbn. destruct go_on.
    + destruct (accept_loop _ _ _ _ _ t rest rd) as [tr2|]; [|discriminate].
      cbn. intros [= <-] fd Hin. apply in_app_iff in Hin.
      destruct Hin as [Hin|Hin]; [exact (H1 fd Hin) | exact (IH _ eq_refl fd Hin)].
    + intros [= <-]. exact H1.
Qed.

(** X17: once in its loop the listener closes no descriptor, neither an
    accepted connection nor a listening socket; and the loop is left only
    on the path that logs the failure of [select], closes the log and
    returns 0, the listening sockets still open. *)
Theorem listener_loop_never_closes (t : websocket_listener_t)
    (listen_fd : list Z) (rounds : list round) (tr : list event)
    (p : progress) :
  loop_of t listen_fd rounds = Some (tr, p) ->
  (forall fd, ~ In (EvClose fd) tr) /\
  (p = Polling \/
   p = Returned 0 /\
   exists tr', tr = tr' ++ [EvSyslog "select"%string; EvCloselog]).
Proof.
  revert tr p. induction rounds as [|rd rounds IH]; intros tr p;
    cbn [listener_loop].
  - intros [= <- <-]. split; [intros fd []| left; reflexivity].
  - destruct ((sel_result rd <? 0) && negb (sel_eintr rd)).
    { intros [= <- <-]. split.
      - intros fd [H|[H|[H|[]]]]; discriminate H.
      - right. split; [reflexivity|]. exists [EvSelect (filter (fun fd => fd <> -1) listen_fd)]. reflexivity. }
    assert (Hgo : forall tr0,
              (forall fd, ~ In (EvClose fd) tr0) ->
              ('(tr', p0) ← loop_of t listen_fd rounds;
               Some (EvSelect (filter (fun fd => fd <> -1) listen_fd)
                       :: tr0 ++ tr', p0)) = Some (tr, p) ->
              (forall fd, ~ In (EvClose fd) tr) /\
              (p = Polling \/
               p = Returned 0 /\
               exists tr', tr = tr' ++ [EvSyslog "select"%string; EvCloselog])).
    { intros tr0 H0.
      destruct (loop_of t listen_fd rounds) as [[tr' p0]|]; [|discriminate].
      cbn. intros [= <- <-].
      destruct (IH _ _ eq_refl) as [Hc Hp]. split.
      - intros fd [H|H]; [discriminate H|].
        apply in_app_iff in H. destruct H as [H|H];
          [exact (H0 fd H) | exact (Hc fd H)].
      - destruct Hp as [->|(-> & tr'' & ->)]; [left; reflexivity|].
        right. split; [reflexivity|].
        exists (EvSelect (filter (fun fd => fd <> -1) listen_fd)
                  :: tr0 ++ tr'').
        cbn. rewrite <- app_assoc. reflexivity. }
    destruct (sel_result rd =? 0).
    + apply (Hgo []). intros fd [].
    + destruct (accept_loop_of t listen_fd rd) as [tr0|] eqn:Ha;
        [|discriminate].
      cbn. apply Hgo. exact (accept_loop_events _ _ _ _ Ha).
Qed.

(** X18: on a connection with a TLS session, a refusal (404 or 400) is
    written through TLS, but the answer to an accepted handshake is sent
    on the socket itself, past TLS. *)
Theorem handshake_answer_bypasses_tls (w : websocket_t) (s : Z)
    (path : string) (r : recv_result) (tr : list event) (rv : Z) :
  ssl w = Some s ->
  handshake_of w path r = Some (tr, rv) ->
  (rv = 0 /\ exists answer, tr = [EvSend (socket w) answer]) \/
  (rv = -1 /\ exists refusal, tr = [EvSSLWrite s refusal]).
Proof.
  intros Hs. unfold websocket_handshake, reply. rewrite Hs.
  destruct r as [|buf]; [discriminate|].
  destruct (Z.of_nat (String.length buf) <? BUFSIZE); [|discriminate].
  destruct (wsParseHandshake buf) as [[] hs].
  - destruct (String.eqb (hs_resource hs) path); intros [= <- <-].
    + left. split; [reflexivity | eexists; reflexivity].
    + right. split; [reflexivity | eexists; reflexivity].
  - intros [= <- <-]. right. split; [reflexivity | eexists; reflexivity].
Qed.

(** C8, as amended: only a failure of [getaddrinfo] ends the listener
    before its loop, through [exit].  With the addresses resolved, the
    setup loop takes the candidates one after the other until [MAXLISTEN]
    sockets are set up.  A candidate whose [socket] fails leaves no trace;
    one whose [fcntl], [setsockopt], [bind] or [listen] fails leaves the
    log entry of that call and the [close] of its socket; one that is set
    up leaves nothing; and in each case the loop goes on to the next
    candidate.  Then the listener polls, whether or not any candidate was
    set up: after any number of timeouts it has called [select] that
    many times, each time with the socket of every candidate that was set
    up in its set, and is still in its loop. *)
Theorem listener_setup_never_aborts (t : websocket_listener_t)
    (res0 : list candidate) (rounds : list round) :
  Forall timeout rounds ->
  listener_of t GaiError rounds
    = Some ([EvSyslog "getaddrinfo"; EvExit 1], Exited 1) /\
  exists polled,
    listener_of t (GaiOk res0) rounds
      = Some (flat_map setup_step (tried MAXLISTEN res0)
              ++ repeat (EvSelect polled) (length rounds), Polling) /\
    forall c, In c (tried MAXLISTEN res0) -> usable c = true ->
      In (c_socket c) polled.
Proof.
  intros Hrounds. split; [reflexivity|].
  unfold websocket_listener.
  pose proof (listen_setup_trace res0 (repeat (-1) MAXLISTEN) 0
                ltac:(lia)) as Htrace.
  pose proof (listen_setup_spec res0 (repeat (-1) MAXLISTEN) 0
                ltac:(lia) ltac:(apply repeat_length)) as Hspec.
  cbv zeta in Hspec. rewrite Nat.sub_0_r in Htrace, Hspec.
  destruct (listen_setup res0 (repeat (-1) MAXLISTEN) 0)
    as [[setup listen_fd] n].
  cbn [fst snd] in Htrace, Hspec. destruct Hspec as (_ & Htake & _).
  exists (filter (fun fd => fd <> -1) listen_fd). split.
  - rewrite (listener_loop_timeouts _ _ _ _ _ t listen_fd rounds Hrounds).
    cbn [mbind option_bind]. rewrite Htrace. reflexivity.
  - intros c Hin Hu.
    apply list_elem_of_In, list_elem_of_filter. split.
    + unfold usable in Hu. rewrite !andb_true_iff in Hu. lia.
    + assert (Hc : In c (take MAXLISTEN (List.filter usable res0))).
      { rewrite <- filter_tried. apply filter_In. split; assumption. }
      apply (in_map c_socket) in Hc. rewrite take_0 in Htake.
      cbn [app] in Htake. rewrite <- Htake in Hc.
      apply list_elem_of_In in Hc. apply elem_of_take in Hc.
      destruct Hc as (k & Hk & _).
      exact (list_elem_of_lookup_2 _ _ _ Hk).
Qed.

End Loop.

(** A candidate whose address is in use, on descriptor 5. *)
Definition address_in_use : candidate := mk_candidate 5 0 0 (-1) 0.

Lemma closed_socket_is_polled_witness :
  exists setup fds tr',
    [EvSyslog "bind"; EvClose 5; EvSelect [3; 5]]
    = setup ++ EvClose (c_socket address_in_use) :: EvSelect fds :: tr' /\
    In (c_socket address_in_use) fds.
Proof.
  apply (closed_socket_is_polled parse_line answer_line
           "Sec-WebSocket-Version: " "13" 0 trxd_listener
           [good_candidate] address_in_use idle []
           [EvSyslog "bind"; EvClose 5; EvSelect [3; 5]] Polling).
  - reflexivity.
  - vm_compute. discriminate.
  - vm_compute. lia.
  - vm_compute. reflexivity.
Defined.

Lemma listener_loop_never_closes_witness :
  (forall fd,
     ~ In (EvClose fd)
         [EvSelect [3]; EvAccept 3 4; EvSend 4 not_found; EvSelect [3]]) /\
  (Polling = Polling \/
   Polling = Returned 0 /\
   exists tr',
     [EvSelect [3]; EvAccept 3 4; EvSend 4 not_found; EvSelect [3]]
     = tr' ++ [EvSyslog "select"; EvCloselog]).
Proof.
  apply (listener_loop_never_closes parse_line answer_line
           "Sec-WebSocket-Version: " "13" 0 trxd_listener
           (3 :: repeat (-1) 15)
           [one_request "GET /other dGhlIHNhbXBsZSBub25jZQ=="; idle]).
  vm_compute. reflexivity.
Defined.

Lemma handshake_answer_bypasses_tls_witness :
  (0 = 0 /\
   exists answer,
     [EvSend 4 (answer_line (mk_handshake "/trx-control" "a2V5"))]
     = [EvSend (socket (mk_websocket 4 (Some 7))) answer]) \/
  (0 = -1 /\
   exists refusal,
     [EvSend 4 (answer_line (mk_handshake "/trx-control" "a2V5"))]
     = [EvSSLWrite 7 refusal]).
Proof.
  apply (handshake_answer_bypasses_tls parse_line answer_line
           "Sec-WebSocket-Version: " "13" (mk_websocket 4 (Some 7)) 7
           "/trx-control" (RecvData "GET /trx-control a2V5")).
  - reflexivity.
  - vm_compute. reflexivity.
Defined.

Lemma listener_setup_never_aborts_witness :
  run_listener GaiError [idle; idle]
    = Some ([EvSyslog "getaddrinfo"; EvExit 1], Exited 1) /\
  exists polled,
    run_listener (GaiOk [no_socket; address_in_use; good_candidate])
      [idle; idle]
    = Some (flat_map setup_step
              (tried MAXLISTEN [no_socket; address_in_use; good_candidate])
            ++ repeat (EvSelect polled) 2, Polling) /\
    forall c,
      In c (tried MAXLISTEN [no_socket; address_in_use; good_candidate]) ->
      usable c = true -> In (c_socket c) polled.
Proof.
  apply (listener_setup_never_aborts parse_line answer_line
           "Sec-WebSocket-Version: " "13" 0 trxd_listener
           [no_socket; address_in_use; good_candidate] [idle; idle]).
  repeat constructor.
Defined.

(** The run of the witness: the candidate without a socket leaves nothing,
    the one whose address is in use is logged and closed, the third is
    set up, and its socket is polled at each of the two timeouts. *)
Example setup_skips_and_goes_on :
  run_listener (GaiOk [no_socket; address_in_use; good_candidate])
    [idle; idle]
  = Some ([EvSyslog "bind"; EvClose 5; EvSelect [3]; EvSelect [3]],
          Polling).
Proof. vm_compute. reflexivity. Qed.

End WebsocketListenerFacts.

(** * Properties of the controller thread *)

Module TrxControlFacts.
Import TrxControl.

(** The events that open the device or reach for a file. *)
Definition touches_files (e : event) : Prop :=
  match e with
  | EvOpen _ | EvStat _ | EvLuaDofile _ => True
  | _ => False
  end.

(** The events that run something a driver table holds. *)
Definition calls_driver (e : event) : Prop :=
  match e with
  | EvLuaCall _ => True
  | _ => False
  end.

Section Facts.

Variable PATH_TRX : string.
Variable PATH_INIT : string.

Local Abbreviation control := (trx_control PATH_TRX PATH_INIT).
Local Abbreviation driver_of := (trx_driver PATH_TRX).

(** C10: a driver name with a slash in it is refused with one log entry,
    the running flag cleared, and nothing else done; hence whenever the
    thread opens the device, looks for a file or runs one, the name it
    built the driver path from has no slash. *)
Theorem slash_in_trx_type_rejected (controller : controller_t) (w : world) :
  (strchr (trx_type controller) "/" = true ->
   control controller w
     = ([EvSyslog "trx-type must not contain slashes"], 0)) /\
  (forall e, In e (fst (control controller w)) -> touches_files e ->
     strchr (trx_type controller) "/" = false).
Proof.
  unfold trx_control. split.
  - intros H. rewrite H. reflexivity.
  - destruct (strchr (trx_type controller) "/"); [|reflexivity].
    simpl. intros e [<-|[]] H. destruct H.
Qed.

Lemma tty_setup_no_driver_call w fd field :
  ~ In (EvLuaCall field) (tty_setup w fd).
Proof.
  unfold tty_setup.
  destruct (w_isatty w fd); [|intros []].
  destruct (w_tcgetattr w fd <? 0); [intros [H|[]]; discriminate H|].
  destruct (w_tcsetattr w fd <? 0); simpl; intuition discriminate.
Qed.

(** The thread never runs anything a driver table holds. *)
Lemma trx_control_no_driver_call controller w :
  Forall (fun e => ~ calls_driver e) (fst (control controller w)).
Proof.
  apply List.Forall_forall. intros e He Hcall.
  destruct e; try destruct Hcall.
  pose proof (tty_setup_no_driver_call w (w_open w (device controller))
                field) as Htty.
  unfold trx_control in He.
  repeat match type of He with
  | context [if ?b then _ else _] => destruct b
  end; simpl in He; rewrite ?in_app_iff in He; simpl in He;
    intuition discriminate.
Qed.

(** C5, as amended: when the device opens, the Lua state is made and the
    driver file is there, the thread runs the driver file and, if the
    initialisation script exists, that script, and nothing of what the
    driver table holds, so not its [initialize]; a Lua error in either file
    is logged, after which the state is closed and the thread returns with
    the running flag cleared. *)
Theorem trx_control_loads_driver (controller : controller_t) (w : world) :
  strchr (trx_type controller) "/" = false ->
  w_open w (device controller) <> -1 ->
  w_newstate w = true ->
  w_stat w (driver_of (trx_type controller)) = 0 ->
  let tr := fst (control controller w) in
  let driver := driver_of (trx_type controller) in
  In (EvLuaDofile driver) tr /\
  Forall (fun e => ~ calls_driver e) tr /\
  (w_dofile w driver <> 0 ->
   exists before,
     control controller w
       = (before ++ [EvLuaDofile driver; EvSyslog "Lua error"; EvLuaClose],
          0)) /\
  (w_dofile w driver = 0 -> w_stat w PATH_INIT = 0 ->
   w_dofile w PATH_INIT <> 0 ->
   exists before,
     control controller w
       = (before ++ [EvLuaDofile PATH_INIT; EvSyslog "Lua error";
                     EvLuaClose], 0)) /\
  (w_dofile w driver = 0 -> w_stat w PATH_INIT = 0 ->
   In (EvLuaDofile PATH_INIT) tr).
Proof.
  intros Hslash Hopen Hnew Hstat tr driver. subst tr driver.
  split; [|split; [apply trx_control_no_driver_call|]].
  - unfold trx_control. rewrite Hslash.
    apply Z.eqb_neq in Hopen. rewrite Hopen, Hnew, Hstat. simpl.
    repeat match goal with
    | |- context [if ?b then _ else _] => destruct b
    end; simpl; rewrite ?in_app_iff; simpl; tauto.
  - unfold trx_control. rewrite Hslash.
    apply Z.eqb_neq in Hopen. rewrite Hopen, Hnew, Hstat. simpl.
    split; [|split].
    + intros Hd. apply Z.eqb_neq in Hd. rewrite Hd. simpl.
      exists (EvOpen (device controller)
                :: tty_setup w (w_open w (device controller))
                ++ [EvLuaNewstate; EvLuaOpenlibs; EvLuaPreload "trx";
                    EvStat (driver_of (trx_type controller))]).
      simpl. rewrite <- ?app_assoc. reflexivity.
    + intros Hd Hs Hi. apply Z.eqb_neq in Hi.
      rewrite Hd, Hs, Hi. simpl.
      exists (EvOpen (device controller)
                :: tty_setup w (w_open w (device controller))
                ++ [EvLuaNewstate; EvLuaOpenlibs; EvLuaPreload "trx";
                    EvStat (driver_of (trx_type controller));
                    EvLuaDofile (driver_of (trx_type controller));
                    EvStat PATH_INIT]).
      simpl. rewrite <- ?app_assoc. reflexivity.
    + intros Hd Hs. rewrite Hd, Hs. simpl.
      destruct (negb (w_dofile w PATH_INIT =? 0)); simpl;
        rewrite ?in_app_iff; simpl; tauto.
Qed.

End Facts.

(** ** A run with the simulator driver *)

Definition simulator : controller_t :=
  mk_controller "/dev/ttyUSB0" "simulator".

Definition trx_dir : string := "/usr/share/trxd/trx".
Definition init_script : string := "/usr/share/trxd/trxd.lua".

(** The device opens as descriptor 5 and is a terminal, the driver file is
    there and runs without error, and there is no initialisation script. *)
Definition all_well : world :=
  mk_world (fun _ => 5) (fun _ => true) (fun _ => 0) (fun _ => 0) true
    (fun path => if String.eqb path init_script then -1 else 0)
    (fun _ => 0).

(** C5, as stated, fails: in a run where the device opens and the driver
    file loads without error, the thread runs the file, sleeps and ends;
    the [initialize] of the driver table is not called. *)
Lemma driver_initialize_not_invoked :
  trx_control trx_dir init_script simulator all_well
  = ([EvOpen "/dev/ttyUSB0"; EvTcsetattr 5; EvLuaNewstate; EvLuaOpenlibs;
      EvLuaPreload "trx"; EvStat "/usr/share/trxd/trx/simulator.lua";
      EvLuaDofile "/usr/share/trxd/trx/simulator.lua";
      EvStat "/usr/share/trxd/trxd.lua";
      EvPrintf "trx_control started"; EvSleep 10;
      EvPrintf "trx_control terminates"; EvLuaClose], 0) /\
  ~ In (EvLuaCall "initialize")
      (fst (trx_control trx_dir init_script simulator all_well)).
Proof.
  split; [vm_compute; reflexivity|].
  vm_compute. intuition discriminate.
Qed.

Lemma trx_control_loads_driver_witness :
  let tr := fst (trx_control trx_dir init_script simulator all_well) in
  let driver := trx_driver trx_dir "simulator" in
  In (EvLuaDofile driver) tr /\
  Forall (fun e => ~ calls_driver e) tr /\
  (w_dofile all_well driver <> 0 ->
   exists before,
     trx_control trx_dir init_script simulator all_well
       = (before ++ [EvLuaDofile driver; EvSyslog "Lua error"; EvLuaClose],
          0)) /\
  (w_dofile all_well driver = 0 -> w_stat all_well init_script = 0 ->
   w_dofile all_well init_script <> 0 ->
   exists before,
     trx_control trx_dir init_script simulator all_well
       = (before ++ [EvLuaDofile init_script; EvSyslog "Lua error";
                     EvLuaClose], 0)) /\
  (w_dofile all_well driver = 0 -> w_stat all_well init_script = 0 ->
   In (EvLuaDofile init_script) tr).
Proof.
  apply (trx_control_loads_driver trx_dir init_script simulator all_well).
  - reflexivity.
  - vm_compute. intros H. discriminate H.
  - reflexivity.
  - reflexivity.
Defined.

(** A driver name that tries to leave the driver directory. *)
Definition escaping : controller_t :=
  mk_controller "/dev/ttyUSB0" "../../../tmp/evil".

Lemma slash_in_trx_type_rejected_witness :
  trx_control trx_dir init_script escaping all_well
  = ([EvSyslog "trx-type must not contain slashes"], 0).
Proof.
  apply (slash_in_trx_type_rejected trx_dir init_script escaping all_well).
  reflexivity.
Defined.

End TrxControlFacts.

(** * Properties of the driver path and of the Lua state *)

Module TrxControlPathFacts.
Import TrxControl TrxControlFacts.

(** The events of the terminal setup. *)
Definition tty_event (e : event) : Prop :=
  match e with
  | EvSyslog _ | EvTcsetattr _ => True
  | _ => False
  end.

Lemma tty_setup_events w fd : Forall tty_event (tty_setup w fd).
Proof.
  unfold tty_setup.
  destruct (w_isatty w fd); [|constructor].
  destruct (w_tcgetattr w fd <? 0); [repeat constructor|].
  destruct (w_tcsetattr w fd <? 0); repeat constructor.
Qed.

Section Paths.

Variable PATH_TRX : string.
Variable PATH_INIT : string.

Local Abbreviation control := (trx_control PATH_TRX PATH_INIT).
Local Abbreviation driver_of := (trx_driver PATH_TRX).

(** What the thread runs with [luaL_dofile]: files for which [stat] was
    called and returned 0, the initialisation script or the driver file. *)
Lemma trx_control_dofile (controller : controller_t) (w : world)
    (p : string) :
  In (EvLuaDofile p) (fst (control controller w)) ->
  w_stat w p = 0 /\
  In (EvStat p) (fst (control controller w)) /\
  (p = PATH_INIT \/ p = driver_of (trx_type controller)).
Proof.
  pose proof (tty_setup_events w (w_open w (device controller))) as Htty.
  rewrite List.Forall_forall in Htty.
  assert (Hno : ~ In (EvLuaDofile p)
                    (tty_setup w (w_open w (device controller))))
    by (intros H; exact (Htty _ H)).
  unfold trx_control.
  destruct (strchr (trx_type controller) "/") eqn:Hslash.
  { intros [H|[]]. discriminate H. }
  destruct (w_open w (device controller) =? -1).
  { intros [H|[H|[]]]; discriminate H. }
  destruct (w_newstate w); cbn [negb].
  2:{ cbn [fst]. intros [H|H]; [discriminate H|].
      apply in_app_iff in H. destruct H as [H|[H|[H|[]]]];
        [contradiction | discriminate H | discriminate H]. }
  destruct (w_stat w (driver_of (trx_type controller)) =? 0) eqn:Hs;
    cbn [negb].
  2:{ cbn [fst]. intros [H|H]; [discriminate H|].
      rewrite !in_app_iff in H. cbn [In] in H.
      intuition discriminate. }
  apply Z.eqb_eq in Hs.
  assert (Hdrv : forall q, EvLuaDofile (driver_of (trx_type controller))
                           = EvLuaDofile q ->
                 w_stat w q = 0 /\
                 (q = PATH_INIT \/ q = driver_of (trx_type controller))).
  { intros q [= <-]. auto. }
  destruct (w_dofile w (driver_of (trx_type controller)) =? 0); cbn [negb].
  2:{ cbn [fst]. intros [H|H]; [discriminate H|].
      rewrite !in_app_iff in H. cbn [In] in H.
      destruct H as [[H|H]|H]; [contradiction | |].
      - intuition discriminate.
      - destruct H as [H|[H|[H|[H|[]]]]]; try discriminate H.
        destruct (Hdrv _ H) as [? ?]. injection H as <-.
        split; [assumption|]. split; [|assumption].
        right. rewrite !in_app_iff. cbn [In]. tauto. }
  destruct (w_stat w PATH_INIT =? 0) eqn:Hi.
  - apply Z.eqb_eq in Hi.
    destruct (w_dofile w PATH_INIT =? 0); cbn [negb fst];
      intros [H|H]; try discriminate H;
      rewrite !in_app_iff in H; cbn [In] in H;
      repeat match type of H with
      | _ \/ _ => destruct H as [H|H]
      end; try contradiction; try discriminate H;
      try (destruct (Hdrv _ H) as [? ?]; injection H as <-;
           split; [assumption|]; split; [|assumption];
           right; rewrite !in_app_iff; cbn [In]; tauto);
      try (injection H as <-; split; [assumption|]; split; [|left; reflexivity];
           right; rewrite !in_app_iff; cbn [In]; tauto).
  - cbn [fst]. intros [H|H]; try discriminate H;
      rewrite !in_app_iff in H; cbn [In] in H;
      repeat match type of H with
      | _ \/ _ => destruct H as [H|H]
      end; try contradiction; try discriminate H;
      try (destruct (Hdrv _ H) as [? ?]; injection H as <-;
           split; [assumption|]; split; [|assumption];
           right; rewrite !in_app_iff; cbn [In]; tauto).
Qed.

Lemma substring_whole s : forall n,
  (String.length s <= n)%nat -> substring 0 n s = s.
Proof.
  induction s as [|x s IH]; intros [|n] H; simpl in *;
    [reflexivity | reflexivity | lia |].
  rewrite IH by lia. reflexivity.
Qed.

(** X19: whatever the thread runs with [luaL_dofile] is a file for which
    [stat] was called and returned 0, and it is either the initialisation
    script or the driver file of a driver name free of slashes: the first
    [PATH_MAX - 1] characters of [PATH_TRX/<trx_type>.lua], which is all
    of that path when it is shorter than [PATH_MAX].  Of a longer path
    only the front is kept: where the cut falls decides which file is
    run. *)
Theorem trx_control_runs_driver_or_init (controller : controller_t)
    (w : world) (p : string) :
  In (EvLuaDofile p) (fst (control controller w)) ->
  w_stat w p = 0 /\
  In (EvStat p) (fst (control controller w)) /\
  (p = PATH_INIT \/
   strchr (trx_type controller) "/" = false /\
   p = substring 0 (PATH_MAX - 1)
         (PATH_TRX ++ "/" ++ trx_type controller ++ ".lua")%string /\
   ((String.length (PATH_TRX ++ "/" ++ trx_type controller ++ ".lua")
     < PATH_MAX)%nat ->
    p = (PATH_TRX ++ "/" ++ trx_type controller ++ ".lua")%string)).
Proof.
  intros H.
  assert (Hslash : strchr (trx_type controller) "/" = false).
  { destruct (strchr (trx_type controller) "/") eqn:E; [|reflexivity].
    exfalso. revert H. unfold trx_control. rewrite E.
    intros [H|[]]. discriminate H. }
  destruct (trx_control_dofile controller w p H) as (Hs & He & Hp).
  split; [exact Hs|]. split; [exact He|].
  destruct Hp as [Hp|Hp]; [left; exact Hp|right].
  split; [exact Hslash|]. split; [exact Hp|].
  intros Hfit. rewrite Hp. unfold trx_driver.
  apply substring_whole. lia.
Qed.

(** The events that need the Lua state. *)
Definition uses_lua (e : event) : Prop :=
  match e with
  | EvLuaOpenlibs | EvLuaPreload _ | EvLuaDofile _ | EvLuaCall _
  | EvLuaClose => True
  | _ => False
  end.

Lemma tty_setup_no_lua w fd : Forall (fun e => ~ uses_lua e) (tty_setup w fd).
Proof.
  eapply Forall_impl; [apply tty_setup_events|].
  intros [] H; simpl in *; tauto.
Qed.

(** No [lua_close] among the events of [l]. *)
Definition no_close (l : list event) : bool :=
  forallb (fun e => match e with EvLuaClose => false | _ => true end) l.

Lemma no_close_In l : no_close l = true -> ~ In EvLuaClose l.
Proof.
  unfold no_close. rewrite forallb_forall. intros H Hin.
  specialize (H _ Hin). discriminate H.
Qed.

Lemma closes_last (d : string) (tty body : list event) :
  ~ In EvLuaClose tty -> no_close body = true ->
  exists before,
    EvOpen d :: tty ++ body ++ [EvLuaClose] = before ++ [EvLuaClose] /\
    ~ In EvLuaClose before.
Proof.
  intros Htty Hbody. exists (EvOpen d :: tty ++ body). split.
  - cbn [app]. rewrite <- app_assoc. reflexivity.
  - intros [H|H]; [discriminate H|].
    apply in_app_iff in H. destruct H as [H|H]; [exact (Htty H)|].
    exact (no_close_In _ Hbody H).
Qed.

Ltac closes_last_tac Hc :=
  intros _; cbn [app]; rewrite <- ?app_assoc; cbn [app];
  match goal with
  | |- exists before, EvOpen ?d :: ?tty ++ ?l = _ /\ _ =>
      exact (closes_last d tty (removelast l) Hc eq_refl)
  end.

Ltac has_openlibs :=
  intros H; exfalso; apply H; cbn [app]; rewrite <- ?app_assoc;
  right; apply in_app_iff; right; right; left; reflexivity.

(** X20: when the thread has made a Lua state, [lua_close] is the last
    thing it does, and it does it once, on every path: missing driver, Lua
    error in either file, or the regular end.  When it has not, it does
    nothing that needs the state. *)
Theorem lua_state_closed_last (controller : controller_t) (w : world) :
  let tr := fst (control controller w) in
  (In EvLuaOpenlibs tr ->
   exists before,
     tr = before ++ [EvLuaClose] /\ ~ In EvLuaClose before) /\
  (~ In EvLuaOpenlibs tr -> Forall (fun e => ~ uses_lua e) tr).
Proof.
  cbv zeta.
  pose proof (tty_setup_no_lua w (w_open w (device controller))) as Htty.
  assert (Hc : ~ In EvLuaClose (tty_setup w (w_open w (device controller)))).
  { rewrite List.Forall_forall in Htty. intros H. exact (Htty _ H I). }
  assert (Ho : ~ In EvLuaOpenlibs
                 (tty_setup w (w_open w (device controller)))).
  { rewrite List.Forall_forall in Htty. intros H. exact (Htty _ H I). }
  unfold trx_control.
  destruct (strchr (trx_type controller) "/").
  { cbn [fst]. split.
    - intros [H|[]]. discriminate H.
    - intros _. repeat constructor. intros []. }
  destruct (w_open w (device controller) =? -1).
  { cbn [fst]. split.
    - intros [H|[H|[]]]; discriminate H.
    - intros _. constructor; [intros []|]. constructor; [intros []|].
      constructor. }
  destruct (w_newstate w); cbn [negb].
  2:{ cbn [fst]. split.
      - intros H. exfalso. destruct H as [H|H]; [discriminate H|].
        apply in_app_iff in H. destruct H as [H|[H|[H|[]]]];
          [exact (Ho H) | discriminate H | discriminate H].
      - intros _. constructor; [intros []|].
        apply Forall_app. split; [exact Htty|].
        constructor; [intros []|]. constructor; [intros []|].
        constructor. }
  destruct (negb (w_stat w (driver_of (trx_type controller)) =? 0)).
  { cbn [fst]. split; [closes_last_tac Hc | has_openlibs]. }
  destruct (negb (w_dofile w (driver_of (trx_type controller)) =? 0)).
  { cbn [fst]. split; [closes_last_tac Hc | has_openlibs]. }
  destruct (w_stat w PATH_INIT =? 0).
  - destruct (negb (w_dofile w PATH_INIT =? 0)); cbn [fst];
      (split; [closes_last_tac Hc | has_openlibs]).
  - cbn [fst]. split; [closes_last_tac Hc | has_openlibs].
Qed.

End Paths.

Lemma trx_control_runs_driver_or_init_witness :
  w_stat all_well "/usr/share/trxd/trx/simulator.lua" = 0 /\
  In (EvStat "/usr/share/trxd/trx/simulator.lua")
    (fst (trx_control trx_dir init_script simulator all_well)) /\
  ("/usr/share/trxd/trx/simulator.lua"%string = init_script \/
   strchr (trx_type simulator) "/" = false /\
   "/usr/share/trxd/trx/simulator.lua"%string
   = substring 0 (PATH_MAX - 1)
       (trx_dir ++ "/" ++ trx_type simulator ++ ".lua")%string /\
   ((String.length (trx_dir ++ "/" ++ trx_type simulator ++ ".lua")
     < PATH_MAX)%nat ->
    "/usr/share/trxd/trx/simulator.lua"%string
    = (trx_dir ++ "/" ++ trx_type simulator ++ ".lua")%string)).
Proof.
  apply (trx_control_runs_driver_or_init trx_dir init_script simulator
           all_well "/usr/share/trxd/trx/simulator.lua").
  vm_compute. tauto.
Defined.

(** A driver directory whose name has 4092 characters. *)
Fixpoint letters (n : nat) : string :=
  match n with
  | O => EmptyString
  | S n' => String "a" (letters n')
  end.

Definition deep_directory : string := String "/" (letters 4091).

(** With that directory the driver name [..] is cut behind its two dots:
    the thread runs the directory above the driver directory. *)
Example driver_path_cut :
  String.length deep_directory = 4092%nat /\
  trx_driver deep_directory ".." = (deep_directory ++ "/..")%string /\
  In (EvLuaDofile (deep_directory ++ "/.."))
    (fst (trx_control deep_directory init_script
            (mk_controller "/dev/ttyUSB0" "..") all_well)).
Proof.
  split; [vm_compute; reflexivity|].
  split; [vm_compute; reflexivity|].
  vm_compute. tauto.
Qed.

Lemma lua_state_closed_last_witness :
  exists before,
    fst (trx_control trx_dir init_script simulator all_well)
    = before ++ [EvLuaClose] /\
    ~ In EvLuaClose before.
Proof.
  apply (lua_state_closed_last trx_dir init_script simulator all_well).
  vm_compute. tauto.
Defined.

End TrxControlPathFacts.

(** * Properties of the RTXLink driver *)

Module RtxLinkFacts.
Import RtxLink.

(** What the two substitutions of [slipWrite] make of one byte. *)
Definition escape (c : Z) : list Z :=
  if c =? 0xC0 then [0xC0; 0xDC]
  else if c =? 0xDB then [0xDB; 0xDD]
  else [c].

Definition is_byte (b : Z) : Prop := 0 <= b <= 255.

Lemma gsub_twice s :
  gsub (gsub s 0xC0 [0xC0; 0xDC]) 0xDB [0xDB; 0xDD] = flat_map escape s.
Proof.
  unfold gsub. induction s as [|c s IH]; [reflexivity|].
  cbn [flat_map]. rewrite flat_map_app, IH. f_equal.
  unfold escape. destruct (c =? 192) eqn:E; [reflexivity|].
  cbn [flat_map]. destruct (c =? 219); reflexivity.
Qed.

Lemma escape_head c : exists l, escape c = c :: l.
Proof.
  unfold escape. destruct (c =? 192) eqn:E.
  - apply Z.eqb_eq in E. subst c. eexists. reflexivity.
  - destruct (c =? 219) eqn:E'.
    + apply Z.eqb_eq in E'. subst c. eexists. reflexivity.
    + eexists. reflexivity.
Qed.

Lemma flat_map_escape_inj s1 : forall s2,
  flat_map escape s1 = flat_map escape s2 -> s1 = s2.
Proof.
  induction s1 as [|x s1 IH]; intros [|y s2] H; cbn [flat_map] in H.
  - reflexivity.
  - destruct (escape_head y) as [l E]. rewrite E in H. discriminate H.
  - destruct (escape_head x) as [l E]. rewrite E in H. discriminate H.
  - destruct (escape_head x) as [lx Ex]. destruct (escape_head y) as [ly Ey].
    assert (x = y) by (rewrite Ex, Ey in H; injection H as H _; exact H).
    subst y. apply app_inv_head in H. f_equal. apply IH. exact H.
Qed.

(** X21: the framing loses nothing: two payloads that are written as the
    same bytes are the same payload. *)
Theorem slipWrite_injective (s1 s2 : list Z) :
  slipWrite s1 = slipWrite s2 -> s1 = s2.
Proof.
  unfold slipWrite. rewrite !gsub_twice. cbn [app].
  intros [= H]. apply app_inv_tail in H.
  apply flat_map_escape_inj. exact H.
Qed.

(** X22: [slipWrite] puts the delimiter 0xC0 in front of the payload and
    behind it, and leaves every 0xC0 of the payload where it is, with 0xDC
    after it: the bytes written hold two delimiters more than the payload,
    so that the delimiter marks the ends of the frame only for a payload
    without it.  The frame is longer than the payload by the two
    delimiters and by one byte for each 0xC0 and each 0xDB. *)
Theorem slipWrite_keeps_delimiter (s : list Z) :
  count_occ Z.eq_dec (slipWrite s) 0xC0
  = (2 + count_occ Z.eq_dec s 0xC0%Z)%nat /\
  length (slipWrite s)
  = (2 + length s + count_occ Z.eq_dec s 0xC0%Z
     + count_occ Z.eq_dec s 0xDB%Z)%nat.
Proof.
  unfold slipWrite. rewrite gsub_twice. cbn [app].
  rewrite count_occ_cons_eq by reflexivity.
  rewrite count_occ_app, length_cons, length_app. cbn [count_occ length].
  destruct (Z.eq_dec 192 192) as [_|H]; [|contradiction].
  assert (H : count_occ Z.eq_dec (flat_map escape s) 192
              = count_occ Z.eq_dec s 192 /\
              length (flat_map escape s)
              = (length s + count_occ Z.eq_dec s 192%Z
                 + count_occ Z.eq_dec s 219%Z)%nat).
  { induction s as [|c s [IH1 IH2]]; [split; reflexivity|].
    cbn [flat_map]. rewrite count_occ_app, length_app, IH1, IH2.
    unfold escape. cbn [count_occ length].
    destruct (Z.eq_dec c 192) as [->|N1].
    - cbn. split; lia.
    - destruct (Z.eq_dec c 219) as [->|N2].
      + cbn. split; lia.
      + apply Z.eqb_neq in N1 as E1. apply Z.eqb_neq in N2 as E2.
        rewrite E1, E2. cbn [count_occ length].
        destruct (Z.eq_dec c 192); [contradiction|].
        split; lia. }
  destruct H as [-> ->]. split; lia.
Qed.

Section Driver.

Variable crc16 : list Z -> list Z.

Lemma wrap64_id z : - 2 ^ 63 <= z < 2 ^ 63 -> wrap64 z = z.
Proof. intros H. unfold wrap64. rewrite Z.mod_small; lia. Qed.

(** The four bytes [setFrequency] puts into its request. *)
Definition frequency_bytes (f : Z) : list Z :=
  [f mod 256; (f / 256) mod 256; (f / 65536) mod 256; f / 16777216].

Lemma setFrequency_bytes f :
  - 2 ^ 62 <= f < 2 ^ 62 ->
  setFrequency crc16 f
  = (bytes ← string_char (frequency_bytes f);
     let payload := [1] ++ str "SRF" ++ bytes in
     Some (slipWrite (payload ++ crc16 payload), f)).
Proof.
  intros Hf. unfold setFrequency, frequency_bytes.
  unfold idiv, isub, imul.
  assert (E4 : wrap64 (f / 16777216) = f / 16777216).
  { apply wrap64_id.
    pose proof (Z.div_le_lower_bound f 16777216 (- 2 ^ 39)) .
    pose proof (Z.div_lt_upper_bound f 16777216 (2 ^ 39)). lia. }
  rewrite E4.
  assert (M4 : f - f / 16777216 * 16777216 = f mod 16777216)
    by (rewrite Z.mod_eq by lia; lia).
  pose proof (Z.mod_pos_bound f 16777216 ltac:(lia)) as B4.
  rewrite (wrap64_id (f / 16777216 * 16777216)) by lia.
  rewrite M4, (wrap64_id (f mod 16777216)) by lia.
  assert (D3 : f mod 16777216 / 65536 = (f / 65536) mod 256).
  { change 16777216 with (65536 * 256).
    rewrite Z.rem_mul_r by lia.
    rewrite Z.mul_comm, Z.div_add by lia.
    rewrite (Z.div_small (f mod 65536)) by (apply Z.mod_pos_bound; lia).
    reflexivity. }
  pose proof (Z.mod_pos_bound (f / 65536) 256 ltac:(lia)) as B3.
  rewrite D3, (wrap64_id ((f / 65536) mod 256)) by lia.
  rewrite (wrap64_id ((f / 65536) mod 256 * 65536)) by lia.
  assert (M3 : f mod 16777216 - (f / 65536) mod 256 * 65536 = f mod 65536).
  { rewrite <- D3. change 16777216 with (65536 * 256).
    rewrite Z.rem_mul_r by lia.
    rewrite (Z.mul_comm 65536), Z.div_add by lia.
    rewrite (Z.div_small (f mod 65536)) by (apply Z.mod_pos_bound; lia).
    lia. }
  pose proof (Z.mod_pos_bound f 65536 ltac:(lia)) as B2'.
  rewrite M3, (wrap64_id (f mod 65536)) by lia.
  assert (D2 : f mod 65536 / 256 = (f / 256) mod 256).
  { change 65536 with (256 * 256).
    rewrite Z.rem_mul_r by lia.
    rewrite Z.mul_comm, Z.div_add by lia.
    rewrite (Z.div_small (f mod 256)) by (apply Z.mod_pos_bound; lia).
    reflexivity. }
  pose proof (Z.mod_pos_bound (f / 256) 256 ltac:(lia)) as B2.
  rewrite D2, (wrap64_id ((f / 256) mod 256)) by lia.
  rewrite (wrap64_id ((f / 256) mod 256 * 256)) by lia.
  assert (M2 : f mod 65536 - (f / 256) mod 256 * 256 = f mod 256).
  { rewrite <- D2. change 65536 with (256 * 256).
    rewrite Z.rem_mul_r by lia.
    rewrite (Z.mul_comm 256), Z.div_add by lia.
    rewrite (Z.div_small (f mod 256)) by (apply Z.mod_pos_bound; lia).
    lia. }
  pose proof (Z.mod_pos_bound f 256 ltac:(lia)) as B1.
  rewrite M2, (wrap64_id (f mod 256)) by lia.
  reflexivity.
Qed.

Lemma frequency_bytes_range f :
  0 <= f < 2 ^ 32 -> Forall is_byte (frequency_bytes f).
Proof.
  intros Hf. unfold frequency_bytes, is_byte.
  pose proof (Z.mod_pos_bound f 256 ltac:(lia)).
  pose proof (Z.mod_pos_bound (f / 256) 256 ltac:(lia)).
  pose proof (Z.mod_pos_bound (f / 65536) 256 ltac:(lia)).
  pose proof (Z.div_pos f 16777216 ltac:(lia) ltac:(lia)).
  pose proof (Z.div_lt_upper_bound f 16777216 256 ltac:(lia) ltac:(lia)).
  repeat constructor; lia.
Qed.

Lemma frequency_bytes_sum f :
  f / 16777216 * 16777216 + (f / 65536) mod 256 * 65536
  + (f / 256) mod 256 * 256 + f mod 256 = f.
Proof.
  pose proof (Z.div_mod f 256 ltac:(lia)).
  pose proof (Z.div_mod (f / 256) 256 ltac:(lia)).
  pose proof (Z.div_mod (f / 65536) 256 ltac:(lia)).
  assert (f / 256 / 256 = f / 65536)
    by (rewrite Z.div_div by lia; reflexivity).
  assert (f / 65536 / 256 = f / 16777216)
    by (rewrite Z.div_div by lia; reflexivity).
  lia.
Qed.

(** X23: a frequency of 32 bits goes out as its four bytes, lowest first,
    behind the request code, with the checksum of [trx.crc16] appended and
    framed by [slipWrite]; and a reply that carries the same four bytes in
    the places [getFrequency] reads, the fourth to the seventh, is read
    back as the same frequency. *)
Theorem frequency_round_trip (f : Z) (head tail : list Z) :
  0 <= f < 2 ^ 32 -> length head = 3%nat ->
  let request := [1] ++ str "SRF" ++ frequency_bytes f in
  Forall is_byte (frequency_bytes f) /\
  setFrequency crc16 f = Some (slipWrite (request ++ crc16 request), f) /\
  snd <$> getFrequency crc16 (head ++ frequency_bytes f ++ tail) = Some f.
Proof.
  intros Hf Hhead request. subst request.
  pose proof (frequency_bytes_range f Hf) as Hb.
  split; [exact Hb|]. split.
  - rewrite setFrequency_bytes by lia.
    unfold string_char.
    replace (forallb _ (frequency_bytes f)) with true; [reflexivity|].
    symmetry. apply forallb_forall. rewrite List.Forall_forall in Hb.
    intros b Hin. specialize (Hb b Hin). unfold is_byte in Hb. lia.
  - destruct head as [|h1 [|h2 [|h3 [|]]]]; try discriminate Hhead.
    unfold getFrequency, frequency_bytes in *. cbn.
    inversion Hb as [|? ? B1 Hb1]; subst.
    inversion Hb1 as [|? ? B2 Hb2]; subst.
    inversion Hb2 as [|? ? B3 Hb3]; subst.
    inversion Hb3 as [|? ? B4 _]; subst.
    unfold is_byte in *. unfold iadd, imul.
    clear Hb Hb1 Hb2 Hb3.
    set (a := f / 16777216) in *. set (b := (f / 65536) mod 256) in *.
    set (c := (f / 256) mod 256) in *. set (d := f mod 256) in *.
    rewrite (wrap64_id (a * 16777216)) by lia.
    rewrite (wrap64_id (b * 65536)) by lia.
    rewrite (wrap64_id (c * 256)) by lia.
    rewrite (wrap64_id (a * 16777216 + b * 65536)) by lia.
    rewrite (wrap64_id (a * 16777216 + b * 65536 + c * 256)) by lia.
    rewrite (wrap64_id (a * 16777216 + b * 65536 + c * 256 + d)) by lia.
    subst a b c d. f_equal. apply frequency_bytes_sum.
Qed.

(** X24: a frequency that does not fit into 32 bits, or a negative one, is
    not sent: [string.char] raises an error for the highest byte, before
    anything is written; every other frequency is sent. *)
Theorem setFrequency_range (f : Z) :
  - 2 ^ 62 <= f < 2 ^ 62 ->
  setFrequency crc16 f = None <-> f < 0 \/ 2 ^ 32 <= f.
Proof.
  intros Hf. rewrite setFrequency_bytes by exact Hf.
  unfold string_char, frequency_bytes. cbn [forallb].
  pose proof (Z.mod_pos_bound f 256 ltac:(lia)).
  pose proof (Z.mod_pos_bound (f / 256) 256 ltac:(lia)).
  pose proof (Z.mod_pos_bound (f / 65536) 256 ltac:(lia)).
  replace ((0 <=? f mod 256) && (f mod 256 <=? 255)) with true by lia.
  replace ((0 <=? (f / 256) mod 256) && ((f / 256) mod 256 <=? 255))
    with true by lia.
  replace ((0 <=? (f / 65536) mod 256) && ((f / 65536) mod 256 <=? 255))
    with true by lia.
  cbn [andb]. rewrite andb_true_r.
  destruct (Z.lt_ge_cases f 0) as [Hn|Hn].
  - pose proof (Z.div_lt_upper_bound f 16777216 0 ltac:(lia) ltac:(lia)).
    replace (0 <=? f / 16777216) with false by lia. cbn. split; auto.
  - pose proof (Z.div_pos f 16777216 ltac:(lia) ltac:(lia)).
    replace (0 <=? f / 16777216) with true by lia. cbn [andb].
    destruct (Z.lt_ge_cases f (2 ^ 32)) as [Hu|Hu].
    + pose proof (Z.div_lt_upper_bound f 16777216 256 ltac:(lia)
                    ltac:(lia)).
      replace (f / 16777216 <=? 255) with true by lia. cbn.
      split; [discriminate | lia].
    + pose proof (Z.div_le_lower_bound f 16777216 256 ltac:(lia)
                    ltac:(lia)).
      replace (f / 16777216 <=? 255) with false by lia. cbn.
      split; auto.
Qed.

End Driver.

(** ** A run without checksum *)

(** A stand-in for [trx.crc16]. *)
Definition no_crc (payload : list Z) : list Z := [0; 0].

Lemma frequency_round_trip_witness :
  Forall is_byte (frequency_bytes 14285000) /\
  setFrequency no_crc 14285000
  = Some ([0xC0; 1; 83; 82; 70; 200; 248; 217; 0; 0; 0; 0xC0],
          14285000) /\
  snd <$> getFrequency no_crc
            ([0xC0; 1; 68] ++ frequency_bytes 14285000 ++ [0; 0; 0xC0])
  = Some 14285000.
Proof.
  apply (frequency_round_trip no_crc 14285000 [0xC0; 1; 68] [0; 0; 0xC0]).
  - lia.
  - reflexivity.
Defined.

Lemma setFrequency_range_witness :
  setFrequency no_crc 4294967296 = None
  <-> 4294967296 < 0 \/ 2 ^ 32 <= 4294967296.
Proof.
  apply (setFrequency_range no_crc 4294967296).
  lia.
Defined.

Lemma slipWrite_injective_witness :
  [1; 71; 0xC0; 0xDB] = [1; 71; 0xC0; 0xDB].
Proof.
  apply (slipWrite_injective [1; 71; 0xC0; 0xDB] [1; 71; 0xC0; 0xDB]).
  reflexivity.
Defined.

(** A payload of four bytes, one of them the delimiter and one the escape
    byte, as it is written. *)
Example slipWrite_escapes :
  slipWrite [1; 71; 0xC0; 0xDB] = [0xC0; 1; 71; 0xC0; 0xDC; 0xDB; 0xDD; 0xC0].
Proof. reflexivity. Qed.

End RtxLinkFacts.
